(** * mozmill-ci: the Pulse queue consumers of [lib/queues.py]

    A shallow embedding of the message filter and normalizer: the policy
    checks of [PulseQueue], the revision resolver [get_long_revision], the
    three queue families ([NormalizedBuildQueue], [FunsizeTaskCompletedQueue],
    [ReleaseTaskCompletedQueue]) and the top level [process_message].

    Python values are modelled by a small JSON-like value type with the
    dynamic behaviour of the operations the source applies to them
    (subscript, [in], [.get], [.lower], truthiness, ...), each returning
    either a value or the exception Python raises. *)

From Stdlib Require Import String Ascii List ZArith Bool Lia.
Import ListNotations.
Local Open Scope list_scope.
Local Open Scope string_scope.

(** ** Python values *)

Local Set Warnings "-register-all".

(** What [json.loads] produces, floats excepted (no operation of the source
    depends on one). Dictionaries have string keys, as JSON objects do, and
    are kept as association lists without duplicate keys. *)
Inductive pyval : Type :=
| PNone
| PBool (b : bool)
| PInt (n : Z)
| PStr (s : string)
| PList (l : list pyval)
| PDict (d : list (string * pyval)).

Definition dict : Type := list (string * pyval).

Fixpoint dict_get (k : string) (d : dict) : option pyval :=
  match d with
  | [] => None
  | (k', v) :: r => if String.eqb k k' then Some v else dict_get k r
  end.

(** [d[k] = v]: overwrite an existing entry, or add one. *)
Fixpoint dict_set (k : string) (v : pyval) (d : dict) : dict :=
  match d with
  | [] => [(k, v)]
  | (k', v') :: r =>
      if String.eqb k k' then (k', v) :: r else (k', v') :: dict_set k v r
  end.

Fixpoint dict_del (k : string) (d : dict) : dict :=
  match d with
  | [] => []
  | (k', v') :: r =>
      if String.eqb k k' then dict_del k r else (k', v') :: dict_del k r
  end.

Definition dict_has (k : string) (d : dict) : bool :=
  match dict_get k d with Some _ => true | None => false end.

Definition dict_keys (d : dict) : list string := map fst d.

(** Python's [==] on these values: [bool] is a subtype of [int]
    ([True == 1]), lists compare elementwise, dictionaries as mappings. *)
Fixpoint py_eqb (a b : pyval) {struct a} : bool :=
  match a, b with
  | PNone, PNone => true
  | PBool x, PBool y => Bool.eqb x y
  | PBool x, PInt n => Z.eqb (Z.b2z x) n
  | PInt n, PBool x => Z.eqb n (Z.b2z x)
  | PInt m, PInt n => Z.eqb m n
  | PStr s, PStr t => String.eqb s t
  | PList l, PList l' =>
      (fix go (l l' : list pyval) : bool :=
         match l, l' with
         | [], [] => true
         | x :: xs, y :: ys => py_eqb x y && go xs ys
         | _, _ => false
         end) l l'
  | PDict d, PDict d' =>
      (fix sub (d : dict) : bool :=
         match d with
         | [] => true
         | (k, v) :: r =>
             match dict_get k d' with
             | Some v' => py_eqb v v'
             | None => false
             end && sub r
         end) d
      && forallb (fun k => dict_has k d) (dict_keys d')
  | _, _ => false
  end.

(** Truth value testing ([not x], [if x]). *)
Definition py_truthy (v : pyval) : bool :=
  match v with
  | PNone => false
  | PBool b => b
  | PInt n => negb (Z.eqb n 0)
  | PStr s => negb (String.eqb s "")
  | PList l => match l with [] => false | _ => true end
  | PDict d => match d with [] => false | _ => true end
  end.

Definition hashable (v : pyval) : bool :=
  match v with
  | PList _ | PDict _ => false
  | _ => true
  end.

(** ** Exceptions *)

(** The subclasses of [Exception] the source and the operations it uses
    raise. *)
Inductive exn : Type :=
| ValueError (msg : string) (arg : option pyval)
| KeyError (key : pyval)
| TypeError
| AttributeError
| IndexError
| NotImplementedError
| HTTPError (status : Z)
| RequestException (name : string)
| OtherException (name : string).

(** What a statement can raise, as the handlers of the source tell it
    apart: an [Exception], or what derives from [BaseException] only
    ([KeyboardInterrupt], [SystemExit], [GeneratorExit]), which
    [except Exception] lets through and a bare [except:] catches. *)
Inductive raised : Type :=
| Exception (e : exn)
| NonException (name : string).

Definition is_ValueError (e : raised) : bool :=
  match e with Exception (ValueError _ _) => true | _ => false end.

Definition is_Exception (e : raised) : bool :=
  match e with Exception _ => true | NonException _ => false end.

(** An expression of the source either raises or has a value; the
    operations on values raise exceptions only. *)
Definition res (A : Type) : Type := (exn + A)%type.

Definition rbind {A B : Type} (r : res A) (k : A -> res B) : res B :=
  match r with
  | inl e => inl e
  | inr a => k a
  end.

Notation "'let?' x ':=' r 'in' k" := (rbind r (fun x => k))
  (at level 10, x name, r at level 100, k at level 200).

(** ** String methods *)

Definition ascii_lower (c : ascii) : ascii :=
  let n := nat_of_ascii c in
  if (Nat.leb 65 n && Nat.leb n 90)%bool then ascii_of_nat (n + 32) else c.

(** [s.lower()] as [str.lower] has it: the letters [A] to [Z] are
    lower-cased and every other byte is kept. For a [unicode] string with
    capital letters outside ASCII, Python lower-cases these as well; the
    model is exact on ASCII text only. No property below depends on which
    letters are lower-cased. *)
Fixpoint str_lower (s : string) : string :=
  match s with
  | EmptyString => EmptyString
  | String c r => String (ascii_lower c) (str_lower r)
  end.

(** [x in s] for two strings. *)
Fixpoint is_substring (x s : string) : bool :=
  match s with
  | EmptyString => String.eqb x ""
  | String _ r => String.prefix x s || is_substring x r
  end.

Definition str_endswith (suffix s : string) : bool :=
  let n := String.length s in
  let m := String.length suffix in
  Nat.leb m n && String.eqb (String.substring (n - m) m s) suffix.

(** [s.replace(old, new)] for a non-empty [old]: the occurrences of [old]
    are replaced from left to right, without overlap. [skip] counts the
    characters of a matched occurrence still to be dropped. *)
Fixpoint str_replace_from (skip : nat) (old new s : string) : string :=
  match s with
  | EmptyString => EmptyString
  | String c r =>
      match skip with
      | S n => str_replace_from n old new r
      | O =>
          if String.prefix old s
          then new ++ str_replace_from (String.length old - 1) old new r
          else String c (str_replace_from O old new r)
      end
  end.

Definition str_replace (old new s : string) : string :=
  str_replace_from O old new s.

(** The one-character strings of [s], what iterating over a string gives. *)
Fixpoint str_chars (s : string) : list pyval :=
  match s with
  | EmptyString => []
  | String c r => PStr (String c EmptyString) :: str_chars r
  end.

(** ** Operations on values *)

Definition index_of (len : nat) (i : Z) : option nat :=
  if (Z.leb 0 i && Z.ltb i (Z.of_nat len))%bool then Some (Z.to_nat i)
  else if (Z.ltb i 0 && Z.leb (- Z.of_nat len) i)%bool
       then Some (Z.to_nat (Z.of_nat len + i))
       else None.

Definition list_index (l : list pyval) (i : Z) : res pyval :=
  match index_of (List.length l) i with
  | Some n => match nth_error l n with Some v => inr v | None => inl IndexError end
  | None => inl IndexError
  end.

(** [o[k]] *)
Definition py_getitem (o k : pyval) : res pyval :=
  match o with
  | PDict d =>
      match k with
      | PStr s => match dict_get s d with Some v => inr v | None => inl (KeyError k) end
      | PList _ | PDict _ => inl TypeError
      | _ => inl (KeyError k)
      end
  | PList l =>
      match k with
      | PInt i => list_index l i
      | PBool b => list_index l (Z.b2z b)
      | _ => inl TypeError
      end
  | PStr s =>
      match k with
      | PInt i => list_index (str_chars s) i
      | PBool b => list_index (str_chars s) (Z.b2z b)
      | _ => inl TypeError
      end
  | _ => inl TypeError
  end.

Definition getitem_str (o : pyval) (k : string) : res pyval :=
  py_getitem o (PStr k).

(** [o[k] = v], the updated object. *)
Definition py_setitem (o : pyval) (k : string) (v : pyval) : res pyval :=
  match o with
  | PDict d => inr (PDict (dict_set k v d))
  | _ => inl TypeError
  end.

(** [o.get(k, default)] *)
Definition py_get (o : pyval) (k : string) (default : pyval) : res pyval :=
  match o with
  | PDict d => inr (match dict_get k d with Some v => v | None => default end)
  | _ => inl AttributeError
  end.

(** [o.keys()] *)
Definition py_keys (o : pyval) : res pyval :=
  match o with
  | PDict d => inr (PList (map PStr (dict_keys d)))
  | _ => inl AttributeError
  end.

(** [o.lower()] *)
Definition py_lower (o : pyval) : res pyval :=
  match o with
  | PStr s => inr (PStr (str_lower s))
  | _ => inl AttributeError
  end.

(** [x in c] *)
Definition py_contains (c x : pyval) : res bool :=
  match c with
  | PList l => inr (existsb (py_eqb x) l)
  | PDict d =>
      match x with
      | PStr s => inr (dict_has s d)
      | PList _ | PDict _ => inl TypeError
      | _ => inr false
      end
  | PStr s =>
      match x with
      | PStr t => inr (is_substring t s)
      | _ => inl TypeError
      end
  | _ => inl TypeError
  end.

(** The elements a [for] loop over [c] visits. *)
Definition py_iter (c : pyval) : res (list pyval) :=
  match c with
  | PList l => inr l
  | PStr s => inr (str_chars s)
  | PDict d => inr (map PStr (dict_keys d))
  | _ => inl TypeError
  end.

(** [set(c)], as the list of its elements. *)
Definition py_set (c : pyval) : res (list pyval) :=
  let? l := py_iter c in
  if forallb hashable l then inr l else inl TypeError.

Definition set_issubset (a b : list pyval) : bool :=
  forallb (fun x => existsb (py_eqb x) b) a.

(** [d.pop(k, default)]: the popped value and the updated object. *)
Definition py_pop (o : pyval) (k : string) (default : pyval) : res (pyval * pyval) :=
  match o with
  | PDict d =>
      inr (match dict_get k d with Some v => v | None => default end,
           PDict (dict_del k d))
  | PList _ => inl TypeError
  | _ => inl AttributeError
  end.

(** [s.replace(old, new)] and [s.endswith(suffix)] as methods of a value. *)
Definition py_replace (o : pyval) (old new : string) : res pyval :=
  match o with
  | PStr s => inr (PStr (str_replace old new s))
  | _ => inl AttributeError
  end.

Definition py_endswith (o : pyval) (suffix : string) : res bool :=
  match o with
  | PStr s => inr (str_endswith suffix s)
  | _ => inl AttributeError
  end.

(** ** The queue object and its policy checks *)

(** The keyword arguments of one callback invocation, in the order of the
    dictionary display that builds them. *)
Definition kwargs : Type := dict.

(** [self]: the registered callback and the policy document. The callback
    is any function of the record it is handed and of the records it was
    handed before, for this message; it returns normally ([None]) or
    raises. It is assumed not to mutate its arguments. *)
Record PulseQueue : Type := {
  callback : list kwargs -> kwargs -> option raised;
  pulse_config : pyval
}.

(** [PulseQueue.__init__]: [self.pulse_config = pulse_config or {}]. *)
Definition PulseQueue_init (cb : list kwargs -> kwargs -> option raised)
    (config : pyval) : PulseQueue :=
  {| callback := cb;
     pulse_config := if py_truthy config then config else PDict [] |}.

(** What [PulseQueue.__init__] declares: the exchange it subscribes to and
    the arguments it hands to [Queue.__init__]. *)
Record Exchange : Type := {
  exchange_name : string;
  exchange_type : string;
  passive : bool
}.

Record QueueArgs : Type := {
  queue_name : pyval;
  queue_exchange : option Exchange;
  queue_durable : pyval;
  queue_auto_delete : bool
}.

(** The rest of [PulseQueue.__init__]:
    [durable = durable or self.pulse_config.get('durable', False)], the
    passive topic exchange made when [exchange_name] is given, and the call
    of [Queue.__init__] with [auto_delete=not durable]. The [auto_delete]
    argument of the constructor is not used. *)
Definition PulseQueue_queue_args (name : pyval) (exchange_name : option string)
    (exchange : option Exchange) (durable auto_delete config : pyval) : res QueueArgs :=
  let pulse_config := if py_truthy config then config else PDict [] in
  let? durable := (if py_truthy durable then inr durable
                   else py_get pulse_config "durable" (PBool false)) in
  let exchange :=
    match exchange_name with
    | Some n =>
        if negb (String.eqb n "")
        then Some {| exchange_name := n; exchange_type := "topic"; passive := true |}
        else exchange
    | None => exchange
    end in
  inr {| queue_name := name;
         queue_exchange := exchange;
         queue_durable := durable;
         queue_auto_delete := negb (py_truthy durable) |}.

(** [self.pulse_config['trees'][tree][field]] *)
Definition tree_entry (self : PulseQueue) (tree : pyval) (field : string) : res pyval :=
  let? trees := getitem_str (pulse_config self) "trees" in
  let? entry := py_getitem trees tree in
  getitem_str entry field.

Definition is_valid_locale (self : PulseQueue) (tree locale : pyval) : res bool :=
  let? whitelist := tree_entry self tree "locales" in
  let? bl := tree_entry self tree "blacklist" in
  let? blacklist := getitem_str bl "locales" in
  let? blocked := py_contains blacklist locale in
  if blocked then inr false
  else if negb (py_truthy whitelist) then inr true
  else py_contains whitelist locale.

Definition is_valid_platform (self : PulseQueue) (tree platform : pyval) : res bool :=
  let? platforms := tree_entry self tree "platforms" in
  if negb (py_truthy platforms) then inr true
  else py_contains platforms platform.

Definition is_valid_product (self : PulseQueue) (tree product : pyval) : res bool :=
  let? products := tree_entry self tree "products" in
  if negb (py_truthy products) then inr true
  else py_contains products product.

Definition is_valid_tree (self : PulseQueue) (tree : pyval) : res bool :=
  let? mapping := getitem_str (pulse_config self) "trees" in
  let? trees := py_keys mapping in
  if negb (py_truthy trees) then inr true
  else py_contains trees tree.

Definition has_valid_tags (self : PulseQueue) (tree tags : pyval) : res bool :=
  let? configured := tree_entry self tree "tags" in
  let? all_tags := py_set configured in
  match all_tags with
  | [] => inr true
  | _ => let? given := py_set tags in inr (set_issubset all_tags given)
  end.

(** ** The outside world *)

(** What [requests.get] returns: the status line and the body, [None] when
    the body is not a JSON document. *)
Record response : Type := {
  status_code : Z;
  body_json : option pyval
}.

(** The library calls whose results the source does not compute itself.
    [http_get url timeout] is [requests.get]: a response, or the name of the
    [requests] exception raised (timeout, connection failure).
    [cc_key_search_funsize] and [cc_key_search_release] are
    [cc_key_regex.search] of the two classes, the first giving the groups
    [tree] and [platform]. [scheduled_buildid] is [datetime.strptime]
    followed by [strftime], [None] when it raises. [format_other] is the
    text [format] and [%s] give for a value that is not a string. *)
Record World : Type := {
  http_get : string -> option Z -> string + response;
  buildUrl : string -> list pyval -> string;
  cc_key_search_funsize : string -> option (string * string);
  cc_key_search_release : string -> bool;
  scheduled_buildid : pyval -> option string;
  format_other : pyval -> string
}.

(** The transport message: [message.headers]. *)
Record message : Type := { headers : pyval }.

(** ** Effects *)

Inductive level : Type := DEBUG | INFO | EXCEPTION.

(** What a run does to the outside, in order: a call of the logger, a
    request sent, a response closed, the callback invoked, the message
    acknowledged. [Callback kw] holds the keyword arguments as they are when
    the callback is invoked; the [raw_json] among them is the payload
    object of the normalizer, which an update of the payload made later
    changes as well. *)
Inductive event : Type :=
| Log (l : level)
| Request (url : string) (timeout : option Z)
| Close
| Callback (kw : kwargs)
| Ack.

Definition trace : Type := list event.

Fixpoint calls (tr : trace) : list kwargs :=
  match tr with
  | [] => []
  | Callback kw :: r => kw :: calls r
  | _ :: r => calls r
  end.

Fixpoint acks (tr : trace) : nat :=
  match tr with
  | [] => O
  | Ack :: r => S (acks r)
  | _ :: r => acks r
  end.

Definition outcome (A : Type) : Type := (raised + A)%type.

(** A statement: from the trace so far to the trace after it and either
    what it raised or its value. *)
Definition M (A : Type) : Type := trace -> trace * outcome A.

Definition ret {A : Type} (a : A) : M A := fun tr => (tr, inr a).

Definition raise {A : Type} (e : exn) : M A := fun tr => (tr, inl (Exception e)).

Definition lift {A : Type} (r : res A) : M A :=
  fun tr =>
    (tr, match r with
         | inl e => inl (Exception e)
         | inr a => inr a
         end).

Definition bind {A B : Type} (m : M A) (k : A -> M B) : M B :=
  fun tr =>
    match m tr with
    | (tr', inl e) => (tr', inl e)
    | (tr', inr a) => k a tr'
    end.

Definition emit (ev : event) : M unit := fun tr => ((tr ++ [ev])%list, inr tt).

(** [try: m except ...: h]: [h e] is the body of the first clause that
    matches [e], [None] when no clause does. *)
Definition try_except {A : Type} (m : M A) (h : raised -> option (M A)) : M A :=
  fun tr =>
    match m tr with
    | (tr', inl e) =>
        match h e with
        | Some k => k tr'
        | None => (tr', inl e)
        end
    | (tr', inr a) => (tr', inr a)
    end.

(** [try: m finally: f] *)
Definition try_finally {A : Type} (m : M A) (f : M unit) : M A :=
  fun tr =>
    match m tr with
    | (tr', r) =>
        match f tr' with
        | (tr'', inl e) => (tr'', inl e)
        | (tr'', inr _) => (tr'', r)
        end
    end.

Notation "x <- m ;; k" := (bind m (fun x => k))
  (at level 61, m at next level, right associativity).
Notation "m ;;; k" := (bind m (fun _ => k))
  (at level 61, right associativity).

Fixpoint for_each {A : Type} (l : list A) (body : A -> M unit) : M unit :=
  match l with
  | [] => ret tt
  | x :: r => body x ;;; for_each r body
  end.

(** The call of [self.callback] with the keyword arguments [kw]. *)
Definition call_callback (self : PulseQueue) (kw : kwargs) : M unit :=
  fun tr =>
    match callback self (calls tr) kw with
    | Some e => ((tr ++ [Callback kw])%list, inl e)
    | None => ((tr ++ [Callback kw])%list, inr tt)
    end.

(** The two handler lists of the source: [except ValueError] at the given
    level, then [except Exception] with [logger.exception]. *)
Definition log_handlers (value_error_level : level) (e : raised) : option (M unit) :=
  if is_ValueError e then Some (emit (Log value_error_level))
  else if is_Exception e then Some (emit (Log EXCEPTION))
  else None.

(** [if not ok: raise ValueError(msg.format(arg))] *)
Definition check (ok : res bool) (msg : string) (arg : pyval) : M unit :=
  b <- lift ok ;;
  if b then ret tt else raise (ValueError msg (Some arg)).

Section Queues.

Variable W : World.

Definition py_format (v : pyval) : string :=
  match v with
  | PStr s => s
  | _ => format_other W v
  end.

Definition requests_get (url : string) (timeout : option Z) : M response :=
  emit (Request url timeout) ;;;
  match http_get W url timeout with
  | inl name => raise (RequestException name)
  | inr r => ret r
  end.

(** [Response.raise_for_status]: the client and server error statuses
    raise. *)
Definition raise_for_status (r : response) : M unit :=
  if (Z.leb 400 (status_code r) && Z.ltb (status_code r) 600)%bool
  then raise (HTTPError (status_code r))
  else ret tt.

(** [Response.json] *)
Definition response_json (r : response) : M pyval :=
  match body_json r with
  | Some j => ret j
  | None => raise (ValueError "No JSON object could be decoded" None)
  end.

(** ** The revision resolver *)

Definition hg_repo_path (repo : pyval) : string :=
  if negb (py_eqb repo (PStr "mozilla-central"))
  then "releases/" ++ py_format repo
  else py_format repo.

Definition json_rev_url (repo revision : pyval) : string :=
  "https://hg.mozilla.org/" ++ hg_repo_path repo ++ "/json-rev/" ++ py_format revision.

Definition get_long_revision (repo revision : pyval) : M pyval :=
  let url := json_rev_url repo revision in
  req <- requests_get url (Some 60%Z) ;;
  raise_for_status req ;;;
  j <- response_json req ;;
  lift (getitem_str j "node").

(** ** NormalizedBuildQueue *)

(** The dictionary [build_properties], from the values of its entries. *)
Definition Build_properties (p_branch p_buildid p_build_number p_build_url p_locale
    p_platform p_product p_repository p_revision p_status p_tags
    p_test_packages_url p_tree p_version data : pyval) : kwargs :=
  [ ("allowed_testruns", PList [PStr "functional"]);
    ("branch", p_branch);
    ("buildid", p_buildid);
    ("build_number", p_build_number);
    ("build_url", p_build_url);
    ("locale", p_locale);
    ("platform", p_platform);
    ("product", p_product);
    ("repository", p_repository);
    ("revision", p_revision);
    ("status", p_status);
    ("tags", p_tags);
    ("test_packages_url", p_test_packages_url);
    ("tree", p_tree);
    ("version", p_version);
    ("raw_json", data) ].

Definition NormalizedBuildQueue_on_message (self : PulseQueue) (data : pyval) : M unit :=
  tree <- lift (getitem_str data "tree") ;;
  check (is_valid_tree self tree)
        "Cancel build request due to invalid tree: " tree ;;;
  product <- lift (let? p := getitem_str data "product" in py_lower p) ;;
  check (is_valid_product self tree product)
        "Cancel build request due to invalid product: " product ;;;
  platform <- lift (getitem_str data "platform") ;;
  check (is_valid_platform self tree platform)
        "Cancel build request due to invalid platform: " platform ;;;
  tags <- lift (getitem_str data "tags") ;;
  check (has_valid_tags self tree tags)
        "Cancel build request due to invalid tags: " tags ;;;
  locale <- lift (getitem_str data "locale") ;;
  check (is_valid_locale self tree locale)
        "Cancel build request due to invalid locale: " locale ;;;
  branch <- lift (py_replace tree "release-" "") ;;
  data <- lift (py_setitem data "branch" branch) ;;
  central <- lift (py_endswith tree "-central") ;;
  branch <- lift (getitem_str data "branch") ;;
  data <- lift (py_setitem data "repo"
                  (PStr ("http://hg.mozilla.org/"
                         ++ (if negb central then "releases/" else "")
                         ++ py_format branch))) ;;
  p_branch <- lift (getitem_str data "branch") ;;
  p_buildid <- lift (getitem_str data "buildid") ;;
  p_build_number <- lift (py_get data "build_number" PNone) ;;
  locale <- lift (getitem_str data "locale") ;;
  p_build_url <- lift (if py_eqb locale (PStr "en-US")
                       then getitem_str data "buildurl"
                       else inr PNone) ;;
  p_locale <- lift (getitem_str data "locale") ;;
  p_platform <- lift (getitem_str data "platform") ;;
  p_product <- lift (let? p := getitem_str data "product" in py_lower p) ;;
  p_repository <- lift (getitem_str data "repo") ;;
  short <- lift (getitem_str data "revision") ;;
  p_revision <- get_long_revision tree short ;;
  p_status <- lift (getitem_str data "status") ;;
  p_tags <- lift (getitem_str data "tags") ;;
  p_test_packages_url <- lift (getitem_str data "test_packages_url") ;;
  p_tree <- lift (getitem_str data "tree") ;;
  p_version <- lift (getitem_str data "version") ;;
  call_callback self
    (Build_properties p_branch p_buildid p_build_number p_build_url p_locale
       p_platform p_product p_repository p_revision p_status p_tags
       p_test_packages_url p_tree p_version data).

Definition NormalizedBuildQueue_preprocess_message (self : PulseQueue)
    (body : pyval) (msg : option message) : M pyval :=
  lift (py_get body "payload" body).

(** ** FunsizeTaskCompletedQueue *)

(** The dictionary [update_properties], from the values of its entries. *)
Definition Funsize_update_properties (p_branch p_buildid p_locale p_platform
    p_product p_repository p_revision p_target_buildid p_target_version p_tree
    p_update_number update : pyval) : kwargs :=
  [ ("allowed_testruns", PList [PStr "update"]);
    ("branch", p_branch);
    ("buildid", p_buildid);
    ("locale", p_locale);
    ("platform", p_platform);
    ("product", p_product);
    ("repository", p_repository);
    ("revision", p_revision);
    ("target_buildid", p_target_buildid);
    ("target_version", p_target_version);
    ("tree", p_tree);
    ("update_number", p_update_number);
    ("raw_json", update) ].

(** The [try] block of the loop over the updates. *)
Definition Funsize_try_update (self : PulseQueue) (update : pyval) : M unit :=
  tree <- lift (getitem_str update "branch") ;;
  check (is_valid_tree self tree)
        "Cancel update request due to invalid tree: " tree ;;;
  product <- lift (let? p := getitem_str update "appName" in py_lower p) ;;
  check (is_valid_product self tree product)
        "Cancel update request due to invalid product: " product ;;;
  platform <- lift (getitem_str update "platform") ;;
  check (is_valid_platform self tree platform)
        "Cancel update request due to invalid platform: " platform ;;;
  locale <- lift (getitem_str update "locale") ;;
  check (is_valid_locale self tree locale)
        "Cancel update request due to invalid locale: " locale ;;;
  p_branch <- lift (getitem_str update "branch") ;;
  p_buildid <- lift (getitem_str update "from_buildid") ;;
  p_locale <- lift (getitem_str update "locale") ;;
  p_platform <- lift (getitem_str update "platform") ;;
  p_product <- lift (let? p := getitem_str update "appName" in py_lower p) ;;
  p_repository <- lift (getitem_str update "repo") ;;
  p_revision <- lift (getitem_str update "revision") ;;
  p_target_buildid <- lift (getitem_str update "to_buildid") ;;
  p_target_version <- lift (getitem_str update "version") ;;
  p_tree <- lift (getitem_str update "branch") ;;
  p_update_number <- lift (getitem_str update "update_number") ;;
  call_callback self
    (Funsize_update_properties p_branch p_buildid p_locale p_platform p_product
       p_repository p_revision p_target_buildid p_target_version p_tree
       p_update_number update).

(** The body of the loop over the updates: the [try] block with its two
    handlers. *)
Definition Funsize_handle_update (self : PulseQueue) (update : pyval) : M unit :=
  try_except (Funsize_try_update self update) (log_handlers INFO).

Definition FunsizeTaskCompletedQueue_on_message (self : PulseQueue) (data : pyval) : M unit :=
  let data := match data with PDict _ => PList [data] | _ => data end in
  updates <- lift (py_iter data) ;;
  for_each updates (Funsize_handle_update self).

(** The body of the loop over the carbon-copy routing keys: [ValueError] is
    raised again, anything else is logged and dropped. *)
Definition Funsize_check_routing_key (self : PulseQueue) (routing_key : pyval) : M unit :=
  try_except
    (match routing_key with
     | PStr key =>
         match cc_key_search_funsize W key with
         | None => ret tt
         | Some (tree, platform) =>
             emit (Log DEBUG) ;;;
             check (is_valid_tree self (PStr tree))
                   "Cancel update request due to invalid tree: " (PStr tree) ;;;
             check (is_valid_platform self (PStr tree) (PStr platform))
                   "Cancel update request due to invalid platform: " (PStr platform)
         end
     | _ => raise TypeError
     end)
    (fun e => if is_ValueError e then None else Some (emit (Log EXCEPTION))).

Definition FunsizeTaskCompletedQueue_preprocess_message (self : PulseQueue)
    (body : pyval) (msg : option message) : M pyval :=
  match msg with
  | Some m =>
      keys <- lift (let? cc := getitem_str (headers m) "CC" in py_iter cc) ;;
      for_each keys (Funsize_check_routing_key self)
  | None => ret tt
  end ;;;
  has_worker <- lift (py_contains body (PStr "workerId")) ;;
  if negb has_worker then ret body
  else
    task_id <- lift (let? status := getitem_str body "status" in
                     getitem_str status "taskId") ;;
    let url := buildUrl W "getLatestArtifact"
                 [task_id; PStr "public/env/manifest.json"] in
    resp <- requests_get url None ;;
    try_finally
      (raise_for_status resp ;;;
       manifest <- response_json resp ;;
       emit (Log DEBUG) ;;;
       ret manifest)
      (emit Close).

(** ** ReleaseTaskCompletedQueue *)

(** The dictionary [build_properties] of [_handle_locale], from the values
    of its entries. *)
Definition Release_build_properties (p_branch p_buildid locale p_platform
    p_product p_revision tree p_version data : pyval) : kwargs :=
  [ ("allowed_testruns", PList [PStr "functional"]);
    ("branch", p_branch);
    ("buildid", p_buildid);
    ("locale", locale);
    ("platform", p_platform);
    ("product", p_product);
    ("revision", p_revision);
    ("tree", tree);
    ("version", p_version);
    ("raw_json", data) ].

(** The [try] block of the local function [_handle_locale]; [tree] and
    [data] are the variables of the enclosing call it closes over. *)
Definition Release_try_locale (self : PulseQueue) (tree data locale : pyval) : M unit :=
  check (is_valid_locale self tree locale)
        "Cancel build request due to invalid locale: " locale ;;;
  p_branch <- lift (getitem_str data "branch") ;;
  p_buildid <- lift (getitem_str data "buildid") ;;
  p_platform <- lift (getitem_str data "platform") ;;
  p_product <- lift (getitem_str data "product") ;;
  p_revision <- lift (getitem_str data "revision") ;;
  p_version <- lift (getitem_str data "version") ;;
  call_callback self
    (Release_build_properties p_branch p_buildid locale p_platform p_product
       p_revision tree p_version data).

(** [_handle_locale]: the [try] block with its two handlers. *)
Definition Release_handle_locale (self : PulseQueue) (tree data locale : pyval) : M unit :=
  try_except (Release_try_locale self tree data locale) (log_handlers INFO).

(** The loop over the popped list of locales. [data] is one object, updated
    in place before each locale is handled; the result is its final
    content. *)
Fixpoint Release_locales_loop (self : PulseQueue) (tree data : pyval)
    (locales : list pyval) : M pyval :=
  match locales with
  | [] => ret data
  | locale :: rest =>
      data <- lift (py_setitem data "locale" locale) ;;
      Release_handle_locale self tree data locale ;;;
      Release_locales_loop self tree data rest
  end.

Definition ReleaseTaskCompletedQueue_on_message (self : PulseQueue) (data : pyval) : M unit :=
  tree <- lift (getitem_str data "tree") ;;
  check (is_valid_tree self tree)
        "Cancel build request due to invalid tree: " tree ;;;
  product <- lift (let? p := getitem_str data "product" in py_lower p) ;;
  check (is_valid_product self tree product)
        "Cancel build request due to invalid product: " product ;;;
  platform <- lift (getitem_str data "platform") ;;
  check (is_valid_platform self tree platform)
        "Cancel build request due to invalid platform: " platform ;;;
  has_locale <- lift (py_contains data (PStr "locale")) ;;
  if has_locale then
    locale <- lift (getitem_str data "locale") ;;
    Release_handle_locale self tree data locale
  else
    popped <- lift (py_pop data "locales" (PList [])) ;;
    locales <- lift (py_iter (fst popped)) ;;
    Release_locales_loop self tree (snd popped) locales ;;;
    ret tt.

(** The [buildid] the manifest gets from the time the last run was
    scheduled; the bare [except: pass] leaves the manifest as it is. *)
Definition Release_fake_buildid (body manifest : pyval) : pyval :=
  match (let? status := getitem_str body "status" in
         let? runs := getitem_str status "runs" in
         let? last := py_getitem runs (PInt (-1)) in
         getitem_str last "scheduled") with
  | inr scheduled =>
      match scheduled_buildid W scheduled with
      | Some buildid =>
          match py_setitem manifest "buildid" (PStr buildid) with
          | inr m => m
          | inl _ => manifest
          end
      | None => manifest
      end
  | inl _ => manifest
  end.

(** [[self.cc_key_regex.search(key) for key in keys]] under [any]: every
    key is searched, and one that is not a string raises. *)
Fixpoint Release_any_match (keys : list pyval) : res bool :=
  match keys with
  | [] => inr false
  | PStr key :: rest =>
      let? found := Release_any_match rest in
      inr (cc_key_search_release W key || found)
  | _ :: _ => inl TypeError
  end.

Definition ReleaseTaskCompletedQueue_preprocess_message (self : PulseQueue)
    (body : pyval) (msg : option message) : M pyval :=
  match msg with
  | Some m =>
      _ <- lift (getitem_str (headers m) "CC") ;;
      emit (Log DEBUG) ;;;
      keys <- lift (let? cc := getitem_str (headers m) "CC" in py_iter cc) ;;
      found <- lift (Release_any_match keys) ;;
      if negb found
      then raise (ValueError "Routing keys do not match. Skipping message." None)
      else ret tt
  | None => ret tt
  end ;;;
  has_worker <- lift (py_contains body (PStr "workerId")) ;;
  if negb has_worker then ret body
  else
    task_id <- lift (let? status := getitem_str body "status" in
                     getitem_str status "taskId") ;;
    let url := buildUrl W "task" [task_id] in
    resp <- requests_get url None ;;
    try_finally
      (raise_for_status resp ;;;
       j <- response_json resp ;;
       manifest <- lift (let? extra := py_get j "extra" (PDict []) in
                         py_get extra "build_props" PNone) ;;
       branch <- lift (getitem_str manifest "branch") ;;
       manifest <- lift (py_setitem manifest "tree"
                           (PStr ("release-" ++ py_format branch))) ;;
       manifest <- lift (py_setitem manifest "product" (PStr "firefox")) ;;
       ret (Release_fake_buildid body manifest))
      (emit Close).

(** ** The dispatcher *)

(** A queue class: the two methods the subclasses override. *)
Record QueueClass : Type := {
  preprocess_message : PulseQueue -> pyval -> option message -> M pyval;
  on_message : PulseQueue -> pyval -> M unit
}.

(** The base class leaves both unimplemented. *)
Definition PulseQueue_base : QueueClass :=
  {| preprocess_message := fun _ _ _ => raise NotImplementedError;
     on_message := fun _ _ => raise NotImplementedError |}.

Definition NormalizedBuildQueue : QueueClass :=
  {| preprocess_message := NormalizedBuildQueue_preprocess_message;
     on_message := NormalizedBuildQueue_on_message |}.

Definition FunsizeTaskCompletedQueue : QueueClass :=
  {| preprocess_message := FunsizeTaskCompletedQueue_preprocess_message;
     on_message := FunsizeTaskCompletedQueue_on_message |}.

Definition ReleaseTaskCompletedQueue : QueueClass :=
  {| preprocess_message := ReleaseTaskCompletedQueue_preprocess_message;
     on_message := ReleaseTaskCompletedQueue_on_message |}.

(** The two stages, as the [try] block runs them. *)
Definition stages (cls : QueueClass) (self : PulseQueue)
    (body : pyval) (msg : option message) : M unit :=
  emit (Log DEBUG) ;;;
  preprocessed_body <- preprocess_message cls self body msg ;;
  on_message cls self preprocessed_body.

Definition process_message (cls : QueueClass) (self : PulseQueue)
    (body : pyval) (msg : option message) : M unit :=
  try_finally
    (try_except (stages cls self body msg) (log_handlers DEBUG))
    (match msg with
     | Some _ => emit Ack
     | None => ret tt
     end).

End Queues.

(** ** Concrete inputs *)

Module Sample.

Definition tree_policy (locales : list string) : pyval :=
  PDict [ ("products", PList [PStr "firefox"]);
          ("platforms", PList [PStr "linux64"; PStr "win32"]);
          ("locales", PList (map PStr locales));
          ("blacklist", PDict [("locales", PList [PStr "ja-JP-mac"])]);
          ("tags", PList []) ].

(** A policy document with two trees. *)
Definition config : pyval :=
  PDict [ ("trees",
           PDict [ ("mozilla-central", tree_policy ["en-US"; "de"]);
                   ("release-mozilla-beta", tree_policy ["en-US"]) ]) ].

(** The policy document without any tree. *)
Definition empty_config : pyval := PDict [("trees", PDict [])].

Definition node : string := "59f372c35b2416ac84d6572d64c49227481a8a6c".

(** A world in which the revision lookup of [59f372c35b24] on
    mozilla-central answers, and every other request is not found. *)
Definition world : World :=
  {| http_get := fun url _ =>
       if String.eqb url "https://hg.mozilla.org/mozilla-central/json-rev/59f372c35b24"
       then inr {| status_code := 200;
                   body_json := Some (PDict [("node", PStr node)]) |}
       else inr {| status_code := 404; body_json := None |};
     buildUrl := fun method _ => "https://queue.taskcluster.net/v1/" ++ method;
     cc_key_search_funsize := fun _ => None;
     cc_key_search_release := fun _ => false;
     scheduled_buildid := fun _ => None;
     format_other := fun _ => "" |}.

(** A world in which every request is answered with the status [code] and
    a JSON body that holds [node]. *)
Definition answering (code : Z) : World :=
  {| http_get := fun _ _ =>
       inr {| status_code := code;
              body_json := Some (PDict [("node", PStr node)]) |};
     buildUrl := fun method _ => "https://queue.taskcluster.net/v1/" ++ method;
     cc_key_search_funsize := fun _ => None;
     cc_key_search_release := fun _ => false;
     scheduled_buildid := fun _ => None;
     format_other := fun _ => "" |}.

Definition quiet : list kwargs -> kwargs -> option raised := fun _ _ => None.

Definition failing (e : raised) : list kwargs -> kwargs -> option raised :=
  fun _ _ => Some e.

Definition queue (cb : list kwargs -> kwargs -> option raised) : PulseQueue :=
  PulseQueue_init cb config.

(** A Build-Completed payload for [locale]. *)
Definition build_payload (locale : string) : pyval :=
  PDict [ ("tree", PStr "mozilla-central");
          ("product", PStr "Firefox");
          ("platform", PStr "linux64");
          ("tags", PList []);
          ("locale", PStr locale);
          ("buildid", PStr "20150101030205");
          ("buildurl", PStr "http://ftp.mozilla.org/firefox.tar.bz2");
          ("revision", PStr "59f372c35b24");
          ("status", PInt 0);
          ("test_packages_url", PStr "http://ftp.mozilla.org/test_packages.json");
          ("version", PStr "37.0a1") ].

(** One update of an Update-Available manifest. *)
Definition update_payload : pyval :=
  PDict [ ("branch", PStr "mozilla-central");
          ("appName", PStr "Firefox");
          ("platform", PStr "win32");
          ("locale", PStr "de");
          ("from_buildid", PStr "20150101030205");
          ("to_buildid", PStr "20150102030205");
          ("repo", PStr "http://hg.mozilla.org/mozilla-central");
          ("revision", PStr node);
          ("version", PStr "37.0a1");
          ("update_number", PInt 1) ].

(** A Release-Artifact-Completed payload, without its locale fields. *)
Definition release_fields : dict :=
  [ ("tree", PStr "release-mozilla-beta");
    ("branch", PStr "mozilla-beta");
    ("product", PStr "firefox");
    ("platform", PStr "win32");
    ("buildid", PStr "201501010302");
    ("revision", PStr node);
    ("version", PStr "37.0b1") ].

Definition release_payload (locales : list string) : pyval :=
  PDict (release_fields ++ [("locales", PList (map PStr locales))])%list.

End Sample.

(** ** Vocabulary of the properties *)

(** The entry of a tree as the policy document describes it: the five
    lists, the tags hashable. *)
Definition wf_entry (entry : pyval) : bool :=
  match entry with
  | PDict e =>
      match dict_get "products" e, dict_get "platforms" e, dict_get "locales" e,
            dict_get "blacklist" e, dict_get "tags" e with
      | Some (PList _), Some (PList _), Some (PList _), Some (PDict b), Some (PList tags) =>
          match dict_get "locales" b with
          | Some (PList _) => forallb hashable tags
          | _ => false
          end
      | _, _, _, _, _ => false
      end
  | _ => false
  end.

(** What a statement may add to the trace: callback invocations with
    keyword arguments in [Q], and never an acknowledgement. *)
Definition event_ok (Q : kwargs -> Prop) (ev : event) : Prop :=
  match ev with
  | Callback kw => Q kw
  | Ack => False
  | _ => True
  end.

(** [sat Q X m]: from every trace, [m] extends the trace by events allowed
    by [Q], and what it raises is in [X]. *)
Definition sat {A : Type} (Q : kwargs -> Prop) (X : raised -> Prop) (m : M A) : Prop :=
  forall tr, exists new,
    fst (m tr) = (tr ++ new)%list /\
    Forall (event_ok Q) new /\
    forall e, snd (m tr) = inl e -> X e.

(** [clean m]: when [m] raises, it has not invoked the callback. *)
Definition clean {A : Type} (m : M A) : Prop :=
  forall tr e, snd (m tr) = inl e -> calls (fst (m tr)) = calls tr.

Definition no_callback : kwargs -> Prop := fun _ => False.
Definition any_callback : kwargs -> Prop := fun _ => True.
Definition any_exception : raised -> Prop := fun e => is_Exception e = true.
Definition no_raise : raised -> Prop := fun _ => False.

(** The callback contract of the interface: the callback returns. *)
Definition callback_returns (self : PulseQueue) : Prop :=
  forall history kw, callback self history kw = None.

(** A callback that raises exceptions only. *)
Definition callback_raises_exceptions (self : PulseQueue) : Prop :=
  forall history kw e, callback self history kw = Some e -> is_Exception e = true.

Definition raw_json (kw : kwargs) : option pyval := dict_get "raw_json" kw.

(** What the [raw_json] of a record is, for each family, in terms of the
    preprocessed payload [data] its [_on_message] was given. *)
Definition Build_raw_json (data : pyval) (kw : kwargs) : Prop :=
  exists d branch repo,
    data = PDict d /\
    raw_json kw = Some (PDict (dict_set "repo" repo (dict_set "branch" branch d))).

Definition Funsize_raw_json (data : pyval) (kw : kwargs) : Prop :=
  exists update,
    raw_json kw = Some update /\
    match data with
    | PDict _ => update = data
    | _ => exists l, py_iter data = inr l /\ In update l
    end.

Definition Release_raw_json (data : pyval) (kw : kwargs) : Prop :=
  exists d,
    data = PDict d /\
    match dict_get "locale" d with
    | Some l => dict_get "locale" kw = Some l /\ raw_json kw = Some (PDict d)
    | None =>
        exists l,
          dict_get "locale" kw = Some l /\
          raw_json kw = Some (PDict (dict_set "locale" l (dict_del "locales" d)))
    end.

(** What is raised is an exception, or the callback raised it. *)
Definition blamed (self : PulseQueue) (e : raised) : Prop :=
  is_Exception e = true \/ exists history kw, callback self history kw = Some e.

(** The three message families. *)
Definition families (W : World) : list QueueClass :=
  [NormalizedBuildQueue W; FunsizeTaskCompletedQueue W; ReleaseTaskCompletedQueue W].

(** Whether the loops hand a record for [locale] to the callback: the
    locale check returns true (it may also return false, or raise). *)
Definition locale_accepted (self : PulseQueue) (tree locale : pyval) : bool :=
  match is_valid_locale self tree locale with
  | inr true => true
  | _ => false
  end.

(** [at_most_one_call m]: [m] invokes the callback once or not at all. *)
Definition at_most_one_call {A : Type} (m : M A) : Prop :=
  forall tr, exists kws,
    calls (fst (m tr)) = (calls tr ++ kws)%list /\ length kws <= 1.

(** The responses closed and the requests sent in a trace. *)
Fixpoint closes (tr : trace) : nat :=
  match tr with
  | [] => O
  | Close :: r => S (closes r)
  | _ :: r => closes r
  end.

Fixpoint requests (tr : trace) : list (string * option Z) :=
  match tr with
  | [] => []
  | Request url timeout :: r => (url, timeout) :: requests r
  | _ :: r => requests r
  end.

Definition is_log (ev : event) : Prop :=
  match ev with
  | Log _ => True
  | _ => False
  end.

(** The checks of [NormalizedBuildQueue._on_message] on the payload [data],
    all passed. *)
Definition Build_accepted (self : PulseQueue) (data : pyval) : Prop :=
  exists tree product platform tags locale,
    getitem_str data "tree" = inr tree /\
    is_valid_tree self tree = inr true /\
    (let? p := getitem_str data "product" in py_lower p) = inr product /\
    is_valid_product self tree product = inr true /\
    getitem_str data "platform" = inr platform /\
    is_valid_platform self tree platform = inr true /\
    getitem_str data "tags" = inr tags /\
    has_valid_tags self tree tags = inr true /\
    getitem_str data "locale" = inr locale /\
    is_valid_locale self tree locale = inr true.

(** The checks of [FunsizeTaskCompletedQueue._on_message] on one update,
    all passed. *)
Definition Funsize_accepted (self : PulseQueue) (update : pyval) : Prop :=
  exists tree product platform locale,
    getitem_str update "branch" = inr tree /\
    is_valid_tree self tree = inr true /\
    (let? p := getitem_str update "appName" in py_lower p) = inr product /\
    is_valid_product self tree product = inr true /\
    getitem_str update "platform" = inr platform /\
    is_valid_platform self tree platform = inr true /\
    getitem_str update "locale" = inr locale /\
    is_valid_locale self tree locale = inr true.

(** The checks of [ReleaseTaskCompletedQueue._on_message] on the payload
    and on the locale of one record, all passed. *)
Definition Release_accepted (self : PulseQueue) (data locale : pyval) : Prop :=
  exists tree product platform,
    getitem_str data "tree" = inr tree /\
    is_valid_tree self tree = inr true /\
    (let? p := getitem_str data "product" in py_lower p) = inr product /\
    is_valid_product self tree product = inr true /\
    getitem_str data "platform" = inr platform /\
    is_valid_platform self tree platform = inr true /\
    is_valid_locale self tree locale = inr true.

(** Whether a carbon-copy routing key makes the update pre-filter give the
    message up: it matches the pattern, and the tree it names is not valid,
    or the tree is and the platform it names is not. A check that raises
    does not count. *)
Definition cc_key_rejected (W : World) (self : PulseQueue) (routing_key : pyval) : bool :=
  match routing_key with
  | PStr key =>
      match cc_key_search_funsize W key with
      | Some (tree, platform) =>
          match is_valid_tree self (PStr tree) with
          | inr false => true
          | inr true =>
              match is_valid_platform self (PStr tree) (PStr platform) with
              | inr false => true
              | _ => false
              end
          | inl _ => false
          end
      | None => false
      end
  | _ => false
  end.

(** [emits_only P m]: from every trace, [m] extends the trace by events in
    [P]. *)
Definition emits_only {A : Type} (P : event -> Prop) (m : M A) : Prop :=
  forall tr, exists new, fst (m tr) = (tr ++ new)%list /\ Forall P new.

(** [not_value_error r]: what the expression [r] raises, if it raises, is
    not a [ValueError]. *)
Definition not_value_error {A : Type} (r : res A) : Prop :=
  forall e, r = inl e -> is_ValueError (Exception e) = false.

(** The checks of [ReleaseTaskCompletedQueue._on_message] on the payload
    alone, all passed. *)
Definition Release_payload_accepted (self : PulseQueue) (data : pyval) : Prop :=
  exists tree product platform,
    getitem_str data "tree" = inr tree /\
    is_valid_tree self tree = inr true /\
    (let? p := getitem_str data "product" in py_lower p) = inr product /\
    is_valid_product self tree product = inr true /\
    getitem_str data "platform" = inr platform /\
    is_valid_platform self tree platform = inr true.

(** Whether every invocation of the callback in [new] that raised an
    exception is followed at once by an entry of the log. [history] holds
    the records handed to the callback before [new]. *)
Fixpoint failures_logged (self : PulseQueue) (history : list kwargs) (new : trace) : bool :=
  match new with
  | [] => true
  | Callback kw :: rest =>
      match callback self history kw, rest with
      | Some (Exception _), Log _ :: _ => failures_logged self (history ++ [kw])%list rest
      | Some (Exception _), _ => false
      | _, _ => failures_logged self (history ++ [kw])%list rest
      end
  | _ :: rest => failures_logged self history rest
  end.

(** [settled self m]: whether [m] returns or raises, every exception the
    callback raised while it ran has been logged. *)
Definition settled {A : Type} (self : PulseQueue) (m : M A) : Prop :=
  forall tr, exists new,
    fst (m tr) = (tr ++ new)%list /\
    failures_logged self (calls tr) new = true.

(** [settled_but_last self m]: as [settled], except that [m] may be left by
    an exception the callback has just raised: the invocation is then the
    last event of [m], and the exception is what [m] raises. *)
Definition settled_but_last {A : Type} (self : PulseQueue) (m : M A) : Prop :=
  forall tr, exists new,
    fst (m tr) = (tr ++ new)%list /\
    (failures_logged self (calls tr) new = true \/
     exists pre kw e,
       new = (pre ++ [Callback kw])%list /\
       failures_logged self (calls tr) pre = true /\
       callback self (calls (tr ++ pre)%list) kw = Some (Exception e) /\
       snd (m tr) = inl (Exception e)).

(** * Properties *)

(** ** Dictionaries and equality of values *)

Lemma py_eqb_PStr (v : pyval) (s : string) :
  py_eqb v (PStr s) = true <-> v = PStr s.
Proof.
  destruct v; simpl; split; intro H; try discriminate.
  - apply String.eqb_eq in H. now subst.
  - injection H as ->. apply String.eqb_refl.
Qed.

Lemma dict_has_keys (k : string) (d : dict) :
  dict_has k d = existsb (String.eqb k) (dict_keys d).
Proof.
  unfold dict_has.
  induction d as [|[k' v] r IH]; simpl; [reflexivity|].
  destruct (String.eqb k k'); simpl; [reflexivity | exact IH].
Qed.

Lemma existsb_keys (tree : pyval) (d : dict) :
  existsb (py_eqb tree) (map PStr (dict_keys d)) =
  match tree with
  | PStr t => dict_has t d
  | _ => false
  end.
Proof.
  induction d as [|[k v] r IH]; simpl.
  - unfold dict_has. now destruct tree.
  - rewrite IH. destruct tree; simpl; try reflexivity.
    unfold dict_has. simpl. now destruct (String.eqb s k).
Qed.

Lemma dict_get_set_same (k : string) (v : pyval) (d : dict) :
  dict_get k (dict_set k v d) = Some v.
Proof.
  induction d as [|[k' v'] r IH]; simpl.
  - now rewrite String.eqb_refl.
  - destruct (String.eqb k k') eqn:E; simpl; rewrite E; [reflexivity | exact IH].
Qed.

Lemma dict_get_set_other (k k' : string) (v : pyval) (d : dict) :
  k <> k' -> dict_get k (dict_set k' v d) = dict_get k d.
Proof.
  intro Hne. induction d as [|[k0 v0] r IH]; simpl.
  - apply String.eqb_neq in Hne. now rewrite Hne.
  - destruct (String.eqb k' k0) eqn:E; simpl.
    + apply String.eqb_eq in E. subst k0.
      apply String.eqb_neq in Hne. now rewrite Hne.
    + now rewrite IH.
Qed.

Lemma dict_get_del_same (k : string) (d : dict) :
  dict_get k (dict_del k d) = None.
Proof.
  induction d as [|[k' v'] r IH]; simpl; [reflexivity|].
  destruct (String.eqb k k') eqn:E; simpl; [exact IH | now rewrite E].
Qed.

Lemma dict_get_del_other (k k' : string) (d : dict) :
  k <> k' -> dict_get k (dict_del k' d) = dict_get k d.
Proof.
  intro Hne. induction d as [|[k0 v0] r IH]; simpl; [reflexivity|].
  destruct (String.eqb k' k0) eqn:E; simpl.
  - apply String.eqb_eq in E. subst k0.
    apply String.eqb_neq in Hne. now rewrite Hne.
  - now rewrite IH.
Qed.

Lemma dict_del_absent (k : string) (d : dict) :
  dict_get k d = None -> dict_del k d = d.
Proof.
  induction d as [|[k' v'] r IH]; simpl; [reflexivity|].
  destruct (String.eqb k k'); [discriminate|].
  intro H. now rewrite IH.
Qed.

Lemma dict_set_set (k : string) (v v' : pyval) (d : dict) :
  dict_set k v' (dict_set k v d) = dict_set k v' d.
Proof.
  induction d as [|[k0 v0] r IH]; simpl.
  - now rewrite String.eqb_refl.
  - destruct (String.eqb k k0) eqn:E; simpl; rewrite E; [reflexivity | now rewrite IH].
Qed.

(** ** The policy checks *)

Section PolicyStore.

Variable self : PulseQueue.
Variables cfg mapping : dict.
Hypothesis Hcfg : pulse_config self = PDict cfg.
Hypothesis Htrees : dict_get "trees" cfg = Some (PDict mapping).

Lemma tree_entry_absent (t field : string) :
  dict_get t mapping = None ->
  tree_entry self (PStr t) field = inl (KeyError (PStr t)).
Proof.
  intro Habs. unfold tree_entry, getitem_str. rewrite Hcfg. simpl.
  rewrite Htrees. simpl. now rewrite Habs.
Qed.

Lemma tree_entry_present (t field : string) (e : dict) :
  dict_get t mapping = Some (PDict e) ->
  tree_entry self (PStr t) field =
  match dict_get field e with
  | Some v => inr v
  | None => inl (KeyError (PStr field))
  end.
Proof.
  intro Hin. unfold tree_entry, getitem_str. rewrite Hcfg. simpl.
  rewrite Htrees. simpl. now rewrite Hin.
Qed.

Lemma is_valid_tree_value (tree : pyval) :
  is_valid_tree self tree =
  inr (match mapping with
       | [] => true
       | _ :: _ => match tree with PStr t => dict_has t mapping | _ => false end
       end).
Proof.
  unfold is_valid_tree, getitem_str. rewrite Hcfg. simpl. rewrite Htrees. simpl.
  destruct mapping as [|[k v] r] eqn:E; [reflexivity|].
  cbn [dict_keys map py_truthy negb fst py_contains].
  change (PStr k :: map PStr (map fst r)) with (map PStr (dict_keys ((k, v) :: r))).
  now rewrite existsb_keys.
Qed.

End PolicyStore.

Lemma wf_entry_inv (entry : pyval) :
  wf_entry entry = true ->
  exists e products platforms locales b blocked tags,
    entry = PDict e /\
    dict_get "products" e = Some (PList products) /\
    dict_get "platforms" e = Some (PList platforms) /\
    dict_get "locales" e = Some (PList locales) /\
    dict_get "blacklist" e = Some (PDict b) /\
    dict_get "locales" b = Some (PList blocked) /\
    dict_get "tags" e = Some (PList tags) /\
    forallb hashable tags = true.
Proof.
  destruct entry as [| | | | |e]; simpl; try discriminate.
  destruct (dict_get "products" e) as [[| | | |products|]|] eqn:H1; try discriminate.
  destruct (dict_get "platforms" e) as [[| | | |platforms|]|] eqn:H2; try discriminate.
  destruct (dict_get "locales" e) as [[| | | |locales|]|] eqn:H3; try discriminate.
  destruct (dict_get "blacklist" e) as [[| | | | |b]|] eqn:H4; try discriminate.
  destruct (dict_get "tags" e) as [[| | | |tags|]|] eqn:H5; try discriminate.
  destruct (dict_get "locales" b) as [[| | | |blocked|]|] eqn:H6; try discriminate.
  intro H. exists e, products, platforms, locales, b, blocked, tags.
  repeat split; auto.
Qed.

(** C8. With a policy document whose tree mapping is empty, [is_valid_tree]
    accepts every tree; with a non-empty mapping it accepts exactly the
    trees that are keys of the mapping. In both cases it returns a boolean
    and does not raise. *)
Theorem is_valid_tree_wildcard (self : PulseQueue) (cfg mapping : dict) (tree : pyval) :
  pulse_config self = PDict cfg ->
  dict_get "trees" cfg = Some (PDict mapping) ->
  (mapping = [] -> is_valid_tree self tree = inr true) /\
  (mapping <> [] ->
   is_valid_tree self tree =
   inr (match tree with PStr t => dict_has t mapping | _ => false end)).
Proof.
  intros Hcfg Htrees.
  rewrite (is_valid_tree_value self cfg mapping Hcfg Htrees).
  split; intro H.
  - now rewrite H.
  - destruct mapping; [contradiction | reflexivity].
Qed.

Lemma is_valid_tree_wildcard_witness :
  is_valid_tree (PulseQueue_init Sample.quiet Sample.empty_config)
                (PStr "mozilla-aurora") = inr true /\
  is_valid_tree (Sample.queue Sample.quiet) (PStr "mozilla-aurora") = inr false /\
  is_valid_tree (Sample.queue Sample.quiet) (PStr "mozilla-central") = inr true.
Proof.
  split; [|split].
  - apply (is_valid_tree_wildcard
             (PulseQueue_init Sample.quiet Sample.empty_config)
             [("trees", PDict [])] [] (PStr "mozilla-aurora"));
      reflexivity.
  - apply (is_valid_tree_wildcard (Sample.queue Sample.quiet)
             [("trees", PDict [("mozilla-central", Sample.tree_policy ["en-US"; "de"]);
                               ("release-mozilla-beta", Sample.tree_policy ["en-US"])])]
             _ (PStr "mozilla-aurora") eq_refl eq_refl).
    discriminate.
  - apply (is_valid_tree_wildcard (Sample.queue Sample.quiet)
             [("trees", PDict [("mozilla-central", Sample.tree_policy ["en-US"; "de"]);
                               ("release-mozilla-beta", Sample.tree_policy ["en-US"])])]
             _ (PStr "mozilla-central") eq_refl eq_refl).
    discriminate.
Defined.

(** C1, as the code has it. For a policy document with a tree mapping:
    [is_valid_tree] does not raise and keeps the wildcard; for a tree that
    is not a key of the mapping each of [is_valid_product],
    [is_valid_platform], [is_valid_locale] and [has_valid_tags] raises
    [KeyError] for that tree, it does not return false; for a tree whose
    entry is well formed the product, platform and locale checks return a
    boolean for every argument, and the tag check does for every list of
    hashable tags. *)
Theorem policy_checks_on_trees (self : PulseQueue) (cfg mapping : dict)
    (t : string) (x : pyval) :
  pulse_config self = PDict cfg ->
  dict_get "trees" cfg = Some (PDict mapping) ->
  is_valid_tree self (PStr t) =
    inr (match mapping with [] => true | _ => dict_has t mapping end) /\
  (dict_get t mapping = None ->
   is_valid_product self (PStr t) x = inl (KeyError (PStr t)) /\
   is_valid_platform self (PStr t) x = inl (KeyError (PStr t)) /\
   is_valid_locale self (PStr t) x = inl (KeyError (PStr t)) /\
   has_valid_tags self (PStr t) x = inl (KeyError (PStr t))) /\
  (forall entry, dict_get t mapping = Some entry -> wf_entry entry = true ->
   (exists b, is_valid_product self (PStr t) x = inr b) /\
   (exists b, is_valid_platform self (PStr t) x = inr b) /\
   (exists b, is_valid_locale self (PStr t) x = inr b) /\
   (forall tags, x = PList tags -> forallb hashable tags = true ->
    exists b, has_valid_tags self (PStr t) x = inr b)).
Proof.
  intros Hcfg Htrees. split; [|split].
  - rewrite (is_valid_tree_value self cfg mapping Hcfg Htrees).
    now destruct mapping.
  - intro Habs.
    unfold is_valid_product, is_valid_platform, is_valid_locale, has_valid_tags.
    rewrite !(tree_entry_absent self cfg mapping Hcfg Htrees t _ Habs).
    repeat split; reflexivity.
  - intros entry Hin Hwf.
    destruct (wf_entry_inv entry Hwf)
      as (e & products & platforms & locales & b & blocked & tags
          & -> & Hp & Hpl & Hl & Hb & Hbl & Ht & Hh).
    unfold is_valid_product, is_valid_platform, is_valid_locale, has_valid_tags.
    rewrite !(tree_entry_present self cfg mapping Hcfg Htrees t _ e Hin).
    rewrite Hp, Hpl, Hl, Hb, Ht. simpl.
    unfold getitem_str. simpl. rewrite Hbl. simpl.
    repeat split.
    + destruct products; simpl; eauto.
    + destruct platforms; simpl; eauto.
    + destruct (existsb (py_eqb x) blocked); simpl; [eauto|].
      destruct locales; simpl; eauto.
    + intros given -> Hgiven. unfold py_set. simpl. rewrite Hh, Hgiven.
      destruct tags; simpl; eauto.
Qed.

Lemma policy_checks_on_trees_witness :
  is_valid_product (Sample.queue Sample.quiet) (PStr "mozilla-aurora") (PStr "firefox")
    = inl (KeyError (PStr "mozilla-aurora")) /\
  exists b, is_valid_product (Sample.queue Sample.quiet) (PStr "mozilla-central")
              (PStr "firefox") = inr b.
Proof.
  split.
  - apply (policy_checks_on_trees (Sample.queue Sample.quiet)
             [("trees", PDict [("mozilla-central", Sample.tree_policy ["en-US"; "de"]);
                               ("release-mozilla-beta", Sample.tree_policy ["en-US"])])]
             _ "mozilla-aurora" (PStr "firefox") eq_refl eq_refl).
    reflexivity.
  - destruct (policy_checks_on_trees (Sample.queue Sample.quiet)
             [("trees", PDict [("mozilla-central", Sample.tree_policy ["en-US"; "de"]);
                               ("release-mozilla-beta", Sample.tree_policy ["en-US"])])]
             _ "mozilla-central" (PStr "firefox") eq_refl eq_refl)
      as (_ & _ & Hpresent).
    apply (Hpresent (Sample.tree_policy ["en-US"; "de"]) eq_refl eq_refl).
Defined.

(** C1, as stated, fails: with the sample policy the tree [mozilla-aurora]
    is not a key of the tree mapping, and each of the four checks raises
    [KeyError] for it where the claim has it return false. *)
Lemma policy_checks_unknown_tree_raise :
  dict_get "mozilla-aurora"
    [("mozilla-central", Sample.tree_policy ["en-US"; "de"]);
     ("release-mozilla-beta", Sample.tree_policy ["en-US"])] = None /\
  is_valid_product (Sample.queue Sample.quiet) (PStr "mozilla-aurora") (PStr "firefox")
    = inl (KeyError (PStr "mozilla-aurora")) /\
  is_valid_platform (Sample.queue Sample.quiet) (PStr "mozilla-aurora") (PStr "linux64")
    = inl (KeyError (PStr "mozilla-aurora")) /\
  is_valid_locale (Sample.queue Sample.quiet) (PStr "mozilla-aurora") (PStr "en-US")
    = inl (KeyError (PStr "mozilla-aurora")) /\
  has_valid_tags (Sample.queue Sample.quiet) (PStr "mozilla-aurora") (PList [])
    = inl (KeyError (PStr "mozilla-aurora")).
Proof. repeat split. Qed.

(** ** The revision resolver *)

Lemma hg_repo_path_branch (W : World) (branch : string) :
  hg_repo_path W (PStr branch) =
  if String.eqb branch "mozilla-central" then branch else "releases/" ++ branch.
Proof.
  unfold hg_repo_path. simpl. now destruct (String.eqb branch "mozilla-central").
Qed.

(** The outcome of the resolver does not depend on the trace it starts
    from: it is a function of the answer to its one request. *)
Lemma get_long_revision_run (W : World) (repo revision : pyval) (tr : trace) :
  get_long_revision W repo revision tr =
  ((tr ++ [Request (json_rev_url W repo revision) (Some 60%Z)])%list,
   snd (get_long_revision W repo revision [])).
Proof.
  unfold get_long_revision, requests_get, bind, emit. simpl.
  destruct (http_get W (json_rev_url W repo revision) (Some 60%Z)) as [name|r];
    simpl; [reflexivity|].
  unfold raise_for_status.
  destruct (Z.leb 400 (status_code r) && Z.ltb (status_code r) 600)%bool;
    simpl; [reflexivity|].
  unfold response_json. destruct (body_json r); simpl; reflexivity.
Qed.

(** C9, as the code has it. [get_long_revision branch short_revision] sends
    one request, to [https://hg.mozilla.org/<path>/json-rev/<short_revision>]
    with a timeout of 60 seconds, where [<path>] is the branch itself for
    [mozilla-central] and [releases/<branch>] for every other branch. The
    resolver has no handler: it raises when the request fails, when the
    answer has a client or server error status (400 to 599), when its body is
    not JSON, and when the JSON object has no [node]. With any other status,
    successful or not, the status is not looked at and the [node] field of
    the answer is returned. *)
Theorem get_long_revision_spec (W : World) (branch revision : string) (tr : trace) :
  let path := if String.eqb branch "mozilla-central"
              then branch else "releases/" ++ branch in
  let url := "https://hg.mozilla.org/" ++ path ++ "/json-rev/" ++ revision in
  let run := get_long_revision W (PStr branch) (PStr revision) tr in
  fst run = (tr ++ [Request url (Some 60%Z)])%list /\
  (forall name, http_get W url (Some 60%Z) = inl name ->
     snd run = inl (Exception (RequestException name))) /\
  (forall r, http_get W url (Some 60%Z) = inr r ->
     ((400 <= status_code r < 600)%Z ->
        snd run = inl (Exception (HTTPError (status_code r)))) /\
     (~ (400 <= status_code r < 600)%Z -> body_json r = None ->
        snd run = inl (Exception (ValueError "No JSON object could be decoded" None))) /\
     (~ (400 <= status_code r < 600)%Z ->
        forall j node, body_json r = Some (PDict j) -> dict_get "node" j = Some node ->
        snd run = inr node) /\
     (~ (400 <= status_code r < 600)%Z ->
        forall j, body_json r = Some (PDict j) -> dict_get "node" j = None ->
        snd run = inl (Exception (KeyError (PStr "node"))))).
Proof.
  intros path url run.
  assert (Hurl : json_rev_url W (PStr branch) (PStr revision) = url).
  { unfold json_rev_url. rewrite hg_repo_path_branch. reflexivity. }
  subst run. rewrite get_long_revision_run, Hurl. simpl.
  split; [reflexivity|].
  unfold get_long_revision, requests_get, bind, emit. simpl. rewrite Hurl.
  split.
  - intros name ->. reflexivity.
  - intros r ->. simpl. unfold raise_for_status.
    destruct (Z.leb 400 (status_code r) && Z.ltb (status_code r) 600)%bool eqn:E.
    + repeat split; try reflexivity; intro Hn; exfalso; apply Hn;
        apply andb_prop in E; destruct E as [E1 E2];
        apply Z.leb_le in E1; apply Z.ltb_lt in E2; lia.
    + assert (Hno : ~ (400 <= status_code r < 600)%Z).
      { intros [H1 H2]. apply Z.leb_le in H1. apply Z.ltb_lt in H2.
        rewrite H1, H2 in E. discriminate. }
      repeat split.
      * intro H. contradiction.
      * intros _ Hbody. simpl. unfold response_json. now rewrite Hbody.
      * intros _ j node Hbody Hnode. simpl. unfold response_json.
        rewrite Hbody. simpl. unfold getitem_str. simpl. now rewrite Hnode.
      * intros _ j Hbody Hnode. simpl. unfold response_json.
        rewrite Hbody. simpl. unfold getitem_str. simpl. now rewrite Hnode.
Qed.

Lemma get_long_revision_spec_witness :
  http_get Sample.world
    "https://hg.mozilla.org/mozilla-central/json-rev/59f372c35b24" (Some 60%Z)
    = inr {| status_code := 200;
             body_json := Some (PDict [("node", PStr Sample.node)]) |} /\
  snd (get_long_revision Sample.world (PStr "mozilla-central") (PStr "59f372c35b24") [])
    = inr (PStr Sample.node) /\
  snd (get_long_revision Sample.world (PStr "mozilla-beta") (PStr "59f372c35b24") [])
    = inl (Exception (HTTPError 404)).
Proof.
  split; [reflexivity|]. split.
  - destruct (get_long_revision_spec Sample.world "mozilla-central" "59f372c35b24" [])
      as (_ & _ & H).
    destruct (H _ eq_refl) as (_ & _ & Hok & _).
    apply (Hok ltac:(simpl; lia) [("node", PStr Sample.node)]); reflexivity.
  - destruct (get_long_revision_spec Sample.world "mozilla-beta" "59f372c35b24" [])
      as (_ & _ & H).
    destruct (H _ eq_refl) as (Herr & _).
    apply Herr. simpl. lia.
Defined.

(** C9, as stated, fails: an answer with the status 304, or 600, is not a
    success, and the resolver returns the [node] of its body without
    raising. *)
Lemma get_long_revision_other_statuses :
  snd (get_long_revision (Sample.answering 304) (PStr "mozilla-central")
         (PStr "59f372c35b24") []) = inr (PStr Sample.node) /\
  snd (get_long_revision (Sample.answering 600) (PStr "mozilla-beta")
         (PStr "59f372c35b24") []) = inr (PStr Sample.node) /\
  snd (get_long_revision (Sample.answering 404) (PStr "mozilla-beta")
         (PStr "59f372c35b24") []) = inl (Exception (HTTPError 404)).
Proof. vm_compute. repeat split. Qed.

(** ** Rules for [sat] and [clean] *)

Local Open Scope list_scope.

Lemma calls_app (a b : trace) : calls (a ++ b) = (calls a ++ calls b)%list.
Proof.
  induction a as [|ev a IH]; simpl; [reflexivity|].
  destruct ev; simpl; now rewrite IH.
Qed.

Lemma acks_app (a b : trace) : acks (a ++ b) = acks a + acks b.
Proof.
  induction a as [|ev a IH]; simpl; [reflexivity|].
  destruct ev; simpl; now rewrite IH.
Qed.

Lemma acks_event_ok (Q : kwargs -> Prop) (new : trace) :
  Forall (event_ok Q) new -> acks new = 0.
Proof.
  induction 1 as [|ev new Hev _ IH]; simpl; [reflexivity|].
  destruct ev; simpl in *; auto; contradiction.
Qed.

Lemma calls_event_ok (Q : kwargs -> Prop) (new : trace) :
  Forall (event_ok Q) new -> Forall Q (calls new).
Proof.
  induction 1 as [|ev new Hev _ IH]; simpl; [constructor|].
  destruct ev; simpl in *; auto.
Qed.

Lemma calls_no_callback (new : trace) :
  Forall (event_ok no_callback) new -> calls new = [].
Proof.
  intro H. apply calls_event_ok in H. destruct (calls new); [reflexivity|].
  inversion H; contradiction.
Qed.

Section Rules.

Context {A : Type}.
Variable Q : kwargs -> Prop.
Variable X : raised -> Prop.

Lemma sat_ret (a : A) : sat Q X (ret a).
Proof.
  intro tr. exists []. simpl. rewrite app_nil_r.
  repeat split; [constructor | discriminate].
Qed.

Lemma sat_raise (e : exn) : X (Exception e) -> sat Q X (@raise A e).
Proof.
  intros He tr. exists []. simpl. rewrite app_nil_r.
  repeat split; [constructor|]. now intros e' [= <-].
Qed.

Lemma sat_lift (r : res A) : (forall e, X (Exception e)) -> sat Q X (lift r).
Proof.
  intros HX tr. exists []. simpl. rewrite app_nil_r.
  repeat split; [constructor|]. destruct r; [|discriminate]. now intros e' [= <-].
Qed.

Lemma sat_weaken (Q' : kwargs -> Prop) (X' : raised -> Prop) (m : M A) :
  (forall kw, Q' kw -> Q kw) -> (forall e, X' e -> X e) ->
  sat Q' X' m -> sat Q X m.
Proof.
  intros HQ HX Hm tr. destruct (Hm tr) as (new & Hfst & Hev & Hr).
  exists new. repeat split; auto.
  eapply Forall_impl; [|exact Hev]. intros [] ?; simpl in *; auto.
Qed.

(** A [try] block whose exceptions are handled or passed on. *)
Lemma sat_try_except (X' : raised -> Prop) (m : M A) (h : raised -> option (M A)) :
  sat Q X' m ->
  (forall e k, X' e -> h e = Some k -> sat Q X k) ->
  (forall e, X' e -> h e = None -> X e) ->
  sat Q X (try_except m h).
Proof.
  intros Hm Hh Hpass tr. unfold try_except.
  destruct (Hm tr) as (new & Hfst & Hev & Hr).
  destruct (m tr) as [tr' [e|a]]; simpl in *; subst tr'.
  - specialize (Hr e eq_refl).
    destruct (h e) as [k|] eqn:Ek.
    + destruct (Hh e k Hr Ek (tr ++ new)%list) as (new' & Hfst' & Hev' & Hr').
      exists (new ++ new')%list. rewrite Hfst', app_assoc.
      repeat split; auto. apply Forall_app; auto.
    + exists new. simpl. repeat split; auto. intros e' [= <-]. auto.
  - exists new. simpl. repeat split; auto. discriminate.
Qed.

Lemma sat_try_finally (m : M A) (f : M unit) :
  sat Q X m -> sat Q X f -> sat Q X (try_finally m f).
Proof.
  intros Hm Hf tr. unfold try_finally.
  destruct (Hm tr) as (new & Hfst & Hev & Hr).
  destruct (m tr) as [tr' r]; simpl in *; subst tr'.
  destruct (Hf (tr ++ new)%list) as (new' & Hfst' & Hev' & Hr').
  destruct (f (tr ++ new)%list) as [tr'' [e|u]]; simpl in *; subst tr'';
    exists (new ++ new')%list; rewrite app_assoc;
    (repeat split; [apply Forall_app; auto|]); auto.
  intros e' [= <-]. auto.
Qed.

End Rules.

Lemma sat_emit (Q : kwargs -> Prop) (X : raised -> Prop) (ev : event) :
  event_ok Q ev -> sat Q X (emit ev).
Proof.
  intros Hev tr. exists [ev]. simpl. repeat split; [auto | discriminate].
Qed.

(** Sequencing; the continuation may use that its argument is a value of
    the first statement. *)
Lemma sat_bind {A B : Type} (Q : kwargs -> Prop) (X : raised -> Prop)
    (m : M A) (k : A -> M B) :
  sat Q X m ->
  (forall a, (exists tr, snd (m tr) = inr a) -> sat Q X (k a)) ->
  sat Q X (bind m k).
Proof.
  intros Hm Hk tr. unfold bind.
  destruct (Hm tr) as (new & Hfst & Hev & Hr).
  destruct (m tr) as [tr' [e|a]] eqn:Em; simpl in *; subst tr'.
  - exists new. simpl. repeat split; auto.
    intros e0 [= <-]. now apply Hr.
  - assert (Ha : exists tr0, snd (m tr0) = inr a) by (exists tr; now rewrite Em).
    destruct (Hk a Ha (tr ++ new)%list) as (new' & Hfst' & Hev' & Hr').
    exists (new ++ new')%list. rewrite app_assoc.
    repeat split; auto. apply Forall_app; auto.
Qed.

Lemma sat_for_each {A : Type} (Q : kwargs -> Prop) (X : raised -> Prop)
    (l : list A) (body : A -> M unit) :
  (forall x, In x l -> sat Q X (body x)) -> sat Q X (for_each l body).
Proof.
  induction l as [|x l IH]; intro Hbody; simpl.
  - apply sat_ret.
  - apply sat_bind.
    + apply Hbody. now left.
    + intros _ _. apply IH. intros y Hy. apply Hbody. now right.
Qed.

Lemma sat_check (Q : kwargs -> Prop) (X : raised -> Prop)
    (ok : res bool) (msg : string) (arg : pyval) :
  (forall e, X (Exception e)) -> sat Q X (check ok msg arg).
Proof.
  intro HX. unfold check. apply sat_bind; [now apply sat_lift|].
  intros [] _; [apply sat_ret | now apply sat_raise].
Qed.

Lemma sat_call_callback (Q : kwargs -> Prop) (X : raised -> Prop)
    (self : PulseQueue) (kw : kwargs) :
  Q kw -> (forall history e, callback self history kw = Some e -> X e) ->
  sat Q X (call_callback self kw).
Proof.
  intros HQ Hcb tr. exists [Callback kw]. unfold call_callback.
  destruct (callback self (calls tr) kw) as [e|] eqn:E; simpl;
    repeat split; auto; try discriminate.
  intros e' [= <-]. eauto.
Qed.

(** The two handlers of the source catch every exception. *)
Lemma sat_log_handlers (Q : kwargs -> Prop) (X : raised -> Prop) (l : level)
    (e : raised) (k : M unit) :
  log_handlers l e = Some k -> sat Q X k.
Proof.
  unfold log_handlers.
  destruct (is_ValueError e); [|destruct (is_Exception e)];
    intros [= <-]; now apply sat_emit.
Qed.

Lemma log_handlers_pass (l : level) (e : raised) :
  log_handlers l e = None -> is_Exception e = false.
Proof.
  unfold log_handlers.
  destruct (is_ValueError e); [discriminate|].
  destruct (is_Exception e); [discriminate | reflexivity].
Qed.

(** What [lift] and [check] return. *)
Lemma lift_value {A : Type} (r : res A) (a : A) :
  (exists tr, snd (lift r tr) = inr a) -> r = inr a.
Proof.
  intros [tr H]. unfold lift in H. simpl in H.
  destruct r; [discriminate | now injection H as ->].
Qed.

Lemma clean_of_silent {A : Type} (X : raised -> Prop) (m : M A) :
  sat no_callback X m -> clean m.
Proof.
  intros Hm tr e _. destruct (Hm tr) as (new & -> & Hev & _).
  rewrite calls_app, (calls_no_callback new Hev). apply app_nil_r.
Qed.

Lemma clean_of_no_raise {A : Type} (Q : kwargs -> Prop) (m : M A) :
  sat Q no_raise m -> clean m.
Proof.
  intros Hm tr e He. destruct (Hm tr) as (_ & _ & _ & Hr).
  destruct (Hr e He).
Qed.

Lemma clean_bind {A B : Type} (X : raised -> Prop) (m : M A) (k : A -> M B) :
  sat no_callback X m ->
  (forall a, (exists tr, snd (m tr) = inr a) -> clean (k a)) ->
  clean (bind m k).
Proof.
  intros Hm Hk tr e. unfold bind.
  destruct (Hm tr) as (new & Hfst & Hev & _).
  destruct (m tr) as [tr' [e'|a]] eqn:Em; simpl in *; subst tr'.
  - intros _. rewrite calls_app, (calls_no_callback new Hev). apply app_nil_r.
  - intro He. rewrite (Hk a) by (try (exists tr; now rewrite Em); exact He).
    rewrite calls_app, (calls_no_callback new Hev). apply app_nil_r.
Qed.

(** ** What the statements of the source emit and raise *)

Ltac lift_values :=
  repeat match goal with
         | H : exists tr, snd (lift ?r tr) = inr ?a |- _ => apply lift_value in H
         | H : exists tr, snd (_ tr) = inr _ |- _ => clear H
         end.

Ltac sat_step :=
  lazymatch goal with
  | |- sat _ _ (ret _) => apply sat_ret
  | |- sat _ _ (raise _) => apply sat_raise; auto
  | |- sat _ _ (lift _) => apply sat_lift; auto
  | |- sat _ _ (check _ _ _) => apply sat_check; auto
  | |- sat _ _ (emit _) => apply sat_emit; exact I
  | |- sat _ _ (bind _ _) => apply sat_bind; [|intros ? ?]
  | |- sat _ _ (try_finally _ _) => apply sat_try_finally
  | |- sat _ _ (for_each _ _) => apply sat_for_each; intros ? ?
  | |- sat _ _ (if ?b then _ else _) => destruct b
  | |- sat _ _ (match ?x with _ => _ end) => destruct x
  end.

Section Statements.

Variable W : World.
Variable self : PulseQueue.
Variable X : raised -> Prop.
Hypothesis HX : forall e, X (Exception e).
Hypothesis Hcb : forall history kw e, callback self history kw = Some e -> X e.

Lemma requests_get_sat (Q : kwargs -> Prop) (url : string) (timeout : option Z) :
  sat Q X (requests_get W url timeout).
Proof. unfold requests_get. repeat sat_step. Qed.

Lemma raise_for_status_sat (Q : kwargs -> Prop) (r : response) :
  sat Q X (raise_for_status r).
Proof. unfold raise_for_status. repeat sat_step. Qed.

Lemma response_json_sat (Q : kwargs -> Prop) (r : response) :
  sat Q X (response_json r).
Proof. unfold response_json. repeat sat_step. Qed.

Lemma get_long_revision_sat (Q : kwargs -> Prop) (repo revision : pyval) :
  sat Q X (get_long_revision W repo revision).
Proof.
  unfold get_long_revision.
  apply sat_bind; [apply requests_get_sat | intros ? _].
  apply sat_bind; [apply raise_for_status_sat | intros ? _].
  apply sat_bind; [apply response_json_sat | intros ? _].
  sat_step.
Qed.

Lemma NormalizedBuildQueue_on_message_sat (data : pyval) :
  sat (Build_raw_json data) X (NormalizedBuildQueue_on_message W self data).
Proof.
  unfold NormalizedBuildQueue_on_message.
  repeat (lazymatch goal with
          | |- sat _ _ (bind (get_long_revision _ _ _) _) =>
              apply sat_bind; [apply get_long_revision_sat | intros ? ?]
          | |- sat _ _ (call_callback _ _) => idtac
          | _ => sat_step
          end).
  lift_values.
  apply sat_call_callback; [|eauto].
  destruct data; try discriminate.
  match goal with
  | H1 : py_setitem (PDict _) "branch" _ = inr ?d1,
    H2 : py_setitem ?d1 "repo" _ = inr _ |- _ =>
      simpl in H1; injection H1 as <-; simpl in H2; injection H2 as <-
  end.
  unfold Build_raw_json, raw_json. simpl. eauto.
Qed.

Lemma NormalizedBuildQueue_preprocess_message_sat (body : pyval) (msg : option message) :
  sat no_callback X (NormalizedBuildQueue_preprocess_message self body msg).
Proof. unfold NormalizedBuildQueue_preprocess_message. sat_step. Qed.

Lemma Funsize_try_update_sat (update : pyval) :
  sat (fun kw => raw_json kw = Some update) X (Funsize_try_update self update).
Proof.
  unfold Funsize_try_update.
  repeat (lazymatch goal with
          | |- sat _ _ (call_callback _ _) => idtac
          | _ => sat_step
          end).
  apply sat_call_callback; [reflexivity | eauto].
Qed.

Lemma Funsize_handle_update_sat (update : pyval) :
  sat (fun kw => raw_json kw = Some update) X (Funsize_handle_update self update).
Proof.
  unfold Funsize_handle_update.
  apply sat_try_except with (X' := X); auto.
  - apply Funsize_try_update_sat.
  - intros e k _. apply sat_log_handlers.
Qed.

Lemma FunsizeTaskCompletedQueue_on_message_sat (data : pyval) :
  sat (Funsize_raw_json data) X (FunsizeTaskCompletedQueue_on_message self data).
Proof.
  unfold FunsizeTaskCompletedQueue_on_message.
  apply sat_bind; [now apply sat_lift | intros updates Hiter].
  apply lift_value in Hiter.
  apply sat_for_each. intros update Hin.
  eapply sat_weaken; [| |apply Funsize_handle_update_sat]; auto.
  intros kw Hkw. exists update. split; [exact Hkw|].
  destruct data; try (exists updates; now split).
  simpl in Hiter. injection Hiter as <-. destruct Hin as [<-|[]]. reflexivity.
Qed.

Lemma Funsize_check_routing_key_sat (routing_key : pyval) :
  sat no_callback X (Funsize_check_routing_key W self routing_key).
Proof.
  unfold Funsize_check_routing_key.
  apply sat_try_except with (X' := X); auto.
  - destruct routing_key; try (now apply sat_raise).
    destruct (cc_key_search_funsize W s) as [[tree platform]|]; repeat sat_step.
  - intros e k _. destruct (is_ValueError e); [discriminate|].
    intros [= <-]. now apply sat_emit.
Qed.

Lemma FunsizeTaskCompletedQueue_preprocess_message_sat (body : pyval) (msg : option message) :
  sat no_callback X (FunsizeTaskCompletedQueue_preprocess_message W self body msg).
Proof.
  unfold FunsizeTaskCompletedQueue_preprocess_message.
  apply sat_bind.
  - destruct msg; [|apply sat_ret].
    apply sat_bind; [now apply sat_lift | intros keys _].
    apply sat_for_each. intros key _. apply Funsize_check_routing_key_sat.
  - intros _ _.
    repeat (lazymatch goal with
            | |- sat _ _ (bind (requests_get _ _ _) _) =>
                apply sat_bind; [apply requests_get_sat | intros ? ?]
            | |- sat _ _ (bind (raise_for_status _) _) =>
                apply sat_bind; [apply raise_for_status_sat | intros ? ?]
            | |- sat _ _ (bind (response_json _) _) =>
                apply sat_bind; [apply response_json_sat | intros ? ?]
            | _ => sat_step
            end).
Qed.

Lemma Release_try_locale_sat (tree data locale : pyval) :
  sat (fun kw => dict_get "locale" kw = Some locale /\ raw_json kw = Some data) X
      (Release_try_locale self tree data locale).
Proof.
  unfold Release_try_locale.
  repeat (lazymatch goal with
          | |- sat _ _ (call_callback _ _) => idtac
          | _ => sat_step
          end).
  apply sat_call_callback; [now split | eauto].
Qed.

Lemma Release_handle_locale_sat (tree data locale : pyval) :
  sat (fun kw => dict_get "locale" kw = Some locale /\ raw_json kw = Some data) X
      (Release_handle_locale self tree data locale).
Proof.
  unfold Release_handle_locale.
  apply sat_try_except with (X' := X); auto.
  - apply Release_try_locale_sat.
  - intros e k _. apply sat_log_handlers.
Qed.

Lemma Release_locales_loop_sat (tree : pyval) (d : dict) (locales : list pyval) (data : pyval) :
  (data = PDict d \/ exists l, data = PDict (dict_set "locale" l d)) ->
  sat (fun kw => exists l, dict_get "locale" kw = Some l /\
                           raw_json kw = Some (PDict (dict_set "locale" l d))) X
      (Release_locales_loop self tree data locales).
Proof.
  revert data. induction locales as [|locale rest IH]; intros data Hdata; simpl.
  - apply sat_ret.
  - apply sat_bind; [now apply sat_lift | intros data' Hset].
    apply lift_value in Hset.
    assert (Hdata' : data' = PDict (dict_set "locale" locale d)).
    { destruct Hdata as [->|[l ->]]; simpl in Hset; injection Hset as <-;
        [reflexivity | now rewrite dict_set_set]. }
    apply sat_bind.
    + eapply sat_weaken; [| |apply Release_handle_locale_sat]; auto.
      intros kw [Hl Hraw]. exists locale. now rewrite Hdata' in Hraw.
    + intros _ _. apply IH. right. now exists locale.
Qed.

Lemma ReleaseTaskCompletedQueue_on_message_sat (data : pyval) :
  sat (Release_raw_json data) X (ReleaseTaskCompletedQueue_on_message self data).
Proof.
  unfold ReleaseTaskCompletedQueue_on_message.
  repeat (lazymatch goal with
          | |- sat _ _ (bind (lift (py_contains _ _)) _) => idtac
          | _ => sat_step
          end).
  apply sat_bind; [now apply sat_lift | intros has_locale Hhas].
  lift_values.
  destruct data as [| | | | |d]; try discriminate.
  simpl in Hhas. injection Hhas as <-. unfold dict_has.
  destruct (dict_get "locale" d) as [l|] eqn:Hl.
  - apply sat_bind; [now apply sat_lift | intros locale Hloc].
    apply lift_value in Hloc. unfold getitem_str in Hloc. simpl in Hloc.
    rewrite Hl in Hloc. injection Hloc as <-.
    eapply sat_weaken; [| |apply Release_handle_locale_sat]; auto.
    intros kw Hkw. exists d. split; [reflexivity|]. now rewrite Hl.
  - apply sat_bind; [now apply sat_lift | intros popped Hpop].
    apply lift_value in Hpop. simpl in Hpop. injection Hpop as <-.
    apply sat_bind; [now apply sat_lift | intros locales _].
    apply sat_bind; [|intros; apply sat_ret].
    eapply sat_weaken;
      [| |apply (Release_locales_loop_sat _ (dict_del "locales" d))]; auto.
    intros kw Hkw. exists d. split; [reflexivity|]. now rewrite Hl.
Qed.

Lemma ReleaseTaskCompletedQueue_preprocess_message_sat (body : pyval) (msg : option message) :
  sat no_callback X (ReleaseTaskCompletedQueue_preprocess_message W self body msg).
Proof.
  unfold ReleaseTaskCompletedQueue_preprocess_message.
  apply sat_bind.
  - destruct msg; repeat sat_step.
  - intros _ _.
    repeat (lazymatch goal with
            | |- sat _ _ (bind (requests_get _ _ _) _) =>
                apply sat_bind; [apply requests_get_sat | intros ? ?]
            | |- sat _ _ (bind (raise_for_status _) _) =>
                apply sat_bind; [apply raise_for_status_sat | intros ? ?]
            | |- sat _ _ (bind (response_json _) _) =>
                apply sat_bind; [apply response_json_sat | intros ? ?]
            | _ => sat_step
            end).
Qed.

(** The two stages of each family invoke the callback and never
    acknowledge; what they raise is an exception or was raised by the
    callback. *)
Lemma stages_sat (cls : QueueClass) (body : pyval) (msg : option message) :
  In cls (families W) -> sat any_callback X (stages cls self body msg).
Proof.
  intro Hcls. unfold stages.
  apply sat_bind; [now apply sat_emit | intros _ _].
  destruct Hcls as [<-|[<-|[<-|[]]]]; simpl.
  - apply sat_bind.
    + eapply sat_weaken; [| |apply NormalizedBuildQueue_preprocess_message_sat];
        auto; contradiction.
    + intros data _.
      eapply sat_weaken; [| |apply NormalizedBuildQueue_on_message_sat]; auto.
      now intros.
  - apply sat_bind.
    + eapply sat_weaken; [| |apply FunsizeTaskCompletedQueue_preprocess_message_sat];
        auto; contradiction.
    + intros data _.
      eapply sat_weaken; [| |apply FunsizeTaskCompletedQueue_on_message_sat]; auto.
      now intros.
  - apply sat_bind.
    + eapply sat_weaken; [| |apply ReleaseTaskCompletedQueue_preprocess_message_sat];
        auto; contradiction.
    + intros data _.
      eapply sat_weaken; [| |apply ReleaseTaskCompletedQueue_on_message_sat]; auto.
      now intros.
Qed.

End Statements.

(** ** The handlers and the dispatcher *)

(** A [try] block under the two handlers of the source: an exception is
    logged and dropped, anything else passes. *)
Lemma try_except_log_handlers (m : M unit) (l : level) (tr : trace) :
  try_except m (log_handlers l) tr =
  match snd (m tr) with
  | inl (Exception e) =>
      (fst (m tr) ++ [Log (if is_ValueError (Exception e) then l else EXCEPTION)],
       inr tt)
  | inl (NonException name) => (fst (m tr), inl (NonException name))
  | inr a => (fst (m tr), inr a)
  end.
Proof.
  unfold try_except, log_handlers.
  destruct (m tr) as [tr' [[e|name]|a]]; simpl; try reflexivity.
  destruct e; reflexivity.
Qed.

Lemma process_message_run (cls : QueueClass) (self : PulseQueue)
    (body : pyval) (msg : option message) (tr : trace) :
  let handled := try_except (stages cls self body msg) (log_handlers DEBUG) tr in
  process_message cls self body msg tr =
  (fst handled ++ match msg with Some _ => [Ack] | None => [] end, snd handled).
Proof.
  unfold process_message, try_finally. simpl.
  destruct (try_except (stages cls self body msg) (log_handlers DEBUG) tr) as [tr' r].
  destruct msg; simpl; [reflexivity | now rewrite app_nil_r].
Qed.

(** [process_message] by the outcome of the two stages: an exception is
    logged and dropped, anything else passes, and the acknowledgement of a
    transport message comes last. *)
Lemma process_message_cases (cls : QueueClass) (self : PulseQueue)
    (body : pyval) (msg : option message) (tr : trace) :
  let staged := stages cls self body msg tr in
  let ack := match msg with Some _ => [Ack] | None => [] end in
  process_message cls self body msg tr =
  match snd staged with
  | inl (Exception e) =>
      (fst staged ++ Log (if is_ValueError (Exception e) then DEBUG else EXCEPTION) :: ack,
       inr tt)
  | inl (NonException name) => (fst staged ++ ack, inl (NonException name))
  | inr _ => (fst staged ++ ack, inr tt)
  end.
Proof.
  intros staged ack. rewrite process_message_run. simpl.
  rewrite try_except_log_handlers. fold staged.
  destruct (snd staged) as [[e|name]|[]]; simpl; try reflexivity.
  now rewrite <- app_assoc.
Qed.

Section Handlers.

Variable W : World.
Variable self : PulseQueue.

Lemma blamed_exception (e : exn) : blamed self (Exception e).
Proof. now left. Qed.

Lemma blamed_callback (history : list kwargs) (kw : kwargs) (e : raised) :
  callback self history kw = Some e -> blamed self e.
Proof. right. eauto. Qed.

Lemma process_message_passes (cls : QueueClass) (body : pyval)
    (msg : option message) (tr : trace) (e : raised) :
  In cls (families W) ->
  snd (process_message cls self body msg tr) = inl e ->
  is_Exception e = false /\ exists history kw, callback self history kw = Some e.
Proof.
  intros Hcls. rewrite process_message_run. simpl.
  rewrite try_except_log_handlers.
  destruct (stages_sat W self (blamed self) blamed_exception blamed_callback
              cls body msg Hcls tr) as (new & _ & _ & Hr).
  destruct (snd (stages cls self body msg tr)) as [[e'|name]|a]; simpl;
    try discriminate.
  intros [= <-]. split; [reflexivity|].
  destruct (Hr _ eq_refl) as [Habs|Hcall]; [discriminate | exact Hcall].
Qed.

Lemma process_message_acks (cls : QueueClass) (body : pyval)
    (m : message) (tr : trace) :
  In cls (families W) ->
  acks (fst (process_message cls self body (Some m) tr)) = acks tr + 1.
Proof.
  intros Hcls. rewrite process_message_run. simpl.
  rewrite try_except_log_handlers.
  destruct (stages_sat W self (fun _ => True) (fun _ => I) (fun _ _ _ _ => I)
              cls body (Some m) Hcls tr) as (new & Hfst & Hev & _).
  assert (Hnew : acks (fst (stages cls self body (Some m) tr)) = acks tr).
  { rewrite Hfst, acks_app, (acks_event_ok _ _ Hev). apply Nat.add_0_r. }
  destruct (snd (stages cls self body (Some m) tr)) as [[e'|name]|a]; simpl;
    rewrite !acks_app, Hnew; simpl; lia.
Qed.

Hypothesis Hexc : callback_raises_exceptions self.

Lemma Funsize_handle_update_returns (update : pyval) (tr : trace) :
  snd (Funsize_handle_update self update tr) = inr tt.
Proof.
  unfold Funsize_handle_update. rewrite try_except_log_handlers.
  destruct (Funsize_try_update_sat self any_exception (fun _ => eq_refl) Hexc update tr)
    as (_ & _ & _ & Hr).
  destruct (snd (Funsize_try_update self update tr)) as [[e|name]|[]]; try reflexivity.
  discriminate (Hr _ eq_refl).
Qed.

Lemma Release_handle_locale_returns (tree data locale : pyval) (tr : trace) :
  snd (Release_handle_locale self tree data locale tr) = inr tt.
Proof.
  unfold Release_handle_locale. rewrite try_except_log_handlers.
  destruct (Release_try_locale_sat self any_exception (fun _ => eq_refl) Hexc
              tree data locale tr) as (_ & _ & _ & Hr).
  destruct (snd (Release_try_locale self tree data locale tr)) as [[e|name]|[]];
    try reflexivity.
  discriminate (Hr _ eq_refl).
Qed.

Lemma process_message_returns (cls : QueueClass) (body : pyval)
    (msg : option message) (tr : trace) :
  In cls (families W) ->
  snd (process_message cls self body msg tr) = inr tt.
Proof.
  intro Hcls.
  destruct (snd (process_message cls self body msg tr)) as [e|[]] eqn:E;
    [|reflexivity].
  destruct (process_message_passes cls body msg tr e Hcls E) as (Hne & h & kw & Hcall).
  apply Hexc in Hcall. congruence.
Qed.

End Handlers.

(** ** Under the callback contract *)

Ltac silent_step :=
  lazymatch goal with
  | |- sat _ _ (get_long_revision _ _ _) => apply get_long_revision_sat; auto
  | |- sat _ _ (lift _) => apply sat_lift; auto
  | |- sat _ _ (check _ _ _) => apply sat_check; auto
  | |- sat _ _ (emit _) => apply sat_emit; exact I
  end.

Ltac clean_prefix :=
  repeat (lazymatch goal with
          | |- clean (bind (lift (py_contains _ _)) _) => fail
          | |- clean (bind (lift (py_iter _)) _) => fail
          | |- clean (bind _ _) =>
              apply clean_bind with (X := fun _ => True); [silent_step | intros ? ?]
          end).

Section Contract.

Variable W : World.
Variable self : PulseQueue.
Hypothesis Hret : callback_returns self.

Lemma callback_returns_exceptions : callback_raises_exceptions self.
Proof. intros history kw e H. rewrite Hret in H. discriminate. Qed.

Lemma call_callback_clean (kw : kwargs) : clean (call_callback self kw).
Proof.
  apply clean_of_no_raise with (Q := any_callback).
  apply sat_call_callback; [exact I|].
  intros history e H. rewrite Hret in H. discriminate.
Qed.

Lemma Funsize_handle_update_no_raise (update : pyval) :
  sat any_callback no_raise (Funsize_handle_update self update).
Proof.
  intro tr.
  destruct (Funsize_handle_update_sat self (fun _ => True) (fun _ => I)
              (fun _ _ _ _ => I) update tr) as (new & Hfst & Hev & _).
  exists new. repeat split; auto.
  - eapply Forall_impl; [|exact Hev]. intros [] ?; simpl in *; auto. exact I.
  - intros e He.
    rewrite (Funsize_handle_update_returns self callback_returns_exceptions) in He.
    discriminate.
Qed.

Lemma Release_handle_locale_no_raise (tree data locale : pyval) :
  sat any_callback no_raise (Release_handle_locale self tree data locale).
Proof.
  intro tr.
  destruct (Release_handle_locale_sat self (fun _ => True) (fun _ => I)
              (fun _ _ _ _ => I) tree data locale tr) as (new & Hfst & Hev & _).
  exists new. repeat split; auto.
  - eapply Forall_impl; [|exact Hev]. intros [] ?; simpl in *; auto. exact I.
  - intros e He.
    rewrite (Release_handle_locale_returns self callback_returns_exceptions) in He.
    discriminate.
Qed.

Lemma Release_locales_loop_no_raise (tree : pyval) (locales : list pyval) (d : dict) :
  sat any_callback no_raise (Release_locales_loop self tree (PDict d) locales).
Proof.
  revert d. induction locales as [|locale rest IH]; intro d; simpl.
  - apply sat_ret.
  - apply sat_bind; [apply (sat_ret any_callback no_raise) | intros data Hdata].
    destruct Hdata as [tr Hdata]. simpl in Hdata. injection Hdata as <-.
    apply sat_bind; [apply Release_handle_locale_no_raise | intros _ _].
    apply IH.
Qed.

Lemma NormalizedBuildQueue_on_message_clean (data : pyval) :
  clean (NormalizedBuildQueue_on_message W self data).
Proof.
  unfold NormalizedBuildQueue_on_message. clean_prefix. apply call_callback_clean.
Qed.

Lemma FunsizeTaskCompletedQueue_on_message_clean (data : pyval) :
  clean (FunsizeTaskCompletedQueue_on_message self data).
Proof.
  unfold FunsizeTaskCompletedQueue_on_message.
  apply clean_bind with (X := fun _ => True); [silent_step | intros updates _].
  apply clean_of_no_raise with (Q := any_callback).
  apply sat_for_each. intros update _. apply Funsize_handle_update_no_raise.
Qed.

Lemma ReleaseTaskCompletedQueue_on_message_clean (data : pyval) :
  clean (ReleaseTaskCompletedQueue_on_message self data).
Proof.
  unfold ReleaseTaskCompletedQueue_on_message. clean_prefix.
  apply clean_bind with (X := fun _ => True); [silent_step | intros has_locale _].
  destruct has_locale.
  - apply clean_bind with (X := fun _ => True); [silent_step | intros locale _].
    apply clean_of_no_raise with (Q := any_callback).
    apply Release_handle_locale_no_raise.
  - apply clean_bind with (X := fun _ => True); [silent_step | intros popped Hpop].
    apply lift_value in Hpop.
    apply clean_bind with (X := fun _ => True); [silent_step | intros locales _].
    apply clean_of_no_raise with (Q := any_callback).
    destruct data; try discriminate. simpl in Hpop. injection Hpop as <-. simpl.
    apply sat_bind; [apply Release_locales_loop_no_raise | intros; apply sat_ret].
Qed.

(** When a stage raises, no record has been handed to the callback. *)
Lemma stages_clean (cls : QueueClass) (body : pyval) (msg : option message) :
  In cls (families W) -> clean (stages cls self body msg).
Proof.
  intro Hcls. unfold stages.
  apply clean_bind with (X := fun _ => True); [silent_step | intros _ _].
  destruct Hcls as [<-|[<-|[<-|[]]]]; simpl.
  - apply clean_bind with (X := fun _ => True).
    + now apply NormalizedBuildQueue_preprocess_message_sat.
    + intros data _. apply NormalizedBuildQueue_on_message_clean.
  - apply clean_bind with (X := fun _ => True).
    + now apply FunsizeTaskCompletedQueue_preprocess_message_sat.
    + intros data _. apply FunsizeTaskCompletedQueue_on_message_clean.
  - apply clean_bind with (X := fun _ => True).
    + now apply ReleaseTaskCompletedQueue_preprocess_message_sat.
    + intros data _. apply ReleaseTaskCompletedQueue_on_message_clean.
Qed.

End Contract.

(** ** Exceptions of the callback and the log *)

Lemma failures_logged_app (self : PulseQueue) (a b : trace) (history : list kwargs) :
  failures_logged self history a = true ->
  failures_logged self history (a ++ b) = failures_logged self (history ++ calls a) b.
Proof.
  revert history. induction a as [|ev a IH]; intros history Ha.
  - simpl. now rewrite app_nil_r.
  - destruct ev as [l|url timeout| |kw|]; simpl in Ha |- *; try (now apply IH).
    replace (history ++ kw :: calls a) with ((history ++ [kw]) ++ calls a)
      by (now rewrite <- app_assoc).
    destruct (callback self history kw) as [[e|name]|].
    + destruct a as [|[l|url timeout| |kw'|] a']; try discriminate Ha.
      simpl app. now apply IH.
    + now apply IH.
    + now apply IH.
Qed.

Lemma failures_logged_silent (self : PulseQueue) (history : list kwargs) (new : trace) :
  Forall (event_ok no_callback) new -> failures_logged self history new = true.
Proof.
  induction 1 as [|ev new Hev _ IH]; simpl; [reflexivity|].
  destruct ev; simpl in *; auto; contradiction.
Qed.

(** A statement that does not invoke the callback. *)
Lemma settled_of_silent {A : Type} (self : PulseQueue) (X : raised -> Prop) (m : M A) :
  sat no_callback X m -> settled self m.
Proof.
  intros Hm tr. destruct (Hm tr) as (new & Hfst & Hev & _).
  exists new. split; [exact Hfst | now apply failures_logged_silent].
Qed.

Lemma settled_ret {A : Type} (self : PulseQueue) (a : A) : settled self (ret a).
Proof. apply settled_of_silent with (X := fun _ => True). apply sat_ret. Qed.

Lemma settled_bind {A B : Type} (self : PulseQueue) (m : M A) (k : A -> M B) :
  settled self m -> (forall a, settled self (k a)) -> settled self (bind m k).
Proof.
  intros Hm Hk tr. unfold bind.
  destruct (Hm tr) as (new & Hfst & Hlog).
  destruct (m tr) as [tr' [e|a]]; simpl in *; subst tr'.
  - exists new. now split.
  - destruct (Hk a (tr ++ new)) as (new' & Hfst' & Hlog').
    exists (new ++ new'). rewrite Hfst', app_assoc. split; [reflexivity|].
    rewrite failures_logged_app by exact Hlog. now rewrite <- calls_app.
Qed.

Lemma settled_for_each {A : Type} (self : PulseQueue) (l : list A) (body : A -> M unit) :
  (forall x, settled self (body x)) -> settled self (for_each l body).
Proof.
  intro Hbody. induction l as [|x l IH]; simpl.
  - apply settled_ret.
  - apply settled_bind; [apply Hbody | intros _; exact IH].
Qed.

Lemma settled_try_finally {A : Type} (self : PulseQueue) (m : M A) (f : M unit) :
  settled self m -> settled self f -> settled self (try_finally m f).
Proof.
  intros Hm Hf tr. unfold try_finally.
  destruct (Hm tr) as (new & Hfst & Hlog).
  destruct (m tr) as [tr' r]; simpl in *; subst tr'.
  destruct (Hf (tr ++ new)) as (new' & Hfst' & Hlog').
  exists (new ++ new').
  split.
  - destruct (f (tr ++ new)) as [tr'' [e|u]]; simpl in *; subst tr'';
      now rewrite app_assoc.
  - rewrite failures_logged_app by exact Hlog. now rewrite <- calls_app.
Qed.

Lemma settled_is_settled_but_last {A : Type} (self : PulseQueue) (m : M A) :
  settled self m -> settled_but_last self m.
Proof.
  intros Hm tr. destruct (Hm tr) as (new & Hfst & Hlog).
  exists new. split; [exact Hfst | now left].
Qed.

Lemma settled_but_last_bind {A B : Type} (self : PulseQueue) (m : M A) (k : A -> M B) :
  settled self m -> (forall a, settled_but_last self (k a)) ->
  settled_but_last self (bind m k).
Proof.
  intros Hm Hk tr. unfold bind.
  destruct (Hm tr) as (new & Hfst & Hlog).
  destruct (m tr) as [tr' [e|a]]; simpl in *; subst tr'.
  - exists new. split; [reflexivity | now left].
  - destruct (Hk a (tr ++ new))
      as (new' & Hfst' & [Hlog'|(pre & kw & e & Hnew & Hpre & Hcall & Hout)]).
    + exists (new ++ new'). rewrite Hfst', app_assoc. split; [reflexivity|].
      left. rewrite failures_logged_app by exact Hlog. now rewrite <- calls_app.
    + exists (new ++ new'). rewrite Hfst', app_assoc. split; [reflexivity|].
      right. exists (new ++ pre), kw, e. subst new'.
      rewrite !app_assoc. repeat split; auto.
      rewrite failures_logged_app by exact Hlog. now rewrite <- calls_app.
Qed.

(** The invocation of the callback: what it raises is not logged yet. *)
Lemma settled_but_last_callback (self : PulseQueue) (kw : kwargs) :
  settled_but_last self (call_callback self kw).
Proof.
  intro tr. exists [Callback kw]. unfold call_callback.
  destruct (callback self (calls tr) kw) as [[e|name]|] eqn:Ecall; simpl;
    (split; [reflexivity|]).
  - right. exists [], kw, e. rewrite app_nil_r. now repeat split.
  - left. now rewrite Ecall.
  - left. now rewrite Ecall.
Qed.

(** The two handlers of the source log what the callback raised, right
    after its invocation. *)
Lemma settled_log_handlers (self : PulseQueue) (m : M unit) (l : level) :
  settled_but_last self m -> settled self (try_except m (log_handlers l)).
Proof.
  intros Hm tr. rewrite try_except_log_handlers.
  destruct (Hm tr) as (new & Hfst & [Hlog|(pre & kw & e & Hnew & Hpre & Hcall & Hout)]).
  - destruct (snd (m tr)) as [[e|name]|a]; simpl.
    + exists (new ++ [Log (if is_ValueError (Exception e) then l else EXCEPTION)]).
      rewrite Hfst, app_assoc. split; [reflexivity|].
      now rewrite failures_logged_app by exact Hlog.
    + exists new. now split.
    + exists new. now split.
  - rewrite Hout. simpl.
    exists (new ++ [Log (if is_ValueError (Exception e) then l else EXCEPTION)]).
    rewrite Hfst, app_assoc. split; [reflexivity|].
    subst new. rewrite <- app_assoc. simpl.
    rewrite failures_logged_app by exact Hpre.
    rewrite calls_app in Hcall. simpl. now rewrite Hcall.
Qed.

Ltac settled_prefix :=
  repeat (apply settled_bind;
          [apply settled_of_silent with (X := fun _ => True); silent_step | intro]).

Ltac settled_but_last_prefix :=
  repeat (apply settled_but_last_bind;
          [apply settled_of_silent with (X := fun _ => True); silent_step | intro]).

Section Logged.

Variable W : World.
Variable self : PulseQueue.

(** The record of a build is handed over by the last statement of
    [_on_message], outside any handler of the normalizer. *)
Lemma NormalizedBuildQueue_on_message_settled_but_last (data : pyval) :
  settled_but_last self (NormalizedBuildQueue_on_message W self data).
Proof.
  unfold NormalizedBuildQueue_on_message. settled_but_last_prefix.
  apply settled_but_last_callback.
Qed.

Lemma Funsize_handle_update_settled (update : pyval) :
  settled self (Funsize_handle_update self update).
Proof.
  unfold Funsize_handle_update. apply settled_log_handlers.
  unfold Funsize_try_update. settled_but_last_prefix.
  apply settled_but_last_callback.
Qed.

Lemma FunsizeTaskCompletedQueue_on_message_settled (data : pyval) :
  settled self (FunsizeTaskCompletedQueue_on_message self data).
Proof.
  unfold FunsizeTaskCompletedQueue_on_message. settled_prefix.
  apply settled_for_each. apply Funsize_handle_update_settled.
Qed.

Lemma Release_handle_locale_settled (tree data locale : pyval) :
  settled self (Release_handle_locale self tree data locale).
Proof.
  unfold Release_handle_locale. apply settled_log_handlers.
  unfold Release_try_locale. settled_but_last_prefix.
  apply settled_but_last_callback.
Qed.

Lemma Release_locales_loop_settled (tree : pyval) (locales : list pyval) (data : pyval) :
  settled self (Release_locales_loop self tree data locales).
Proof.
  revert data. induction locales as [|locale rest IH]; intro data; simpl.
  - apply settled_ret.
  - settled_prefix.
    apply settled_bind; [apply Release_handle_locale_settled | intros _; apply IH].
Qed.

Lemma ReleaseTaskCompletedQueue_on_message_settled (data : pyval) :
  settled self (ReleaseTaskCompletedQueue_on_message self data).
Proof.
  unfold ReleaseTaskCompletedQueue_on_message. settled_prefix.
  match goal with |- settled _ (if ?b then _ else _) => destruct b end.
  - settled_prefix. apply Release_handle_locale_settled.
  - settled_prefix.
    apply settled_bind; [apply Release_locales_loop_settled | intros _; apply settled_ret].
Qed.

Lemma stages_settled_but_last (cls : QueueClass) (body : pyval) (msg : option message) :
  In cls (families W) -> settled_but_last self (stages cls self body msg).
Proof.
  intro Hcls. unfold stages. settled_but_last_prefix.
  destruct Hcls as [<-|[<-|[<-|[]]]]; simpl.
  - apply settled_but_last_bind.
    + apply settled_of_silent with (X := fun _ => True).
      now apply NormalizedBuildQueue_preprocess_message_sat.
    + intro data. apply NormalizedBuildQueue_on_message_settled_but_last.
  - apply settled_but_last_bind.
    + apply settled_of_silent with (X := fun _ => True).
      now apply FunsizeTaskCompletedQueue_preprocess_message_sat.
    + intro data. apply settled_is_settled_but_last.
      apply FunsizeTaskCompletedQueue_on_message_settled.
  - apply settled_but_last_bind.
    + apply settled_of_silent with (X := fun _ => True).
      now apply ReleaseTaskCompletedQueue_preprocess_message_sat.
    + intro data. apply settled_is_settled_but_last.
      apply ReleaseTaskCompletedQueue_on_message_settled.
Qed.

Lemma process_message_settled (cls : QueueClass) (body : pyval) (msg : option message) :
  In cls (families W) -> settled self (process_message cls self body msg).
Proof.
  intro Hcls. unfold process_message. apply settled_try_finally.
  - apply settled_log_handlers. now apply stages_settled_but_last.
  - destruct msg; [|apply settled_ret].
    intro tr. exists [Ack]. now split.
Qed.

End Logged.

(** What leaves [process_message] was raised by the callback and is not an
    exception; the acknowledgement has been made. *)
Lemma process_message_leaves (W : World) (cls : QueueClass) (self : PulseQueue)
    (body : pyval) (msg : option message) (tr : trace) (e : raised) :
  In cls (families W) ->
  snd (process_message cls self body msg tr) = inl e ->
  fst (process_message cls self body msg tr) =
  fst (stages cls self body msg tr) ++ match msg with Some _ => [Ack] | None => [] end.
Proof.
  intros Hcls. rewrite process_message_cases.
  destruct (snd (stages cls self body msg tr)) as [[e'|name]|a]; simpl;
    try discriminate.
  reflexivity.
Qed.

(** The loops go on with the next element once the handlers of an element
    are through. *)
Lemma for_each_next {A : Type} (x : A) (l : list A) (body : A -> M unit) (tr : trace) :
  snd (body x tr) = inr tt ->
  for_each (x :: l) body tr = for_each l body (fst (body x tr)).
Proof.
  intro H. simpl. unfold bind. destruct (body x tr) as [tr' r]. simpl in *. now subst r.
Qed.

Lemma Release_locales_loop_next (self : PulseQueue) (tree : pyval) (d : dict)
    (locale : pyval) (rest : list pyval) (tr : trace) :
  let data := PDict (dict_set "locale" locale d) in
  snd (Release_handle_locale self tree data locale tr) = inr tt ->
  Release_locales_loop self tree (PDict d) (locale :: rest) tr =
  Release_locales_loop self tree data rest
    (fst (Release_handle_locale self tree data locale tr)).
Proof.
  intros data H. simpl. unfold bind, lift. simpl. fold data.
  destruct (Release_handle_locale self tree data locale tr) as [tr' r].
  simpl in *. now subst r.
Qed.

(** ** Acknowledgement and what reaches the bus client *)

(** C2, as the code has it. For a delivered message with a transport
    message object, in each of the three families, [process_message]
    acknowledges exactly once, as its last action, whatever the two stages
    do; the stages themselves never acknowledge. An exception raised in a
    stage is caught and logged, and [process_message] returns; a condition
    that is not an exception, which only the callback can raise, is raised to
    the caller after the acknowledgement. So with a callback that raises
    exceptions only nothing is raised to the caller; and when a stage raises
    with a callback that keeps its contract of returning, no record has been
    handed to the callback. *)
Theorem process_message_acknowledges_once (W : World) (cls : QueueClass)
    (self : PulseQueue) (body : pyval) (m : message) (tr : trace) :
  In cls (families W) ->
  let staged := stages cls self body (Some m) tr in
  let out := process_message cls self body (Some m) tr in
  acks (fst out) = acks tr + 1 /\
  acks (fst staged) = acks tr /\
  out = match snd staged with
        | inl (Exception e) =>
            (fst staged
               ++ [Log (if is_ValueError (Exception e) then DEBUG else EXCEPTION); Ack],
             inr tt)
        | inl (NonException name) => (fst staged ++ [Ack], inl (NonException name))
        | inr _ => (fst staged ++ [Ack], inr tt)
        end /\
  (forall name, snd staged = inl (NonException name) ->
     exists history kw, callback self history kw = Some (NonException name)) /\
  (callback_raises_exceptions self -> snd out = inr tt) /\
  (callback_returns self ->
   forall e, snd staged = inl e -> calls (fst out) = calls tr).
Proof.
  intros Hcls staged out. split; [|split; [|split; [|split; [|split]]]].
  - now apply process_message_acks with (W := W).
  - destruct (stages_sat W self (fun _ => True) (fun _ => I) (fun _ _ _ _ => I)
                cls body (Some m) Hcls tr) as (new & Hfst & Hev & _).
    subst staged. rewrite Hfst, acks_app, (acks_event_ok _ _ Hev). apply Nat.add_0_r.
  - subst out. now rewrite process_message_cases.
  - intros name Hname.
    destruct (stages_sat W self (blamed self) (blamed_exception self)
                (blamed_callback self) cls body (Some m) Hcls tr) as (_ & _ & _ & Hr).
    destruct (Hr _ Hname) as [Habs|Hcall]; [discriminate | exact Hcall].
  - intro Hexc. now apply process_message_returns with (W := W).
  - intros Hret e He. subst out. rewrite process_message_run. simpl.
    rewrite try_except_log_handlers. fold staged. rewrite He.
    pose proof (stages_clean W self Hret cls body (Some m) Hcls tr e He) as Hclean.
    fold staged in Hclean.
    destruct e as [e|name]; simpl; rewrite !calls_app, Hclean; simpl;
      now rewrite !app_nil_r.
Qed.

Lemma process_message_acknowledges_once_witness :
  let out := process_message (NormalizedBuildQueue Sample.world)
               (Sample.queue Sample.quiet) (PDict [])
               (Some {| headers := PDict [] |}) [] in
  In (NormalizedBuildQueue Sample.world) (families Sample.world) /\
  callback_returns (Sample.queue Sample.quiet) /\
  snd (stages (NormalizedBuildQueue Sample.world) (Sample.queue Sample.quiet)
         (PDict []) (Some {| headers := PDict [] |}) [])
    = inl (Exception (KeyError (PStr "tree"))) /\
  acks (fst out) = 1 /\ snd out = inr tt /\ calls (fst out) = [] /\
  out = ([Log DEBUG; Log EXCEPTION; Ack], inr tt).
Proof.
  intro out.
  assert (Hcls : In (NormalizedBuildQueue Sample.world) (families Sample.world))
    by (left; reflexivity).
  assert (Hret : callback_returns (Sample.queue Sample.quiet))
    by (intros history kw; reflexivity).
  assert (Hexc : callback_raises_exceptions (Sample.queue Sample.quiet))
    by (intros history kw e H; discriminate H).
  destruct (process_message_acknowledges_once Sample.world
              (NormalizedBuildQueue Sample.world) (Sample.queue Sample.quiet)
              (PDict []) {| headers := PDict [] |} [] Hcls)
    as (Hack & _ & Hrun & _ & Hout & Hcalls).
  split; [exact Hcls|]. split; [exact Hret|]. split; [reflexivity|].
  split; [exact Hack|]. split; [exact (Hout Hexc)|].
  split; [|exact Hrun].
  apply (Hcalls Hret (Exception (KeyError (PStr "tree")))). reflexivity.
Defined.

(** C2, as stated, fails on two counts. The record of the sample
    Build-Completed payload is handed to a callback that raises
    [RuntimeError]: the second stage raises, and one record has been emitted.
    And a callback that raises [KeyboardInterrupt] on the record of the
    sample update has it raised to the caller of [process_message], after
    the one acknowledgement. *)
Lemma process_message_raised_condition :
  let m := {| headers := PDict [("CC", PList [])] |} in
  let runtime_error := Exception (OtherException "RuntimeError") in
  let interrupt := NonException "KeyboardInterrupt" in
  let build := NormalizedBuildQueue Sample.world in
  let update := FunsizeTaskCompletedQueue Sample.world in
  (snd (stages build (Sample.queue (Sample.failing runtime_error))
          (Sample.build_payload "en-US") (Some m) []) = inl runtime_error /\
   length (calls (fst (process_message build (Sample.queue (Sample.failing runtime_error))
                         (Sample.build_payload "en-US") (Some m) []))) = 1) /\
  (snd (process_message update (Sample.queue (Sample.failing interrupt))
          Sample.update_payload (Some m) []) = inl interrupt /\
   acks (fst (process_message update (Sample.queue (Sample.failing interrupt))
                Sample.update_payload (Some m) [])) = 1).
Proof. vm_compute. repeat split. Qed.

(** C4, as the code has it. In each of the three families, every exception
    the callback raises while [process_message] runs is caught and logged
    right after the invocation: in the Update-Available and
    Release-Artifact-Completed normalizers by the handlers around each update
    and each locale, so that their [_on_message] has logged it when it is
    over, and for Build-Completed, whose [_on_message] is left by the
    exception, by the handlers of [process_message], which log any exception
    of the stages and return. What [process_message] raises to its caller is
    not an exception and was raised by the callback, and the
    acknowledgement has then been made. With a callback that raises
    exceptions only, [process_message] and the handling of each update and
    of each locale return, and the loops go on with the remaining
    elements. *)
Theorem callback_exceptions_are_caught (W : World) (cls : QueueClass)
    (self : PulseQueue) (body : pyval) (msg : option message) (tr : trace) :
  In cls (families W) ->
  let staged := stages cls self body msg tr in
  let out := process_message cls self body msg tr in
  let ack := match msg with Some _ => [Ack] | None => [] end in
  settled self (process_message cls self body msg) /\
  (forall data,
     settled self (FunsizeTaskCompletedQueue_on_message self data) /\
     settled self (ReleaseTaskCompletedQueue_on_message self data) /\
     settled_but_last self (NormalizedBuildQueue_on_message W self data)) /\
  (forall e, snd staged = inl (Exception e) ->
     out = (fst staged
              ++ Log (if is_ValueError (Exception e) then DEBUG else EXCEPTION) :: ack,
            inr tt)) /\
  (forall e, snd out = inl e ->
     is_Exception e = false /\
     (exists history kw, callback self history kw = Some e) /\
     fst out = fst staged ++ ack) /\
  (callback_raises_exceptions self ->
     snd out = inr tt /\
     (forall update, snd (Funsize_handle_update self update tr) = inr tt) /\
     (forall tree data locale,
        snd (Release_handle_locale self tree data locale tr) = inr tt) /\
     (forall update rest,
        FunsizeTaskCompletedQueue_on_message self (PList (update :: rest)) tr =
        FunsizeTaskCompletedQueue_on_message self (PList rest)
          (fst (Funsize_handle_update self update tr))) /\
     (forall tree d locale rest,
        Release_locales_loop self tree (PDict d) (locale :: rest) tr =
        Release_locales_loop self tree (PDict (dict_set "locale" locale d)) rest
          (fst (Release_handle_locale self tree (PDict (dict_set "locale" locale d))
                  locale tr)))).
Proof.
  intros Hcls staged out ack. split; [|split; [|split; [|split]]].
  - now apply process_message_settled with (W := W).
  - intro data. split; [|split].
    + apply FunsizeTaskCompletedQueue_on_message_settled.
    + apply ReleaseTaskCompletedQueue_on_message_settled.
    + apply NormalizedBuildQueue_on_message_settled_but_last.
  - intros e He. subst out. rewrite process_message_cases. fold staged.
    now rewrite He.
  - intros e He.
    destruct (process_message_passes W self cls body msg tr e Hcls He) as (Hne & Hcall).
    repeat split; auto.
    now apply process_message_leaves with (W := W) (e := e).
  - intro Hexc. split; [|split; [|split; [|split]]].
    + now apply process_message_returns with (W := W).
    + intro update. now apply Funsize_handle_update_returns.
    + intros tree data locale. now apply Release_handle_locale_returns.
    + intros update rest.
      change (for_each (update :: rest) (Funsize_handle_update self) tr =
              for_each rest (Funsize_handle_update self)
                (fst (Funsize_handle_update self update tr))).
      apply for_each_next. now apply Funsize_handle_update_returns.
    + intros tree d locale rest. apply Release_locales_loop_next.
      now apply Release_handle_locale_returns.
Qed.

Lemma callback_exceptions_are_caught_witness :
  let self := Sample.queue (Sample.failing (Exception (OtherException "RuntimeError"))) in
  In (NormalizedBuildQueue Sample.world) (families Sample.world) /\
  callback_raises_exceptions self /\
  snd (process_message (NormalizedBuildQueue Sample.world) self
         (Sample.build_payload "en-US") None []) = inr tt /\
  failures_logged self []
    (fst (process_message (NormalizedBuildQueue Sample.world) self
            (Sample.build_payload "en-US") None [])) = true.
Proof.
  intro self.
  assert (Hcls : In (NormalizedBuildQueue Sample.world) (families Sample.world))
    by (left; reflexivity).
  assert (Hexc : callback_raises_exceptions self).
  { intros history kw e H. injection H as <-. reflexivity. }
  split; [exact Hcls|]. split; [exact Hexc|].
  destruct (callback_exceptions_are_caught Sample.world
              (NormalizedBuildQueue Sample.world) self
              (Sample.build_payload "en-US") None [] Hcls) as (Hlog & _ & _ & _ & H).
  split; [apply (H Hexc)|].
  destruct (Hlog []) as (new & Hfst & Hnew). rewrite Hfst. exact Hnew.
Defined.

(** C4, as stated, fails: with a callback that raises [RuntimeError], each
    family hands its record to the callback, and nothing is raised to the
    caller of [process_message]; in the Update-Available and
    Release-Artifact-Completed families nothing is raised out of
    [_on_message] either. *)
Lemma callback_exception_does_not_propagate :
  let self := Sample.queue (Sample.failing (Exception (OtherException "RuntimeError"))) in
  let build := process_message (NormalizedBuildQueue Sample.world) self
                 (Sample.build_payload "en-US") None [] in
  let update := process_message (FunsizeTaskCompletedQueue Sample.world) self
                  Sample.update_payload None [] in
  let release := process_message (ReleaseTaskCompletedQueue Sample.world) self
                   (Sample.release_payload ["en-US"]) None [] in
  (length (calls (fst build)) = 1 /\ snd build = inr tt) /\
  (length (calls (fst update)) = 1 /\ snd update = inr tt) /\
  (length (calls (fst release)) = 1 /\ snd release = inr tt) /\
  snd (FunsizeTaskCompletedQueue_on_message self Sample.update_payload []) = inr tt /\
  snd (ReleaseTaskCompletedQueue_on_message self (Sample.release_payload ["en-US"]) [])
    = inr tt.
Proof. vm_compute. repeat split. Qed.

(** ** The raw payload of a record *)



(** ** Running the statements *)

Lemma run_lift {A B : Type} (r : res A) (a : A) (k : A -> M B) (tr : trace) :
  r = inr a -> bind (lift r) k tr = k a tr.
Proof. intros ->. reflexivity. Qed.

Lemma run_check {B : Type} (ok : res bool) (msg : string) (arg : pyval)
    (k : unit -> M B) (tr : trace) :
  ok = inr true -> bind (check ok msg arg) k tr = k tt tr.
Proof. intros ->. reflexivity. Qed.

Lemma run_check_fails {B : Type} (ok : res bool) (msg : string) (arg : pyval)
    (k : unit -> M B) (tr : trace) :
  ok <> inr true -> exists e, bind (check ok msg arg) k tr = (tr, inl (Exception e)).
Proof.
  intro H. destruct ok as [e|[]]; [|contradiction|]; unfold bind, check, lift; simpl; eauto.
Qed.

(** The value of a subscript, from what is known of the dictionary. *)
Ltac dict_lookup :=
  unfold getitem_str, py_getitem, py_get;
  repeat first [ rewrite dict_get_set_same
               | rewrite dict_get_set_other by discriminate
               | rewrite dict_get_del_other by discriminate ];
  repeat match goal with
         | H : dict_get ?k ?d = _ |- context [dict_get ?k ?d] => rewrite H
         end;
  simpl;
  repeat match goal with
         | H : py_lower ?p = _ |- context [py_lower ?p] => rewrite H
         end;
  try reflexivity.

Ltac run_step :=
  first [ erewrite run_check by eassumption
        | erewrite run_lift by dict_lookup ].

(** C10. A Release-Artifact-Completed payload that passes the tree, product
    and platform checks and has neither [locale] nor [locales]: nothing is
    handed to the callback, nothing is logged and nothing is raised. *)
Theorem release_without_locales (self : PulseQueue) (d : dict)
    (tree product lowered platform : pyval) (tr : trace) :
  dict_get "tree" d = Some tree ->
  is_valid_tree self tree = inr true ->
  dict_get "product" d = Some product ->
  py_lower product = inr lowered ->
  is_valid_product self tree lowered = inr true ->
  dict_get "platform" d = Some platform ->
  is_valid_platform self tree platform = inr true ->
  dict_get "locale" d = None ->
  dict_get "locales" d = None ->
  ReleaseTaskCompletedQueue_on_message self (PDict d) tr = (tr, inr tt).
Proof.
  intros Htree Hvt Hproduct Hlower Hvp Hplatform Hvpl Hlocale Hlocales.
  unfold ReleaseTaskCompletedQueue_on_message.
  repeat run_step.
  unfold dict_has. rewrite Hlocale.
  erewrite run_lift by (simpl; rewrite Hlocales; reflexivity).
  reflexivity.
Qed.

Lemma release_without_locales_witness :
  ReleaseTaskCompletedQueue_on_message (Sample.queue Sample.quiet)
    (PDict Sample.release_fields) [] = ([], inr tt).
Proof.
  apply (release_without_locales (Sample.queue Sample.quiet) Sample.release_fields
           (PStr "release-mozilla-beta") (PStr "firefox") (PStr "firefox")
           (PStr "win32") []); reflexivity.
Defined.

(** ** The locales of a release *)

Section ReleaseLocales.

Variable self : PulseQueue.
Variable tree : pyval.
Variables branch buildid platform product revision version : pyval.

Lemma Release_handle_locale_calls (data : dict) (locale : pyval) (tr : trace) :
  dict_get "branch" data = Some branch ->
  dict_get "buildid" data = Some buildid ->
  dict_get "platform" data = Some platform ->
  dict_get "product" data = Some product ->
  dict_get "revision" data = Some revision ->
  dict_get "version" data = Some version ->
  calls (fst (Release_handle_locale self tree (PDict data) locale tr)) =
  calls tr ++ (if locale_accepted self tree locale
               then [Release_build_properties branch buildid locale platform
                       product revision tree version (PDict data)]
               else []).
Proof.
  intros Hb Hid Hpl Hpr Hrev Hver.
  unfold Release_handle_locale. rewrite try_except_log_handlers.
  unfold Release_try_locale, locale_accepted.
  destruct (is_valid_locale self tree locale) as [e|[]] eqn:Hvalid.
  - unfold bind, check, lift. simpl. now rewrite calls_app.
  - erewrite run_check by reflexivity. repeat run_step.
    unfold call_callback.
    match goal with
    | |- context [callback self ?h ?kw] =>
        destruct (callback self h kw) as [[e|name]|]
    end;
      simpl; rewrite ?calls_app; simpl; rewrite ?calls_app; simpl;
      rewrite ?app_nil_r; reflexivity.
  - unfold bind, check, lift. simpl. now rewrite calls_app.
Qed.

Variable d : dict.
Hypothesis Hexc : callback_raises_exceptions self.
Hypothesis Hbranch : dict_get "branch" d = Some branch.
Hypothesis Hbuildid : dict_get "buildid" d = Some buildid.
Hypothesis Hplatform : dict_get "platform" d = Some platform.
Hypothesis Hproduct : dict_get "product" d = Some product.
Hypothesis Hrevision : dict_get "revision" d = Some revision.
Hypothesis Hversion : dict_get "version" d = Some version.

(** The loop hands the callback one record for each accepted locale, in
    the order of the list, and returns. The record of a locale carries the
    payload with that locale set. *)
Lemma Release_locales_loop_calls (locales : list pyval) (data : pyval) (tr : trace) :
  (data = PDict d \/ exists l, data = PDict (dict_set "locale" l d)) ->
  let out := Release_locales_loop self tree data locales tr in
  (exists final, snd out = inr final) /\
  calls (fst out) =
  calls tr ++ map (fun l => Release_build_properties branch buildid l platform
                              product revision tree version
                              (PDict (dict_set "locale" l d)))
                  (filter (locale_accepted self tree) locales).
Proof.
  revert data tr. induction locales as [|locale rest IH]; intros data tr Hdata; simpl.
  - split; [eauto | now rewrite app_nil_r].
  - assert (Hset : py_setitem data "locale" locale
                   = inr (PDict (dict_set "locale" locale d))).
    { destruct Hdata as [->|[l ->]]; simpl; [reflexivity | now rewrite dict_set_set]. }
    erewrite run_lift by exact Hset.
    unfold bind.
    pose proof (Release_handle_locale_returns self Hexc tree
                  (PDict (dict_set "locale" locale d)) locale tr) as Hreturns.
    pose proof (Release_handle_locale_calls (dict_set "locale" locale d) locale tr)
      as Hcalls.
    rewrite !dict_get_set_other in Hcalls by discriminate.
    specialize (Hcalls Hbranch Hbuildid Hplatform Hproduct Hrevision Hversion).
    destruct (Release_handle_locale self tree (PDict (dict_set "locale" locale d))
                locale tr) as [tr' r]. simpl in Hreturns, Hcalls. subst r.
    destruct (IH (PDict (dict_set "locale" locale d)) tr') as (Hfinal & Hrest).
    { right. now exists locale. }
    split; [exact Hfinal|].
    rewrite Hrest, Hcalls, <- app_assoc.
    now destruct (locale_accepted self tree locale).
Qed.

End ReleaseLocales.

(** C5. A Release-Artifact-Completed payload that passes the tree, product
    and platform checks and carries a list of locales: the callback (which
    may raise exceptions) is handed one record for each locale that is valid
    for the tree, in the order of the list, and [_on_message] returns
    normally. With the list of a valid and an invalid locale, that is
    exactly one record, the one of the valid locale. *)
Theorem release_locales_are_isolated (self : PulseQueue) (d : dict)
    (tree product lowered platform branch buildid revision version : pyval)
    (locales : list pyval) (tr : trace) :
  callback_raises_exceptions self ->
  dict_get "tree" d = Some tree ->
  is_valid_tree self tree = inr true ->
  dict_get "product" d = Some product ->
  py_lower product = inr lowered ->
  is_valid_product self tree lowered = inr true ->
  dict_get "platform" d = Some platform ->
  is_valid_platform self tree platform = inr true ->
  dict_get "branch" d = Some branch ->
  dict_get "buildid" d = Some buildid ->
  dict_get "revision" d = Some revision ->
  dict_get "version" d = Some version ->
  dict_get "locale" d = None ->
  dict_get "locales" d = Some (PList locales) ->
  let record := fun locale =>
    Release_build_properties branch buildid locale platform product revision
      tree version (PDict (dict_set "locale" locale (dict_del "locales" d))) in
  let out := ReleaseTaskCompletedQueue_on_message self (PDict d) tr in
  snd out = inr tt /\
  calls (fst out) = calls tr ++ map record (filter (locale_accepted self tree) locales) /\
  (forall valid invalid,
     locales = [valid; invalid] ->
     is_valid_locale self tree valid = inr true ->
     is_valid_locale self tree invalid = inr false ->
     calls (fst out) = calls tr ++ [record valid]).
Proof.
  intros Hexc Htree Hvt Hproduct Hlower Hvp Hplatform Hvpl Hbranch Hbuildid
         Hrevision Hversion Hlocale Hlocales record out.
  assert (Hrun : snd out = inr tt /\
                 calls (fst out) =
                 calls tr ++ map record (filter (locale_accepted self tree) locales)).
  { subst out. unfold ReleaseTaskCompletedQueue_on_message.
    repeat run_step.
    unfold dict_has. rewrite Hlocale.
    erewrite run_lift by (simpl; rewrite Hlocales; reflexivity).
    erewrite run_lift by reflexivity.
    unfold bind. simpl snd.
    destruct (Release_locales_loop_calls self tree branch buildid platform product
                revision version (dict_del "locales" d) Hexc) with
      (locales := locales) (data := PDict (dict_del "locales" d)) (tr := tr)
      as ((final & Hfinal) & Hcalls);
      try (rewrite dict_get_del_other by discriminate; assumption);
      [now left|].
    destruct (Release_locales_loop self tree (PDict (dict_del "locales" d)) locales tr)
      as [tr' r]. simpl in Hfinal, Hcalls. subst r. simpl. now split. }
  destruct Hrun as (Hsnd & Hcalls). repeat split; auto.
  intros valid invalid -> Hvalid Hinvalid. rewrite Hcalls. simpl.
  unfold locale_accepted. now rewrite Hvalid, Hinvalid.
Qed.

Lemma release_locales_are_isolated_witness :
  let out := ReleaseTaskCompletedQueue_on_message (Sample.queue Sample.quiet)
               (Sample.release_payload ["en-US"; "xx-INVALID"]) [] in
  is_valid_locale (Sample.queue Sample.quiet) (PStr "release-mozilla-beta")
    (PStr "en-US") = inr true /\
  is_valid_locale (Sample.queue Sample.quiet) (PStr "release-mozilla-beta")
    (PStr "xx-INVALID") = inr false /\
  snd out = inr tt /\
  map (dict_get "locale") (calls (fst out)) = [Some (PStr "en-US")].
Proof.
  intro out. split; [reflexivity|]. split; [reflexivity|].
  destruct (release_locales_are_isolated (Sample.queue Sample.quiet)
              (Sample.release_fields
                 ++ [("locales", PList [PStr "en-US"; PStr "xx-INVALID"])])
              (PStr "release-mozilla-beta") (PStr "firefox") (PStr "firefox")
              (PStr "win32") (PStr "mozilla-beta") (PStr "201501010302")
              (PStr Sample.node) (PStr "37.0b1")
              [PStr "en-US"; PStr "xx-INVALID"] [])
    as (Hsnd & _ & Hone); try reflexivity.
  { intros history kw e H. discriminate H. }
  split; [exact Hsnd|].
  exact (f_equal (map (dict_get "locale"))
           (Hone (PStr "en-US") (PStr "xx-INVALID") eq_refl eq_refl eq_refl)).
Defined.

(** ** One update *)

Lemma at_most_one_call_silent {A : Type} (X : raised -> Prop) (m : M A) :
  sat no_callback X m -> at_most_one_call m.
Proof.
  intros Hm tr. destruct (Hm tr) as (new & -> & Hev & _).
  exists []. rewrite calls_app, (calls_no_callback new Hev). split; [reflexivity|].
  simpl. lia.
Qed.

Lemma at_most_one_call_bind {A B : Type} (X : raised -> Prop) (m : M A) (k : A -> M B) :
  sat no_callback X m ->
  (forall a, at_most_one_call (k a)) ->
  at_most_one_call (bind m k).
Proof.
  intros Hm Hk tr. unfold bind.
  destruct (Hm tr) as (new & Hfst & Hev & _).
  destruct (m tr) as [tr' [e|a]]; simpl in *; subst tr'.
  - exists []. rewrite calls_app, (calls_no_callback new Hev).
    split; [reflexivity | simpl; lia].
  - destruct (Hk a (tr ++ new)) as (kws & Hcalls & Hlen).
    exists kws. rewrite Hcalls, calls_app, (calls_no_callback new Hev), app_nil_r.
    now split.
Qed.

Lemma at_most_one_call_callback (self : PulseQueue) (kw : kwargs) :
  at_most_one_call (call_callback self kw).
Proof.
  intro tr. exists [kw]. unfold call_callback.
  destruct (callback self (calls tr) kw); simpl; rewrite calls_app; simpl;
    (split; [reflexivity | lia]).
Qed.

Lemma at_most_one_call_handled (m : M unit) (l : level) :
  at_most_one_call m -> at_most_one_call (try_except m (log_handlers l)).
Proof.
  intros Hm tr. destruct (Hm tr) as (kws & Hcalls & Hlen).
  exists kws. rewrite try_except_log_handlers.
  destruct (snd (m tr)) as [[e|name]|a]; simpl; rewrite ?calls_app, Hcalls; simpl;
    rewrite ?app_nil_r; now split.
Qed.

Lemma Funsize_handle_update_once (self : PulseQueue) (update : pyval) :
  at_most_one_call (Funsize_handle_update self update).
Proof.
  unfold Funsize_handle_update. apply at_most_one_call_handled.
  unfold Funsize_try_update.
  repeat (apply at_most_one_call_bind with (X := fun _ => True);
          [silent_step | intros ?]).
  apply at_most_one_call_callback.
Qed.

(** C6. An update given as a dictionary is handled as the list of that one
    update: the two runs of [_on_message] are the same, validation, callback
    invocation and outcome. The run hands the callback at most one record,
    and exactly one when the update has its fields and passes the tree,
    product, platform and locale checks. *)
Theorem funsize_dict_is_singleton_list (self : PulseQueue) (u : dict) (tr : trace) :
  let run := FunsizeTaskCompletedQueue_on_message self (PDict u) tr in
  run = FunsizeTaskCompletedQueue_on_message self (PList [PDict u]) tr /\
  (exists kws, calls (fst run) = calls tr ++ kws /\ length kws <= 1) /\
  (forall tree app lowered platform locale from_buildid repo revision to_buildid
          version update_number,
     dict_get "branch" u = Some tree ->
     is_valid_tree self tree = inr true ->
     dict_get "appName" u = Some app ->
     py_lower app = inr lowered ->
     is_valid_product self tree lowered = inr true ->
     dict_get "platform" u = Some platform ->
     is_valid_platform self tree platform = inr true ->
     dict_get "locale" u = Some locale ->
     is_valid_locale self tree locale = inr true ->
     dict_get "from_buildid" u = Some from_buildid ->
     dict_get "repo" u = Some repo ->
     dict_get "revision" u = Some revision ->
     dict_get "to_buildid" u = Some to_buildid ->
     dict_get "version" u = Some version ->
     dict_get "update_number" u = Some update_number ->
     calls (fst run) =
     calls tr ++ [Funsize_update_properties tree from_buildid locale platform
                    lowered repo revision to_buildid version tree update_number
                    (PDict u)]).
Proof.
  intro run. split; [reflexivity|]. split.
  - subst run. unfold FunsizeTaskCompletedQueue_on_message.
    erewrite run_lift by reflexivity. simpl for_each.
    destruct (Funsize_handle_update_once self (PDict u) tr) as (kws & Hcalls & Hlen).
    exists kws. split; [|exact Hlen].
    unfold bind. destruct (Funsize_handle_update self (PDict u) tr) as [tr' [e|[]]];
      exact Hcalls.
  - intros tree app lowered platform locale from_buildid repo revision to_buildid
           version update_number Htree Hvt Happ Hlower Hvp Hplatform Hvpl Hlocale Hvl
           Hfrom Hrepo Hrevision Hto Hversion Hnumber.
    subst run. unfold FunsizeTaskCompletedQueue_on_message.
    erewrite run_lift by reflexivity. simpl for_each.
    unfold bind at 1. unfold Funsize_handle_update.
    rewrite try_except_log_handlers. unfold Funsize_try_update.
    repeat run_step. unfold call_callback.
    match goal with
    | |- context [callback self ?h ?kw] =>
        destruct (callback self h kw) as [[e|name]|]
    end; simpl; rewrite ?calls_app; simpl; rewrite ?calls_app; simpl;
      rewrite ?app_nil_r; reflexivity.
Qed.

Lemma funsize_dict_is_singleton_list_witness :
  let run := FunsizeTaskCompletedQueue_on_message (Sample.queue Sample.quiet)
               Sample.update_payload [] in
  run = FunsizeTaskCompletedQueue_on_message (Sample.queue Sample.quiet)
          (PList [Sample.update_payload]) [] /\
  length (calls (fst run)) = 1 /\
  map raw_json (calls (fst run)) = [Some Sample.update_payload].
Proof.
  intro run.
  destruct (funsize_dict_is_singleton_list (Sample.queue Sample.quiet)
              match Sample.update_payload with PDict u => u | _ => [] end [])
    as (Hsame & _ & Hone).
  split; [exact Hsame|].
  pose proof (Hone (PStr "mozilla-central") (PStr "Firefox") (PStr "firefox")
                (PStr "win32") (PStr "de") (PStr "20150101030205")
                (PStr "http://hg.mozilla.org/mozilla-central") (PStr Sample.node)
                (PStr "20150102030205") (PStr "37.0a1") (PInt 1)
                eq_refl eq_refl eq_refl eq_refl eq_refl eq_refl eq_refl eq_refl
                eq_refl eq_refl eq_refl eq_refl eq_refl eq_refl eq_refl) as H.
  split.
  - exact (f_equal (@length kwargs) H).
  - exact (f_equal (map raw_json) H).
Defined.

(** ** The build URL *)

Lemma run_get_long_revision {B : Type} (W : World) (repo revision value : pyval)
    (k : pyval -> M B) (tr : trace) :
  snd (get_long_revision W repo revision []) = inr value ->
  bind (get_long_revision W repo revision) k tr =
  k value (tr ++ [Request (json_rev_url W repo revision) (Some 60%Z)]).
Proof.
  intro H. unfold bind. now rewrite get_long_revision_run, H.
Qed.

Section BuildRecord.

Variable W : World.
Variable self : PulseQueue.
Variable d : dict.
Variable t : string.
Variables product lowered platform tags buildid buildurl short revision : pyval.
Variables status test_packages_url version : pyval.

Hypothesis Htree : dict_get "tree" d = Some (PStr t).
Hypothesis Hvalid_tree : is_valid_tree self (PStr t) = inr true.
Hypothesis Hproduct : dict_get "product" d = Some product.
Hypothesis Hlower : py_lower product = inr lowered.
Hypothesis Hvalid_product : is_valid_product self (PStr t) lowered = inr true.
Hypothesis Hplatform : dict_get "platform" d = Some platform.
Hypothesis Hvalid_platform : is_valid_platform self (PStr t) platform = inr true.
Hypothesis Htags : dict_get "tags" d = Some tags.
Hypothesis Hvalid_tags : has_valid_tags self (PStr t) tags = inr true.
Hypothesis Hbuildid : dict_get "buildid" d = Some buildid.
Hypothesis Hbuildurl : dict_get "buildurl" d = Some buildurl.
Hypothesis Hshort : dict_get "revision" d = Some short.
Hypothesis Hrevision : snd (get_long_revision W (PStr t) short []) = inr revision.
Hypothesis Hstatus : dict_get "status" d = Some status.
Hypothesis Htest : dict_get "test_packages_url" d = Some test_packages_url.
Hypothesis Hversion : dict_get "version" d = Some version.

(** The run on the payload [d] with its locale set to [l]. *)
Lemma NormalizedBuildQueue_on_message_calls (l : string) (tr : trace) :
  is_valid_locale self (PStr t) (PStr l) = inr true ->
  let branch := PStr (str_replace "release-" "" t) in
  let repo := PStr ("http://hg.mozilla.org/"
                    ++ (if negb (str_endswith "-central" t) then "releases/" else "")
                    ++ str_replace "release-" "" t)%string in
  let payload := dict_set "locale" (PStr l) d in
  calls (fst (NormalizedBuildQueue_on_message W self (PDict payload) tr)) =
  calls tr ++
  [Build_properties branch buildid
     (match dict_get "build_number" d with Some v => v | None => PNone end)
     (if String.eqb l "en-US" then buildurl else PNone)
     (PStr l) platform lowered repo revision status tags test_packages_url
     (PStr t) version
     (PDict (dict_set "repo" repo (dict_set "branch" branch payload)))].
Proof.
  intros Hvalid_locale branch repo payload. subst payload.
  unfold NormalizedBuildQueue_on_message.
  repeat run_step.
  erewrite run_lift with (a := if String.eqb l "en-US" then buildurl else PNone)
    by (dict_lookup; destruct (String.eqb l "en-US"); reflexivity).
  repeat run_step.
  erewrite run_get_long_revision by exact Hrevision.
  repeat run_step.
  unfold call_callback.
  match goal with
  | |- context [callback self ?h ?kw] => destruct (callback self h kw)
  end; cbn [fst]; rewrite !calls_app; cbn [calls]; rewrite app_nil_r; reflexivity.
Qed.

End BuildRecord.

(** C7. A Build-Completed payload that passes the checks, once with the
    locale [en-US] and once with another locale [l], all else equal: each
    run hands the callback one record; the two records are built by the same
    function of the payload, in which [build_url] is the [buildurl] of the
    payload for [en-US] and [None] for [l]. Apart from [build_url], from
    [locale] and from the payload kept in [raw_json], their fields are
    equal. *)
Theorem build_url_only_for_en_US (W : World) (self : PulseQueue) (d : dict)
    (t l : string)
    (product lowered platform tags buildid buildurl short revision : pyval)
    (status test_packages_url version : pyval) (tr : trace) :
  dict_get "tree" d = Some (PStr t) ->
  is_valid_tree self (PStr t) = inr true ->
  dict_get "product" d = Some product ->
  py_lower product = inr lowered ->
  is_valid_product self (PStr t) lowered = inr true ->
  dict_get "platform" d = Some platform ->
  is_valid_platform self (PStr t) platform = inr true ->
  dict_get "tags" d = Some tags ->
  has_valid_tags self (PStr t) tags = inr true ->
  dict_get "buildid" d = Some buildid ->
  dict_get "buildurl" d = Some buildurl ->
  dict_get "revision" d = Some short ->
  snd (get_long_revision W (PStr t) short []) = inr revision ->
  dict_get "status" d = Some status ->
  dict_get "test_packages_url" d = Some test_packages_url ->
  dict_get "version" d = Some version ->
  is_valid_locale self (PStr t) (PStr "en-US") = inr true ->
  is_valid_locale self (PStr t) (PStr l) = inr true ->
  l <> "en-US" ->
  let branch := PStr (str_replace "release-" "" t) in
  let repo := PStr ("http://hg.mozilla.org/"
                    ++ (if negb (str_endswith "-central" t) then "releases/" else "")
                    ++ str_replace "release-" "" t)%string in
  let record := fun (locale : string) (build_url : pyval) =>
    Build_properties branch buildid
      (match dict_get "build_number" d with Some v => v | None => PNone end)
      build_url (PStr locale) platform lowered repo revision status tags
      test_packages_url (PStr t) version
      (PDict (dict_set "repo" repo
                (dict_set "branch" branch (dict_set "locale" (PStr locale) d)))) in
  calls (fst (NormalizedBuildQueue_on_message W self
                (PDict (dict_set "locale" (PStr "en-US") d)) tr))
    = calls tr ++ [record "en-US" buildurl] /\
  calls (fst (NormalizedBuildQueue_on_message W self
                (PDict (dict_set "locale" (PStr l) d)) tr))
    = calls tr ++ [record l PNone] /\
  (forall key, key <> "build_url" -> key <> "locale" -> key <> "raw_json" ->
     dict_get key (record "en-US" buildurl) = dict_get key (record l PNone)).
Proof.
  intros Htree Hvt Hproduct Hlower Hvp Hplatform Hvpl Htags Hvtags Hbuildid Hbuildurl
         Hshort Hrevision Hstatus Htest Hversion Hen Hl Hne branch repo record.
  split; [|split].
  - rewrite (NormalizedBuildQueue_on_message_calls W self d t product lowered platform
               tags buildid buildurl short revision status test_packages_url version);
      auto.
  - rewrite (NormalizedBuildQueue_on_message_calls W self d t product lowered platform
               tags buildid buildurl short revision status test_packages_url version);
      auto.
    apply String.eqb_neq in Hne. now rewrite Hne.
  - intros key Hk1 Hk2 Hk3. unfold record, Build_properties. cbn [dict_get].
    apply String.eqb_neq in Hk1, Hk2, Hk3. rewrite Hk1, Hk2, Hk3. reflexivity.
Qed.

Lemma build_url_only_for_en_US_witness :
  let run := fun locale =>
    NormalizedBuildQueue_on_message Sample.world (Sample.queue Sample.quiet)
      (Sample.build_payload locale) [] in
  map (dict_get "build_url") (calls (fst (run "en-US")))
    = [Some (PStr "http://ftp.mozilla.org/firefox.tar.bz2")] /\
  map (dict_get "build_url") (calls (fst (run "de"))) = [Some PNone] /\
  map (dict_get "revision") (calls (fst (run "en-US")))
    = map (dict_get "revision") (calls (fst (run "de"))).
Proof.
  intro run.
  destruct (build_url_only_for_en_US Sample.world (Sample.queue Sample.quiet)
              match Sample.build_payload "en-US" with PDict d => d | _ => [] end
              "mozilla-central" "de"
              (PStr "Firefox") (PStr "firefox") (PStr "linux64") (PList [])
              (PStr "20150101030205") (PStr "http://ftp.mozilla.org/firefox.tar.bz2")
              (PStr "59f372c35b24") (PStr Sample.node) (PInt 0)
              (PStr "http://ftp.mozilla.org/test_packages.json") (PStr "37.0a1") []
              eq_refl eq_refl eq_refl eq_refl eq_refl eq_refl eq_refl eq_refl eq_refl
              eq_refl eq_refl eq_refl eq_refl eq_refl eq_refl eq_refl eq_refl eq_refl)
    as (Hen & Hde & _); [discriminate|].
  split; [exact (f_equal (map (dict_get "build_url")) Hen)|].
  split; [exact (f_equal (map (dict_get "build_url")) Hde)|].
  exact (eq_trans (f_equal (map (dict_get "revision")) Hen)
           (eq_sym (f_equal (map (dict_get "revision")) Hde))).
Defined.

(** * Further properties of the queues *)

(** ** The policy of one tree *)

Lemma existsb_app_l {A : Type} (f : A -> bool) (l l' : list A) :
  existsb f l = true -> existsb f (l ++ l') = true.
Proof. intro H. rewrite existsb_app, H. reflexivity. Qed.

Lemma set_issubset_app (a b extra : list pyval) :
  set_issubset a b = true -> set_issubset a (b ++ extra) = true.
Proof.
  unfold set_issubset. rewrite !forallb_forall. intros H x Hx.
  apply existsb_app_l. now apply H.
Qed.

(** X1. For a tree of the policy whose entry has its list of locales and its
    blacklist, [is_valid_locale] accepts a locale exactly when it is not on
    the blacklist and the list of locales is empty or has it: a blacklisted
    locale is refused whatever the list of locales says, also when the list
    is empty. *)
Theorem is_valid_locale_blacklist_first (self : PulseQueue) (cfg mapping e b : dict)
    (t : string) (locales blocked : list pyval) (x : pyval) :
  pulse_config self = PDict cfg ->
  dict_get "trees" cfg = Some (PDict mapping) ->
  dict_get t mapping = Some (PDict e) ->
  dict_get "locales" e = Some (PList locales) ->
  dict_get "blacklist" e = Some (PDict b) ->
  dict_get "locales" b = Some (PList blocked) ->
  is_valid_locale self (PStr t) x =
    inr (negb (existsb (py_eqb x) blocked)
         && match locales with
            | [] => true
            | _ :: _ => existsb (py_eqb x) locales
            end) /\
  (existsb (py_eqb x) blocked = true -> is_valid_locale self (PStr t) x = inr false).
Proof.
  intros Hcfg Htrees Hin Hl Hb Hbl.
  assert (Hval : is_valid_locale self (PStr t) x =
                 inr (negb (existsb (py_eqb x) blocked)
                      && match locales with
                         | [] => true
                         | _ :: _ => existsb (py_eqb x) locales
                         end)).
  { unfold is_valid_locale.
    rewrite !(tree_entry_present self cfg mapping Hcfg Htrees t _ e Hin).
    rewrite Hl, Hb. simpl. unfold getitem_str. simpl. rewrite Hbl. simpl.
    destruct (existsb (py_eqb x) blocked); simpl; [reflexivity|].
    now destruct locales. }
  split; [exact Hval|]. intro Hblocked. now rewrite Hval, Hblocked.
Qed.

Lemma is_valid_locale_blacklist_first_witness :
  is_valid_locale (Sample.queue Sample.quiet) (PStr "mozilla-central")
    (PStr "ja-JP-mac") = inr false /\
  is_valid_locale (Sample.queue Sample.quiet) (PStr "mozilla-central")
    (PStr "de") = inr true.
Proof.
  split.
  - apply (is_valid_locale_blacklist_first (Sample.queue Sample.quiet)
             [("trees", PDict [("mozilla-central", Sample.tree_policy ["en-US"; "de"]);
                               ("release-mozilla-beta", Sample.tree_policy ["en-US"])])]
             _ _ _ "mozilla-central" _ _ (PStr "ja-JP-mac")
             eq_refl eq_refl eq_refl eq_refl eq_refl eq_refl).
    reflexivity.
  - apply (is_valid_locale_blacklist_first (Sample.queue Sample.quiet)
             [("trees", PDict [("mozilla-central", Sample.tree_policy ["en-US"; "de"]);
                               ("release-mozilla-beta", Sample.tree_policy ["en-US"])])]
             _ _ _ "mozilla-central" _ _ (PStr "de")
             eq_refl eq_refl eq_refl eq_refl eq_refl eq_refl).
Defined.

(** X2. For a tree of the policy, an empty list of platforms (of products)
    accepts every platform (product), and a non-empty list accepts exactly
    its members. *)
Theorem is_valid_platform_product_lists (self : PulseQueue) (cfg mapping e : dict)
    (t : string) (platforms products : list pyval) (x : pyval) :
  pulse_config self = PDict cfg ->
  dict_get "trees" cfg = Some (PDict mapping) ->
  dict_get t mapping = Some (PDict e) ->
  dict_get "platforms" e = Some (PList platforms) ->
  dict_get "products" e = Some (PList products) ->
  is_valid_platform self (PStr t) x =
    inr (match platforms with [] => true | _ :: _ => existsb (py_eqb x) platforms end) /\
  is_valid_product self (PStr t) x =
    inr (match products with [] => true | _ :: _ => existsb (py_eqb x) products end).
Proof.
  intros Hcfg Htrees Hin Hpl Hpr.
  unfold is_valid_platform, is_valid_product.
  rewrite !(tree_entry_present self cfg mapping Hcfg Htrees t _ e Hin).
  rewrite Hpl, Hpr. simpl. split.
  - now destruct platforms.
  - now destruct products.
Qed.

Lemma is_valid_platform_product_lists_witness :
  is_valid_platform (Sample.queue Sample.quiet) (PStr "mozilla-central")
    (PStr "mac") = inr false /\
  is_valid_product (Sample.queue Sample.quiet) (PStr "mozilla-central")
    (PStr "firefox") = inr true.
Proof.
  destruct (is_valid_platform_product_lists (Sample.queue Sample.quiet)
              [("trees", PDict [("mozilla-central", Sample.tree_policy ["en-US"; "de"]);
                                ("release-mozilla-beta", Sample.tree_policy ["en-US"])])]
              _ _ "mozilla-central" _ _ (PStr "mac")
              eq_refl eq_refl eq_refl eq_refl eq_refl) as (Hpl & _).
  destruct (is_valid_platform_product_lists (Sample.queue Sample.quiet)
              [("trees", PDict [("mozilla-central", Sample.tree_policy ["en-US"; "de"]);
                                ("release-mozilla-beta", Sample.tree_policy ["en-US"])])]
              _ _ "mozilla-central" _ _ (PStr "firefox")
              eq_refl eq_refl eq_refl eq_refl eq_refl) as (_ & Hpr).
  split; [exact Hpl | exact Hpr].
Defined.

(** X3. For a tree of the policy whose list of tags is hashable: with no
    tag configured [has_valid_tags] returns true without looking at the
    tags of the message, which may be anything; with tags configured, a
    message without a list of tags ([None]) raises [TypeError], a list of
    hashable tags is accepted exactly when it has every configured tag, and
    adding tags to an accepted list keeps it accepted. *)
Theorem has_valid_tags_superset (self : PulseQueue) (cfg mapping e : dict)
    (t : string) (required : list pyval) :
  pulse_config self = PDict cfg ->
  dict_get "trees" cfg = Some (PDict mapping) ->
  dict_get t mapping = Some (PDict e) ->
  dict_get "tags" e = Some (PList required) ->
  forallb hashable required = true ->
  (required = [] -> forall tags, has_valid_tags self (PStr t) tags = inr true) /\
  (required <> [] ->
   has_valid_tags self (PStr t) PNone = inl TypeError /\
   forall given, forallb hashable given = true ->
     has_valid_tags self (PStr t) (PList given) = inr (set_issubset required given) /\
     forall extra, forallb hashable extra = true ->
       has_valid_tags self (PStr t) (PList given) = inr true ->
       has_valid_tags self (PStr t) (PList (given ++ extra)) = inr true).
Proof.
  intros Hcfg Htrees Hin Ht Hh.
  assert (Hval : forall tags,
            has_valid_tags self (PStr t) tags =
            match required with
            | [] => inr true
            | _ :: _ => let? given := py_set tags in inr (set_issubset required given)
            end).
  { intro tags. unfold has_valid_tags.
    rewrite (tree_entry_present self cfg mapping Hcfg Htrees t _ e Hin), Ht.
    simpl. unfold py_set at 1. simpl. rewrite Hh. simpl. now destruct required. }
  split.
  - intros -> tags. now rewrite Hval.
  - intro Hne. destruct required as [|r0 rest]; [contradiction|]. split.
    + now rewrite Hval.
    + intros given Hgiven.
      assert (Hlist : forall g, forallb hashable g = true ->
                has_valid_tags self (PStr t) (PList g)
                = inr (set_issubset (r0 :: rest) g)).
      { intros g Hg. rewrite Hval. unfold py_set. simpl. now rewrite Hg. }
      split; [now apply Hlist|].
      intros extra Hextra. rewrite !Hlist; auto.
      * intros [= Hsub]. now rewrite set_issubset_app.
      * rewrite forallb_app, Hgiven, Hextra. reflexivity.
Qed.

Lemma has_valid_tags_superset_witness :
  let self := {| callback := Sample.quiet;
                 pulse_config :=
                   PDict [("trees",
                           PDict [("mozilla-aurora",
                                   PDict [("tags", PList [PStr "l10n"])])])] |} in
  has_valid_tags (Sample.queue Sample.quiet) (PStr "mozilla-central") PNone = inr true /\
  has_valid_tags self (PStr "mozilla-aurora") PNone = inl TypeError /\
  has_valid_tags self (PStr "mozilla-aurora") (PList [PStr "nightly"]) = inr false /\
  has_valid_tags self (PStr "mozilla-aurora") (PList [PStr "nightly"; PStr "l10n"])
    = inr true.
Proof.
  intro self.
  destruct (has_valid_tags_superset (Sample.queue Sample.quiet)
              [("trees", PDict [("mozilla-central", Sample.tree_policy ["en-US"; "de"]);
                                ("release-mozilla-beta", Sample.tree_policy ["en-US"])])]
              _ _ "mozilla-central" [] eq_refl eq_refl eq_refl eq_refl eq_refl)
    as (Hempty & _).
  destruct (has_valid_tags_superset self
              [("trees", PDict [("mozilla-aurora", PDict [("tags", PList [PStr "l10n"])])])]
              _ _ "mozilla-aurora" [PStr "l10n"] eq_refl eq_refl eq_refl eq_refl eq_refl)
    as (_ & Hsome).
  destruct (Hsome ltac:(discriminate)) as (Hnone & Hlist).
  split; [exact (Hempty eq_refl PNone)|]. split; [exact Hnone|].
  split.
  - exact (proj1 (Hlist [PStr "nightly"] eq_refl)).
  - exact (proj1 (Hlist [PStr "nightly"; PStr "l10n"] eq_refl)).
Defined.

(** ** The declaration of the queue *)

(** X4. Whenever [PulseQueue.__init__] gets to declare the queue, it
    declares it with [auto_delete] the negation of the durability it
    declares; the [auto_delete] argument makes no difference. A true
    [durable] argument is kept, and a policy without a [durable] entry
    leaves a false one false. A non-empty [exchange_name] gives a passive
    topic exchange of that name, whatever exchange was passed. *)
Theorem queue_auto_delete_is_not_durable (name : pyval) (exname : option string)
    (exchange : option Exchange) (durable auto_delete config : pyval) (args : QueueArgs) :
  PulseQueue_queue_args name exname exchange durable auto_delete config = inr args ->
  queue_auto_delete args = negb (py_truthy (queue_durable args)) /\
  (forall other,
     PulseQueue_queue_args name exname exchange durable other config = inr args) /\
  (py_truthy durable = true -> queue_durable args = durable) /\
  (py_truthy durable = false ->
   forall d, config = PDict d -> dict_get "durable" d = None ->
   queue_auto_delete args = true) /\
  (forall n, exname = Some n -> n <> "" ->
     queue_exchange args
     = Some {| exchange_name := n; exchange_type := "topic"; passive := true |}).
Proof.
  unfold PulseQueue_queue_args. intro H.
  assert (Hex : forall n, exname = Some n -> n <> "" ->
            match exname with
            | Some n =>
                if negb (String.eqb n "")
                then Some {| exchange_name := n; exchange_type := "topic";
                             passive := true |}
                else exchange
            | None => exchange
            end
            = Some {| exchange_name := n; exchange_type := "topic"; passive := true |}).
  { intros n Hn Hne. rewrite Hn. apply String.eqb_neq in Hne. now rewrite Hne. }
  destruct (py_truthy durable) eqn:Hd; simpl in H.
  - injection H as <-. simpl. repeat split; auto; discriminate.
  - destruct (py_get (if py_truthy config then config else PDict []) "durable"
                (PBool false)) as [e|durable'] eqn:Hget; [discriminate|].
    simpl in H. injection H as <-. simpl. repeat split; auto; try discriminate.
    intros _ d -> Hnone. destruct d as [|p d'].
    + simpl in Hget. injection Hget as <-. reflexivity.
    + cbn [py_truthy py_get] in Hget. rewrite Hnone in Hget.
      injection Hget as <-. reflexivity.
Qed.

Lemma queue_auto_delete_is_not_durable_witness :
  let args := {| queue_name := PStr "firefox-ui";
                 queue_exchange :=
                   Some {| exchange_name := "exchange/build/normalized";
                           exchange_type := "topic"; passive := true |};
                 queue_durable := PBool true;
                 queue_auto_delete := false |} in
  PulseQueue_queue_args (PStr "firefox-ui") (Some "exchange/build/normalized") None
    (PBool false) (PBool true) (PDict [("durable", PBool true)]) = inr args /\
  PulseQueue_queue_args (PStr "firefox-ui") (Some "exchange/build/normalized") None
    (PBool false) (PBool false) (PDict [("durable", PBool true)]) = inr args.
Proof.
  intro args. split; [reflexivity|].
  destruct (queue_auto_delete_is_not_durable (PStr "firefox-ui")
              (Some "exchange/build/normalized") None (PBool false) (PBool true)
              (PDict [("durable", PBool true)]) args eq_refl) as (_ & Hother & _).
  exact (Hother (PBool false)).
Defined.

(** ** Records and checks *)

Lemma check_value (ok : res bool) (msg : string) (arg : pyval) (u : unit) :
  (exists tr, snd (check ok msg arg tr) = inr u) -> ok = inr true.
Proof.
  intros [tr H]. unfold check, bind, lift in H. simpl in H.
  destruct ok as [e|[]]; simpl in H; [discriminate | reflexivity | discriminate].
Qed.

Ltac keep_values :=
  repeat match goal with
         | H : exists tr, snd (lift ?r tr) = inr ?a |- _ => apply lift_value in H
         | H : exists tr, snd (check _ _ _ tr) = inr _ |- _ => apply check_value in H
         | H : exists tr, snd (_ tr) = inr _ |- _ => clear H
         end.

(** Two values of one expression are the same value. *)
Ltac same_values :=
  repeat match goal with
         | H : ?x = inr ?a, H' : ?x = inr ?b |- _ =>
             rewrite H in H'; injection H' as <-
         end.

Section Accepted.

Variable W : World.
Variable self : PulseQueue.
Variable X : raised -> Prop.
Hypothesis HX : forall e, X (Exception e).
Hypothesis Hcb : forall history kw e, callback self history kw = Some e -> X e.

Lemma NormalizedBuildQueue_on_message_accepted (data : pyval) :
  sat (fun _ => Build_accepted self data) X (NormalizedBuildQueue_on_message W self data).
Proof.
  unfold NormalizedBuildQueue_on_message.
  repeat (lazymatch goal with
          | |- sat _ _ (bind (get_long_revision _ _ _) _) =>
              apply sat_bind; [apply get_long_revision_sat; auto | intros ? ?]
          | |- sat _ _ (call_callback _ _) => idtac
          | _ => sat_step
          end).
  keep_values.
  apply sat_call_callback; [|eauto].
  unfold Build_accepted. do 5 eexists. repeat split; eassumption.
Qed.

Lemma Funsize_try_update_accepted (update : pyval) :
  sat (fun kw => raw_json kw = Some update /\ Funsize_accepted self update) X
      (Funsize_try_update self update).
Proof.
  unfold Funsize_try_update.
  repeat (lazymatch goal with
          | |- sat _ _ (call_callback _ _) => idtac
          | _ => sat_step
          end).
  keep_values. same_values.
  apply sat_call_callback; [|eauto].
  split; [reflexivity|].
  unfold Funsize_accepted. do 4 eexists. repeat split; eassumption.
Qed.

Lemma FunsizeTaskCompletedQueue_on_message_accepted (data : pyval) :
  sat (fun kw => exists update, raw_json kw = Some update /\ Funsize_accepted self update)
      X (FunsizeTaskCompletedQueue_on_message self data).
Proof.
  unfold FunsizeTaskCompletedQueue_on_message.
  apply sat_bind; [now apply sat_lift | intros updates _].
  apply sat_for_each. intros update _. unfold Funsize_handle_update.
  apply sat_try_except with (X' := X); auto.
  - eapply sat_weaken; [| |apply Funsize_try_update_accepted]; auto.
    intros kw Hkw. now exists update.
  - intros e k _. apply sat_log_handlers.
Qed.

Lemma Release_handle_locale_accepted (tree data locale : pyval) :
  sat (fun kw => dict_get "locale" kw = Some locale /\
                 is_valid_locale self tree locale = inr true) X
      (Release_handle_locale self tree data locale).
Proof.
  unfold Release_handle_locale.
  apply sat_try_except with (X' := X); auto.
  - unfold Release_try_locale.
    repeat (lazymatch goal with
            | |- sat _ _ (call_callback _ _) => idtac
            | _ => sat_step
            end).
    keep_values.
    apply sat_call_callback; [|eauto]. now split.
  - intros e k _. apply sat_log_handlers.
Qed.

Lemma Release_locales_loop_accepted (tree : pyval) (locales : list pyval) (data : pyval) :
  sat (fun kw => exists locale, dict_get "locale" kw = Some locale /\
                                is_valid_locale self tree locale = inr true) X
      (Release_locales_loop self tree data locales).
Proof.
  revert data. induction locales as [|locale rest IH]; intro data; simpl.
  - apply sat_ret.
  - apply sat_bind; [now apply sat_lift | intros data' _].
    apply sat_bind; [|intros _ _; apply IH].
    eapply sat_weaken; [| |apply Release_handle_locale_accepted]; auto.
    intros kw Hkw. now exists locale.
Qed.

Lemma ReleaseTaskCompletedQueue_on_message_accepted (data : pyval) :
  sat (fun kw => exists locale, dict_get "locale" kw = Some locale /\
                                Release_accepted self data locale) X
      (ReleaseTaskCompletedQueue_on_message self data).
Proof.
  unfold ReleaseTaskCompletedQueue_on_message.
  repeat (lazymatch goal with
          | |- sat _ _ (bind (lift (py_contains _ _)) _) => idtac
          | _ => sat_step
          end).
  keep_values.
  assert (Hacc : forall kw,
            (exists locale, dict_get "locale" kw = Some locale /\
                            is_valid_locale self a locale = inr true) ->
            exists locale, dict_get "locale" kw = Some locale /\
                           Release_accepted self data locale).
  { intros kw (locale & Hl & Hvalid). exists locale. split; [exact Hl|].
    unfold Release_accepted. do 3 eexists. repeat split; eassumption. }
  apply sat_bind; [now apply sat_lift | intros has_locale _].
  destruct has_locale.
  - apply sat_bind; [now apply sat_lift | intros locale _].
    eapply sat_weaken; [| |apply Release_handle_locale_accepted]; auto.
    intros kw Hkw. apply Hacc. now exists locale.
  - apply sat_bind; [now apply sat_lift | intros popped _].
    apply sat_bind; [now apply sat_lift | intros locales _].
    apply sat_bind; [|intros; apply sat_ret].
    eapply sat_weaken; [| |apply Release_locales_loop_accepted]; auto.
Qed.

End Accepted.

(** X5. Whatever [NormalizedBuildQueue._on_message] hands to the callback,
    the payload has passed the five checks: its tree, its product in lower
    case, its platform, its tags and its locale were all found valid. *)
Theorem build_records_passed_checks (W : World) (self : PulseQueue)
    (data : pyval) (tr : trace) :
  exists new,
    fst (NormalizedBuildQueue_on_message W self data tr) = tr ++ new /\
    (calls new <> [] -> Build_accepted self data).
Proof.
  destruct (NormalizedBuildQueue_on_message_accepted W self (fun _ => True)
              (fun _ => I) (fun _ _ _ _ => I) data tr) as (new & Hfst & Hev & _).
  exists new. split; [exact Hfst|]. intro Hne.
  apply calls_event_ok in Hev. destruct (calls new); [contradiction|].
  now inversion Hev.
Qed.

(** X6. Whatever [FunsizeTaskCompletedQueue._on_message] hands to the
    callback is the record of an update that has passed the four checks of
    this family: the tree named by [branch], the product named by [appName]
    in lower case, the platform and the locale. Tags are not checked. *)
Theorem funsize_records_passed_checks (self : PulseQueue) (data : pyval) (tr : trace) :
  exists new,
    fst (FunsizeTaskCompletedQueue_on_message self data tr) = tr ++ new /\
    Forall (fun kw => exists update,
              raw_json kw = Some update /\ Funsize_accepted self update)
           (calls new).
Proof.
  destruct (FunsizeTaskCompletedQueue_on_message_accepted self (fun _ => True)
              (fun _ => I) (fun _ _ _ _ => I) data tr) as (new & Hfst & Hev & _).
  exists new. split; [exact Hfst | now apply calls_event_ok].
Qed.

(** X7. Whatever [ReleaseTaskCompletedQueue._on_message] hands to the
    callback, the payload has passed the tree, product and platform checks
    and the locale of the record has passed the locale check for the tree of
    the payload. *)
Theorem release_records_passed_checks (self : PulseQueue) (data : pyval) (tr : trace) :
  exists new,
    fst (ReleaseTaskCompletedQueue_on_message self data tr) = tr ++ new /\
    Forall (fun kw => exists locale,
              dict_get "locale" kw = Some locale /\ Release_accepted self data locale)
           (calls new).
Proof.
  destruct (ReleaseTaskCompletedQueue_on_message_accepted self (fun _ => True)
              (fun _ => I) (fun _ _ _ _ => I) data tr) as (new & Hfst & Hev & _).
  exists new. split; [exact Hfst | now apply calls_event_ok].
Qed.

(** A step of a run that ends in a rejection: the expression raises, or the
    check fails, and the trace is as it was. *)
Ltac reject_lift :=
  lazymatch goal with
  | |- context [bind (lift ?r) _ _] =>
      let E := fresh "E" in
      destruct r as [?|?] eqn:E;
      [ unfold bind, lift; simpl; split; eauto
      | erewrite run_lift by reflexivity ]
  end.

Ltac reject_check :=
  lazymatch goal with
  | |- context [bind (check ?ok _ _) _ _] =>
      let E := fresh "E" in
      destruct ok as [?|[|]] eqn:E;
      [ unfold bind, check, lift; simpl; split; eauto
      | erewrite run_check by reflexivity
      | unfold bind, check, lift, raise; simpl; split; eauto ]
  end.

(** X8. A Build-Completed payload that does not pass the five checks (a
    field of the checks is missing, or a check returns false or raises) is
    given up before anything else is done: [_on_message] raises an
    exception and leaves the trace as it was, so no revision lookup has been
    sent and the callback has not been invoked. *)
Theorem build_rejected_before_request (W : World) (self : PulseQueue)
    (data : pyval) (tr : trace) :
  ~ Build_accepted self data ->
  fst (NormalizedBuildQueue_on_message W self data tr) = tr /\
  exists e, snd (NormalizedBuildQueue_on_message W self data tr) = inl (Exception e).
Proof.
  intro Hnot. unfold NormalizedBuildQueue_on_message.
  reject_lift. reject_check.
  reject_lift. reject_check.
  reject_lift. reject_check.
  reject_lift. reject_check.
  reject_lift. reject_check.
  exfalso. apply Hnot. unfold Build_accepted. do 5 eexists.
  repeat split; eassumption.
Qed.

Lemma build_rejected_before_request_witness :
  let payload := PDict [("tree", PStr "mozilla-aurora"); ("product", PStr "Firefox")] in
  NormalizedBuildQueue_on_message Sample.world (Sample.queue Sample.quiet) payload []
  = ([], inl (Exception (ValueError "Cancel build request due to invalid tree: "
                           (Some (PStr "mozilla-aurora"))))).
Proof.
  intro payload.
  destruct (build_rejected_before_request Sample.world (Sample.queue Sample.quiet)
              payload []) as (Hfst & e & Hsnd).
  - intros (tree & product & platform & tags & locale & Htree & Hvalid & _).
    injection Htree as <-. discriminate Hvalid.
  - destruct (NormalizedBuildQueue_on_message Sample.world (Sample.queue Sample.quiet)
                payload []) as [tr' r] eqn:E.
    simpl in Hfst, Hsnd. subst tr' r.
    vm_compute in E. injection E as <-. reflexivity.
Defined.

(** ** A policy without trees *)

(** The dispatcher adds log entries and the acknowledgement to what the
    stages did, nothing else. *)
Lemma process_message_calls (cls : QueueClass) (self : PulseQueue)
    (body : pyval) (msg : option message) (tr : trace) :
  calls (fst (process_message cls self body msg tr))
  = calls (fst (stages cls self body msg tr)).
Proof.
  rewrite process_message_run. simpl. rewrite try_except_log_handlers.
  destruct (snd (stages cls self body msg tr)) as [[e|name]|a]; simpl;
    rewrite !calls_app; destruct msg; simpl; now rewrite !app_nil_r.
Qed.

Lemma no_tree_no_product (self : PulseQueue) :
  (pulse_config self = PDict [] \/
   exists cfg, pulse_config self = PDict cfg /\ dict_get "trees" cfg = Some (PDict [])) ->
  forall tree product, is_valid_product self tree product <> inr true.
Proof.
  intros Hcfg tree product. unfold is_valid_product, tree_entry, getitem_str.
  destruct Hcfg as [->|(cfg & -> & Htrees)]; simpl; [discriminate|].
  rewrite Htrees. simpl. destruct tree; simpl; discriminate.
Qed.

(** X9. With a policy document that is empty, or whose tree mapping is
    empty, no message of any family is turned into a record: the callback is
    never invoked, although [is_valid_tree] accepts every tree for the empty
    mapping, because the product check raises for every tree. *)
Theorem empty_policy_emits_nothing (W : World) (cls : QueueClass) (self : PulseQueue)
    (body : pyval) (msg : option message) (tr : trace) :
  (pulse_config self = PDict [] \/
   exists cfg, pulse_config self = PDict cfg /\ dict_get "trees" cfg = Some (PDict [])) ->
  In cls (families W) ->
  calls (fst (process_message cls self body msg tr)) = calls tr.
Proof.
  intros Hcfg Hcls. rewrite process_message_calls.
  pose proof (no_tree_no_product self Hcfg) as Hno.
  assert (Hsat : sat no_callback (fun _ => True) (stages cls self body msg)).
  { unfold stages.
    apply sat_bind; [now apply sat_emit | intros _ _].
    destruct Hcls as [<-|[<-|[<-|[]]]]; simpl.
    - apply sat_bind; [now apply NormalizedBuildQueue_preprocess_message_sat|].
      intros data _.
      eapply sat_weaken;
        [| |apply (NormalizedBuildQueue_on_message_accepted W self (fun _ => True)
                     (fun _ => I) (fun _ _ _ _ => I))]; auto.
      intros kw (tree & product & platform & tags & locale & _ & _ & _ & Hp & _).
      now apply Hno in Hp.
    - apply sat_bind; [now apply FunsizeTaskCompletedQueue_preprocess_message_sat|].
      intros data _.
      eapply sat_weaken;
        [| |apply (FunsizeTaskCompletedQueue_on_message_accepted self (fun _ => True)
                     (fun _ => I) (fun _ _ _ _ => I))]; auto.
      intros kw (update & _ & tree & product & platform & locale & _ & _ & _ & Hp & _).
      now apply Hno in Hp.
    - apply sat_bind; [now apply ReleaseTaskCompletedQueue_preprocess_message_sat|].
      intros data _.
      eapply sat_weaken;
        [| |apply (ReleaseTaskCompletedQueue_on_message_accepted self (fun _ => True)
                     (fun _ => I) (fun _ _ _ _ => I))]; auto.
      intros kw (locale & _ & tree & product & platform & _ & _ & _ & Hp & _).
      now apply Hno in Hp. }
  destruct (Hsat tr) as (new & -> & Hev & _).
  rewrite calls_app, (calls_no_callback new Hev). apply app_nil_r.
Qed.

Lemma empty_policy_emits_nothing_witness :
  calls (fst (process_message (NormalizedBuildQueue Sample.world)
                (PulseQueue_init Sample.quiet Sample.empty_config)
                (Sample.build_payload "en-US") None [])) = [] /\
  is_valid_tree (PulseQueue_init Sample.quiet Sample.empty_config)
    (PStr "mozilla-central") = inr true.
Proof.
  split; [|reflexivity].
  apply (empty_policy_emits_nothing Sample.world (NormalizedBuildQueue Sample.world)
           (PulseQueue_init Sample.quiet Sample.empty_config)
           (Sample.build_payload "en-US") None []).
  - right. exists [("trees", PDict [])]. split; reflexivity.
  - left. reflexivity.
Defined.

(** ** Without a transport message, and with an envelope *)

(** X10. [process_message] called without a transport message, as it is
    for a message pushed by hand, acknowledges nothing, whatever the stages
    do. *)
Theorem process_message_without_message (W : World) (cls : QueueClass)
    (self : PulseQueue) (body : pyval) (tr : trace) :
  In cls (families W) ->
  acks (fst (process_message cls self body None tr)) = acks tr.
Proof.
  intros Hcls. rewrite process_message_run. simpl.
  rewrite try_except_log_handlers.
  destruct (stages_sat W self (fun _ => True) (fun _ => I) (fun _ _ _ _ => I)
              cls body None Hcls tr) as (new & Hfst & Hev & _).
  assert (Hnew : acks (fst (stages cls self body None tr)) = acks tr).
  { rewrite Hfst, acks_app, (acks_event_ok _ _ Hev). apply Nat.add_0_r. }
  destruct (snd (stages cls self body None tr)) as [[e'|name]|a]; simpl;
    rewrite !acks_app, Hnew; simpl; lia.
Qed.

Lemma process_message_without_message_witness :
  In (NormalizedBuildQueue Sample.world) (families Sample.world) /\
  acks (fst (process_message (NormalizedBuildQueue Sample.world)
               (Sample.queue Sample.quiet) (Sample.build_payload "en-US") None [])) = 0.
Proof.
  split; [left; reflexivity|].
  apply (process_message_without_message Sample.world
           (NormalizedBuildQueue Sample.world) (Sample.queue Sample.quiet)
           (Sample.build_payload "en-US") []).
  left. reflexivity.
Defined.

(** X11. A Build-Completed message is handled the same whether the payload
    comes in an envelope, under the key [payload], or bare: the two runs of
    [process_message] are equal. *)
Theorem build_envelope_is_stripped (W : World) (self : PulseQueue)
    (envelope payload : dict) (msg : option message) (tr : trace) :
  dict_get "payload" envelope = Some (PDict payload) ->
  dict_get "payload" payload = None ->
  process_message (NormalizedBuildQueue W) self (PDict envelope) msg tr
  = process_message (NormalizedBuildQueue W) self (PDict payload) msg tr.
Proof.
  intros Henv Hbare.
  unfold process_message, stages. simpl.
  unfold NormalizedBuildQueue_preprocess_message. simpl.
  now rewrite Henv, Hbare.
Qed.

Lemma build_envelope_is_stripped_witness :
  process_message (NormalizedBuildQueue Sample.world) (Sample.queue Sample.quiet)
    (PDict [("payload", Sample.build_payload "de"); ("_meta", PDict [])]) None []
  = process_message (NormalizedBuildQueue Sample.world) (Sample.queue Sample.quiet)
      (Sample.build_payload "de") None [].
Proof.
  apply (build_envelope_is_stripped Sample.world (Sample.queue Sample.quiet)
           [("payload", Sample.build_payload "de"); ("_meta", PDict [])]
           match Sample.build_payload "de" with PDict d => d | _ => [] end None []);
    reflexivity.
Defined.

(** ** The updates of one message *)

(** X12. An update that does not pass the four checks of its family (a
    field is missing, or a check returns false or raises) costs one log
    entry and nothing else: the callback is not invoked and nothing is
    raised, so the loop goes on with the next update. *)
Theorem funsize_update_rejected (self : PulseQueue) (update : pyval) (tr : trace) :
  ~ Funsize_accepted self update ->
  exists lvl, Funsize_handle_update self update tr = (tr ++ [Log lvl], inr tt).
Proof.
  intro Hnot. unfold Funsize_handle_update. rewrite try_except_log_handlers.
  assert (Hrun : fst (Funsize_try_update self update tr) = tr /\
                 exists e, snd (Funsize_try_update self update tr) = inl (Exception e)).
  { unfold Funsize_try_update.
    reject_lift. reject_check.
    reject_lift. reject_check.
    reject_lift. reject_check.
    reject_lift. reject_check.
    exfalso. apply Hnot. unfold Funsize_accepted. do 4 eexists.
    repeat split; eassumption. }
  destruct Hrun as (Hfst & e & Hsnd). rewrite Hsnd, Hfst. eauto.
Qed.

Lemma funsize_update_rejected_witness :
  Funsize_handle_update (Sample.queue Sample.quiet)
    (PDict [("branch", PStr "mozilla-aurora")]) []
  = ([Log INFO], inr tt).
Proof.
  destruct (funsize_update_rejected (Sample.queue Sample.quiet)
              (PDict [("branch", PStr "mozilla-aurora")]) []) as (lvl & H).
  - intros (tree & product & platform & locale & Htree & Hvalid & _).
    injection Htree as <-. discriminate Hvalid.
  - rewrite H. vm_compute in H. injection H as <-. reflexivity.
Defined.

Lemma for_each_app {A : Type} (l l' : list A) (body : A -> M unit) (tr : trace) :
  (forall x tr', snd (body x tr') = inr tt) ->
  for_each (l ++ l') body tr = for_each l' body (fst (for_each l body tr)) /\
  snd (for_each l body tr) = inr tt.
Proof.
  intro Hbody. revert tr. induction l as [|x l IH]; intro tr; simpl.
  - now split.
  - unfold bind. specialize (Hbody x tr).
    destruct (body x tr) as [tr' r]. simpl in Hbody. subst r. apply IH.
Qed.

(** X13. With a callback that raises exceptions only, a list of updates is
    handled element by element and never raises: the run on a list is the
    run on its first part followed by the run on the rest, started from the
    trace the first part has left. *)
Theorem funsize_updates_compose (self : PulseQueue) (first rest : list pyval) (tr : trace) :
  callback_raises_exceptions self ->
  snd (FunsizeTaskCompletedQueue_on_message self (PList first) tr) = inr tt /\
  FunsizeTaskCompletedQueue_on_message self (PList (first ++ rest)) tr
  = FunsizeTaskCompletedQueue_on_message self (PList rest)
      (fst (FunsizeTaskCompletedQueue_on_message self (PList first) tr)).
Proof.
  intro Hexc. unfold FunsizeTaskCompletedQueue_on_message.
  rewrite !run_lift with (a := first) by reflexivity.
  rewrite run_lift with (a := (first ++ rest)%list) by reflexivity.
  rewrite run_lift with (a := rest) by reflexivity.
  destruct (for_each_app first rest (Funsize_handle_update self) tr) as (Happ & Hret).
  - intros x tr'. now apply Funsize_handle_update_returns.
  - now split.
Qed.

Lemma funsize_updates_compose_witness :
  let self := Sample.queue Sample.quiet in
  callback_raises_exceptions self /\
  FunsizeTaskCompletedQueue_on_message self
    (PList [PNone; Sample.update_payload]) []
  = FunsizeTaskCompletedQueue_on_message self (PList [Sample.update_payload])
      [Log EXCEPTION].
Proof.
  intro self.
  assert (Hexc : callback_raises_exceptions self)
    by (intros history kw e H; discriminate H).
  split; [exact Hexc|].
  exact (proj2 (funsize_updates_compose self [PNone] [Sample.update_payload] [] Hexc)).
Defined.

(** ** The pre-filters on the routing keys *)

Lemma not_value_error_rbind {A B : Type} (r : res A) (k : A -> res B) :
  not_value_error r -> (forall a, not_value_error (k a)) ->
  not_value_error (rbind r k).
Proof.
  intros Hr Hk e. destruct r as [e'|a]; simpl.
  - intros [= <-]. now apply Hr.
  - apply Hk.
Qed.

Lemma not_value_error_getitem (o k : pyval) : not_value_error (py_getitem o k).
Proof.
  intros e. unfold py_getitem, list_index.
  destruct o; try (intros [= <-]; reflexivity);
    destruct k; try (intros [= <-]; reflexivity);
    repeat match goal with
           | |- context [match ?x with _ => _ end] => destruct x
           end;
    try discriminate; intros [= <-]; reflexivity.
Qed.

Lemma not_value_error_contains (c x : pyval) : not_value_error (py_contains c x).
Proof.
  intros e. unfold py_contains.
  destruct c; try (intros [= <-]; reflexivity);
    destruct x; try discriminate; intros [= <-]; reflexivity.
Qed.

Lemma not_value_error_keys (o : pyval) : not_value_error (py_keys o).
Proof.
  intros e. destruct o; simpl; try discriminate; intros [= <-]; reflexivity.
Qed.

Lemma not_value_error_is_valid_tree (self : PulseQueue) (tree : pyval) :
  not_value_error (is_valid_tree self tree).
Proof.
  unfold is_valid_tree, getitem_str.
  apply not_value_error_rbind; [apply not_value_error_getitem | intro mapping].
  apply not_value_error_rbind; [apply not_value_error_keys | intro trees].
  destruct (negb (py_truthy trees)); [discriminate | apply not_value_error_contains].
Qed.

Lemma not_value_error_is_valid_platform (self : PulseQueue) (tree platform : pyval) :
  not_value_error (is_valid_platform self tree platform).
Proof.
  unfold is_valid_platform, tree_entry, getitem_str.
  apply not_value_error_rbind.
  - apply not_value_error_rbind; [apply not_value_error_getitem | intro trees].
    apply not_value_error_rbind; [apply not_value_error_getitem | intro entry].
    apply not_value_error_getitem.
  - intro platforms.
    destruct (negb (py_truthy platforms)); [discriminate | apply not_value_error_contains].
Qed.

(** One routing key: a rejected key raises [ValueError] after one log
    entry, any other key leaves log entries at most and returns. *)
Lemma Funsize_check_routing_key_run (W : World) (self : PulseQueue)
    (key : pyval) (tr : trace) :
  exists new,
    Forall is_log new /\
    fst (Funsize_check_routing_key W self key tr) = tr ++ new /\
    (cc_key_rejected W self key = true ->
     exists msg arg,
       snd (Funsize_check_routing_key W self key tr) = inl (Exception (ValueError msg arg))) /\
    (cc_key_rejected W self key = false ->
     snd (Funsize_check_routing_key W self key tr) = inr tt).
Proof.
  unfold Funsize_check_routing_key, cc_key_rejected, try_except.
  destruct key as [| | |k| |];
    try (exists [Log EXCEPTION]; simpl; repeat split;
         [repeat constructor | discriminate]).
  destruct (cc_key_search_funsize W k) as [[tree platform]|].
  2:{ exists []. simpl. rewrite app_nil_r.
      repeat split; [constructor | discriminate]. }
  pose proof (not_value_error_is_valid_tree self (PStr tree)) as Htree.
  pose proof (not_value_error_is_valid_platform self (PStr tree) (PStr platform))
    as Hplatform.
  unfold bind, emit, check, lift, raise. simpl.
  destruct (is_valid_tree self (PStr tree)) as [e|[|]]; simpl.
  - pose proof (Htree e eq_refl) as Hne. unfold is_ValueError in Hne.
    rewrite Hne. simpl.
    exists [Log DEBUG; Log EXCEPTION]. rewrite <- app_assoc. simpl.
    repeat split; [repeat constructor | discriminate].
  - destruct (is_valid_platform self (PStr tree) (PStr platform)) as [e|[|]]; simpl.
    + pose proof (Hplatform e eq_refl) as Hne. unfold is_ValueError in Hne.
      rewrite Hne. simpl.
      exists [Log DEBUG; Log EXCEPTION]. rewrite <- app_assoc. simpl.
      repeat split; [repeat constructor | discriminate].
    + exists [Log DEBUG]. repeat split; [repeat constructor | discriminate].
    + exists [Log DEBUG]. repeat split; [repeat constructor | eauto | discriminate].
  - exists [Log DEBUG]. repeat split; [repeat constructor | eauto | discriminate].
Qed.

Lemma Funsize_routing_keys_run (W : World) (self : PulseQueue)
    (keys : list pyval) (tr : trace) :
  exists new,
    Forall is_log new /\
    fst (for_each keys (Funsize_check_routing_key W self) tr) = tr ++ new /\
    (existsb (cc_key_rejected W self) keys = true ->
     exists msg arg,
       snd (for_each keys (Funsize_check_routing_key W self) tr)
       = inl (Exception (ValueError msg arg))) /\
    (existsb (cc_key_rejected W self) keys = false ->
     snd (for_each keys (Funsize_check_routing_key W self) tr) = inr tt).
Proof.
  revert tr. induction keys as [|key keys IH]; intro tr; simpl.
  - exists []. rewrite app_nil_r. repeat split; [constructor | discriminate].
  - destruct (Funsize_check_routing_key_run W self key tr)
      as (new & Hlog & Hfst & Hrej & Hok).
    unfold bind.
    destruct (Funsize_check_routing_key W self key tr) as [tr' r]. simpl in *.
    subst tr'. destruct (cc_key_rejected W self key); simpl.
    + destruct (Hrej eq_refl) as (msg & arg & ->).
      exists new. simpl. repeat split; eauto; discriminate.
    + rewrite (Hok eq_refl).
      destruct (IH (tr ++ new)) as (new' & Hlog' & Hfst' & Hrej' & Hok').
      exists (new ++ new'). rewrite app_assoc.
      repeat split; auto. now apply Forall_app.
Qed.

(** With a transport message, the loop over its routing keys comes
    first. *)
Lemma Funsize_preprocess_with_message (W : World) (self : PulseQueue)
    (body : pyval) (m : message) (tr : trace) :
  FunsizeTaskCompletedQueue_preprocess_message W self body (Some m) tr
  = bind (keys <- lift (let? cc := getitem_str (headers m) "CC" in py_iter cc) ;;
          for_each keys (Funsize_check_routing_key W self))
         (fun _ => FunsizeTaskCompletedQueue_preprocess_message W self body None) tr.
Proof. reflexivity. Qed.

(** X14. The pre-filter of the update notifications, for a message with
    carbon-copy routing keys. When a key matches the pattern and names a
    tree the policy has but rejects, or a platform it rejects, preprocessing
    raises [ValueError] with log entries only in the trace: nothing is
    requested or downloaded. Otherwise (keys that do not match, keys that
    are not strings, checks that raise) the message is preprocessed as one
    without a transport message, after the log entries. *)
Theorem funsize_prefilter (W : World) (self : PulseQueue) (body : pyval)
    (m : message) (cc : pyval) (keys : list pyval) (tr : trace) :
  getitem_str (headers m) "CC" = inr cc ->
  py_iter cc = inr keys ->
  (existsb (cc_key_rejected W self) keys = true ->
   exists new msg arg,
     Forall is_log new /\
     FunsizeTaskCompletedQueue_preprocess_message W self body (Some m) tr
     = (tr ++ new, inl (Exception (ValueError msg arg)))) /\
  (existsb (cc_key_rejected W self) keys = false ->
   exists new,
     Forall is_log new /\
     FunsizeTaskCompletedQueue_preprocess_message W self body (Some m) tr
     = FunsizeTaskCompletedQueue_preprocess_message W self body None (tr ++ new)).
Proof.
  intros Hcc Hiter.
  destruct (Funsize_routing_keys_run W self keys tr) as (new & Hlog & Hfst & Hrej & Hok).
  assert (Hrun : FunsizeTaskCompletedQueue_preprocess_message W self body (Some m) tr
                 = let (tr', o) := for_each keys (Funsize_check_routing_key W self) tr in
                   match o with
                   | inl e => (tr', inl e)
                   | inr _ =>
                       FunsizeTaskCompletedQueue_preprocess_message W self body None tr'
                   end).
  { rewrite Funsize_preprocess_with_message. unfold bind, lift.
    rewrite Hcc. cbn [rbind]. rewrite Hiter. reflexivity. }
  rewrite Hrun.
  destruct (for_each keys (Funsize_check_routing_key W self) tr) as [tr' r].
  simpl in Hfst, Hrej, Hok. subst tr'. split; intro Hex.
  - destruct (Hrej Hex) as (msg & arg & ->). exists new, msg, arg. now split.
  - rewrite (Hok Hex). exists new. split; [exact Hlog | reflexivity].
Qed.

Lemma funsize_prefilter_witness :
  let W := {| http_get := fun _ _ => inl "ConnectionError";
              buildUrl := fun method _ => method;
              cc_key_search_funsize := fun key =>
                if String.eqb key "index.funsize.v1.mozilla-aurora.latest.win32.4.5.balrog"
                then Some ("mozilla-aurora", "win32") else None;
              cc_key_search_release := fun _ => false;
              scheduled_buildid := fun _ => None;
              format_other := fun _ => "" |} in
  let m := {| headers :=
                PDict [("CC",
                        PList [PStr "route.other";
                               PStr "index.funsize.v1.mozilla-aurora.latest.win32.4.5.balrog"])] |} in
  FunsizeTaskCompletedQueue_preprocess_message W (Sample.queue Sample.quiet)
    (PDict [("workerId", PStr "w")]) (Some m) []
  = ([Log DEBUG],
     inl (Exception (ValueError "Cancel update request due to invalid tree: "
                       (Some (PStr "mozilla-aurora"))))).
Proof.
  intros W m.
  destruct (funsize_prefilter W (Sample.queue Sample.quiet)
              (PDict [("workerId", PStr "w")]) m _ _ [] eq_refl eq_refl) as (Hrej & _).
  destruct (Hrej eq_refl) as (new & msg & arg & _ & Hrun).
  rewrite Hrun. vm_compute in Hrun. injection Hrun as <- <- <-. reflexivity.
Defined.

Lemma run_emit {B : Type} (ev : event) (k : unit -> M B) (tr : trace) :
  bind (emit ev) k tr = k tt (tr ++ [ev]).
Proof. reflexivity. Qed.

Lemma Release_any_match_strings (W : World) (keys : list string) :
  Release_any_match W (map PStr keys) = inr (existsb (cc_key_search_release W) keys).
Proof.
  induction keys as [|key keys IH]; simpl; [reflexivity|]. now rewrite IH.
Qed.

(** X15. The pre-filter of the release notifications, for a message whose
    carbon-copy routing keys are strings. When no key matches the pattern,
    preprocessing raises [ValueError] after one log entry and nothing is
    requested; when one matches, the message is preprocessed as one without
    a transport message, after the log entry. The tree a key names is not
    checked here. *)
Theorem release_prefilter (W : World) (self : PulseQueue) (body : pyval)
    (m : message) (keys : list string) (tr : trace) :
  getitem_str (headers m) "CC" = inr (PList (map PStr keys)) ->
  ReleaseTaskCompletedQueue_preprocess_message W self body (Some m) tr
  = if existsb (cc_key_search_release W) keys
    then ReleaseTaskCompletedQueue_preprocess_message W self body None (tr ++ [Log DEBUG])
    else (tr ++ [Log DEBUG],
          inl (Exception (ValueError "Routing keys do not match. Skipping message." None))).
Proof.
  intro Hcc. unfold ReleaseTaskCompletedQueue_preprocess_message.
  unfold bind at 1.
  erewrite run_lift by exact Hcc.
  rewrite run_emit.
  erewrite run_lift by (rewrite Hcc; reflexivity).
  erewrite run_lift by apply Release_any_match_strings.
  destruct (existsb (cc_key_search_release W) keys); reflexivity.
Qed.

Lemma release_prefilter_witness :
  let m := {| headers := PDict [("CC", PList [PStr "route.index.other"])] |} in
  ReleaseTaskCompletedQueue_preprocess_message Sample.world (Sample.queue Sample.quiet)
    (PDict [("workerId", PStr "w")]) (Some m) []
  = ([Log DEBUG],
     inl (Exception (ValueError "Routing keys do not match. Skipping message." None))).
Proof.
  intro m.
  apply (release_prefilter Sample.world (Sample.queue Sample.quiet)
           (PDict [("workerId", PStr "w")]) m ["route.index.other"] [] eq_refl).
Defined.

(** ** Downloading the manifest *)

Lemma closes_app (a b : trace) : closes (a ++ b) = closes a + closes b.
Proof.
  induction a as [|ev a IH]; simpl; [reflexivity|].
  destruct ev; simpl; now rewrite IH.
Qed.

Lemma requests_app (a b : trace) : requests (a ++ b) = requests a ++ requests b.
Proof.
  induction a as [|ev a IH]; simpl; [reflexivity|].
  destruct ev; simpl; now rewrite IH.
Qed.

Lemma closes_logs (new : trace) : Forall is_log new -> closes new = 0.
Proof.
  induction 1 as [|ev new Hev _ IH]; simpl; [reflexivity|].
  destruct ev; simpl in *; auto; contradiction.
Qed.

Lemma requests_logs (new : trace) : Forall is_log new -> requests new = [].
Proof.
  induction 1 as [|ev new Hev _ IH]; simpl; [reflexivity|].
  destruct ev; simpl in *; auto; contradiction.
Qed.

Lemma emits_only_ret {A : Type} (P : event -> Prop) (a : A) : emits_only P (ret a).
Proof. intro tr. exists []. simpl. now rewrite app_nil_r. Qed.

Lemma emits_only_raise {A : Type} (P : event -> Prop) (e : exn) :
  emits_only P (@raise A e).
Proof. intro tr. exists []. simpl. now rewrite app_nil_r. Qed.

Lemma emits_only_lift {A : Type} (P : event -> Prop) (r : res A) :
  emits_only P (lift r).
Proof. intro tr. exists []. simpl. now rewrite app_nil_r. Qed.

Lemma emits_only_emit (P : event -> Prop) (ev : event) :
  P ev -> emits_only P (emit ev).
Proof. intros Hev tr. exists [ev]. simpl. auto. Qed.

Lemma emits_only_bind {A B : Type} (P : event -> Prop) (m : M A) (k : A -> M B) :
  emits_only P m -> (forall a, emits_only P (k a)) -> emits_only P (bind m k).
Proof.
  intros Hm Hk tr. unfold bind.
  destruct (Hm tr) as (new & Hfst & Hev).
  destruct (m tr) as [tr' [e|a]]; simpl in *; subst tr'.
  - now exists new.
  - destruct (Hk a (tr ++ new)) as (new' & Hfst' & Hev').
    exists (new ++ new'). rewrite app_assoc. split; [exact Hfst'|].
    now apply Forall_app.
Qed.

Lemma emits_only_raise_for_status (P : event -> Prop) (r : response) :
  emits_only P (raise_for_status r).
Proof.
  unfold raise_for_status.
  destruct (_ && _)%bool; [apply emits_only_raise | apply emits_only_ret].
Qed.

Lemma emits_only_response_json (P : event -> Prop) (r : response) :
  emits_only P (response_json r).
Proof.
  unfold response_json.
  destruct (body_json r); [apply emits_only_ret | apply emits_only_raise].
Qed.

Ltac emits_only_step :=
  lazymatch goal with
  | |- emits_only _ (ret _) => apply emits_only_ret
  | |- emits_only _ (raise _) => apply emits_only_raise
  | |- emits_only _ (lift _) => apply emits_only_lift
  | |- emits_only _ (emit _) => apply emits_only_emit; exact I
  | |- emits_only _ (raise_for_status _) => apply emits_only_raise_for_status
  | |- emits_only _ (response_json _) => apply emits_only_response_json
  | |- emits_only _ (bind _ _) => apply emits_only_bind; [|intros ?]
  end.

Lemma run_bind_assoc {A B C : Type} (m : M A) (f : A -> M B) (k : B -> M C) (tr : trace) :
  bind (bind m f) k tr = bind m (fun a => bind (f a) k) tr.
Proof. unfold bind. now destruct (m tr) as [tr' [e|a]]. Qed.

Lemma run_ret {A B : Type} (a : A) (k : A -> M B) (tr : trace) :
  bind (ret a) k tr = k a tr.
Proof. reflexivity. Qed.

(** The [finally] clause that closes the response. *)
Lemma try_finally_close {A : Type} (m : M A) (tr : trace) :
  try_finally m (emit Close) tr = (fst (m tr) ++ [Close], snd (m tr)).
Proof. unfold try_finally, emit. now destruct (m tr). Qed.

(** X16. Preprocessing an update notification that names a worker: one
    request is sent, for the artifact [public/env/manifest.json] of the
    task, without a timeout. When the request itself fails nothing more is
    done and its exception is raised. When it is answered the response is
    closed exactly once, whether the status is an error, the body is not
    JSON, or the manifest is returned; the manifest returned is the JSON
    document as it is. *)
Theorem funsize_manifest_download (W : World) (self : PulseQueue) (body task_id : pyval)
    (tr : trace) :
  py_contains body (PStr "workerId") = inr true ->
  (let? status := getitem_str body "status" in getitem_str status "taskId") = inr task_id ->
  let url := buildUrl W "getLatestArtifact" [task_id; PStr "public/env/manifest.json"] in
  let out := FunsizeTaskCompletedQueue_preprocess_message W self body None tr in
  (forall name, http_get W url None = inl name ->
     out = (tr ++ [Request url None], inl (Exception (RequestException name)))) /\
  (forall r, http_get W url None = inr r ->
     requests (fst out) = requests tr ++ [(url, None)] /\
     closes (fst out) = closes tr + 1 /\
     snd out =
       if (Z.leb 400 (status_code r) && Z.ltb (status_code r) 600)%bool
       then inl (Exception (HTTPError (status_code r)))
       else match body_json r with
            | Some manifest => inr manifest
            | None => inl (Exception (ValueError "No JSON object could be decoded" None))
            end).
Proof.
  intros Hworker Htask url out. subst out.
  unfold FunsizeTaskCompletedQueue_preprocess_message.
  rewrite run_ret.
  erewrite run_lift by exact Hworker. cbn [negb].
  erewrite run_lift by exact Htask.
  fold url. unfold requests_get. rewrite run_bind_assoc, run_emit. split.
  - intros name ->. reflexivity.
  - intros r ->. rewrite run_ret, try_finally_close. cbn [fst snd].
    set (block := raise_for_status r ;;;
                  manifest <- response_json r ;; emit (Log DEBUG) ;;; ret manifest).
    assert (Hlogs : emits_only is_log block) by (unfold block; repeat emits_only_step).
    destruct (Hlogs (tr ++ [Request url None])) as (new & Hfst & Hnew).
    rewrite Hfst, !requests_app, !closes_app, (requests_logs new Hnew),
      (closes_logs new Hnew). simpl. rewrite !app_nil_r.
    repeat split; [lia|].
    unfold block, raise_for_status, response_json, bind, emit, ret, raise.
    destruct (_ && _)%bool; [reflexivity|]. now destruct (body_json r).
Qed.

Lemma funsize_manifest_download_witness :
  let body := PDict [("workerId", PStr "w");
                     ("status", PDict [("taskId", PStr "T1")])] in
  FunsizeTaskCompletedQueue_preprocess_message Sample.world (Sample.queue Sample.quiet)
    body None []
  = ([Request "https://queue.taskcluster.net/v1/getLatestArtifact" None; Close],
     inl (Exception (HTTPError 404))).
Proof.
  intro body.
  destruct (funsize_manifest_download Sample.world (Sample.queue Sample.quiet)
              body (PStr "T1") [] eq_refl eq_refl) as (_ & Hanswered).
  destruct (Hanswered _ eq_refl) as (_ & _ & Hsnd).
  destruct (FunsizeTaskCompletedQueue_preprocess_message Sample.world
              (Sample.queue Sample.quiet) body None []) as [tr' r] eqn:E.
  simpl in Hsnd. subst r. vm_compute in E. injection E as <-. reflexivity.
Defined.

(** The build id made from the time of the last run touches no other key of
    the manifest, and leaves the manifest as it is when that time cannot be
    had. *)
Lemma Release_fake_buildid_keys (W : World) (body : pyval) (m : dict) :
  exists m',
    Release_fake_buildid W body (PDict m) = PDict m' /\
    forall k, k <> "buildid" -> dict_get k m' = dict_get k m.
Proof.
  unfold Release_fake_buildid.
  destruct (let? status := getitem_str body "status" in
            let? runs := getitem_str status "runs" in
            let? last := py_getitem runs (PInt (-1)) in
            getitem_str last "scheduled") as [e|scheduled]; [now exists m|].
  destruct (scheduled_buildid W scheduled) as [buildid|]; [|now exists m].
  simpl. eexists. split; [reflexivity|].
  intros k Hk. now apply dict_get_set_other.
Qed.

(** X17. Preprocessing a release notification that names a worker: one
    request is sent, for the task, without a timeout. When the request
    itself fails its exception is raised and nothing more is done. When it
    is answered the trace gets the request and the closing of the response,
    on every path. With a good status and a JSON body whose
    [extra.build_props] is a dictionary with a [branch], the manifest
    returned is that dictionary with [tree] set to [release-<branch>] and
    [product] to [firefox], every key but [tree], [product] and [buildid]
    as it was; without [build_props] a [TypeError] is raised. *)
Theorem release_manifest_download (W : World) (self : PulseQueue) (body task_id : pyval)
    (tr : trace) :
  py_contains body (PStr "workerId") = inr true ->
  (let? status := getitem_str body "status" in getitem_str status "taskId") = inr task_id ->
  let url := buildUrl W "task" [task_id] in
  let out := ReleaseTaskCompletedQueue_preprocess_message W self body None tr in
  (forall name, http_get W url None = inl name ->
     out = (tr ++ [Request url None], inl (Exception (RequestException name)))) /\
  (forall r, http_get W url None = inr r ->
     fst out = tr ++ [Request url None; Close] /\
     ((Z.leb 400 (status_code r) && Z.ltb (status_code r) 600)%bool = true ->
      snd out = inl (Exception (HTTPError (status_code r)))) /\
     ((Z.leb 400 (status_code r) && Z.ltb (status_code r) 600)%bool = false ->
      forall j, body_json r = Some j ->
        (forall m branch,
           (let? extra := py_get j "extra" (PDict []) in
            py_get extra "build_props" PNone) = inr (PDict m) ->
           dict_get "branch" m = Some branch ->
           exists manifest,
             snd out = inr (PDict manifest) /\
             dict_get "tree" manifest = Some (PStr ("release-" ++ py_format W branch)) /\
             dict_get "product" manifest = Some (PStr "firefox") /\
             forall k, k <> "tree" -> k <> "product" -> k <> "buildid" ->
                       dict_get k manifest = dict_get k m) /\
        ((let? extra := py_get j "extra" (PDict []) in
          py_get extra "build_props" PNone) = inr PNone ->
         snd out = inl (Exception TypeError)))).
Proof.
  intros Hworker Htask url out. subst out.
  unfold ReleaseTaskCompletedQueue_preprocess_message.
  rewrite run_ret.
  erewrite run_lift by exact Hworker. cbn [negb].
  erewrite run_lift by exact Htask.
  fold url. unfold requests_get. rewrite run_bind_assoc, run_emit. split.
  - intros name ->. reflexivity.
  - intros r ->. rewrite run_ret, try_finally_close. cbn [fst snd].
    set (tr1 := tr ++ [Request url None]).
    split; [|split].
    + match goal with
      | |- fst (?block tr1) ++ _ = _ =>
          assert (Hquiet : emits_only (fun _ => False) block)
            by repeat emits_only_step;
          destruct (Hquiet tr1) as (new & Hfst & Hnew)
      end.
      rewrite Hfst. destruct new as [|ev new]; [|now inversion Hnew].
      subst tr1. now rewrite app_nil_r, <- app_assoc.
    + intro Herr. unfold bind at 1, raise_for_status. now rewrite Herr.
    + intros Hok j Hjson. unfold raise_for_status, response_json.
      rewrite Hok, Hjson, !run_ret.
      split.
      * intros m branch Hprops Hbranch.
        erewrite run_lift by exact Hprops.
        erewrite run_lift by (unfold getitem_str; simpl; rewrite Hbranch; reflexivity).
        erewrite run_lift by reflexivity.
        erewrite run_lift by reflexivity.
        cbn [ret snd].
        destruct (Release_fake_buildid_keys W body
                    (dict_set "product" (PStr "firefox")
                       (dict_set "tree" (PStr ("release-" ++ py_format W branch)) m)))
          as (manifest & -> & Hkeys).
        exists manifest. split; [reflexivity|].
        rewrite !Hkeys by discriminate.
        rewrite dict_get_set_other by discriminate.
        rewrite !dict_get_set_same. repeat split.
        intros k Hk1 Hk2 Hk3. rewrite Hkeys by exact Hk3.
        now rewrite !dict_get_set_other by auto.
      * intro Hprops. erewrite run_lift by exact Hprops. reflexivity.
Qed.

Lemma release_manifest_download_witness :
  let W := {| http_get := fun _ _ =>
                inr {| status_code := 200;
                       body_json :=
                         Some (PDict [("extra",
                                       PDict [("build_props",
                                               PDict [("branch", PStr "mozilla-beta");
                                                      ("version", PStr "37.0b1")])])]) |};
              buildUrl := fun method _ => method;
              cc_key_search_funsize := fun _ => None;
              cc_key_search_release := fun _ => true;
              scheduled_buildid := fun _ => Some "201501010302";
              format_other := fun _ => "" |} in
  let body := PDict [("workerId", PStr "w");
                     ("status", PDict [("taskId", PStr "T1")])] in
  ReleaseTaskCompletedQueue_preprocess_message W (Sample.queue Sample.quiet) body None []
  = ([Request "task" None; Close],
     inr (PDict [("branch", PStr "mozilla-beta"); ("version", PStr "37.0b1");
                 ("tree", PStr "release-mozilla-beta"); ("product", PStr "firefox")])).
Proof.
  intros W body.
  destruct (release_manifest_download W (Sample.queue Sample.quiet) body (PStr "T1") []
              eq_refl eq_refl) as (_ & Hanswered).
  destruct (Hanswered _ eq_refl) as (Hfst & _ & _).
  destruct (ReleaseTaskCompletedQueue_preprocess_message W (Sample.queue Sample.quiet)
              body None []) as [tr' r] eqn:E.
  simpl in Hfst. subst tr'. vm_compute in E. injection E as <-. reflexivity.
Defined.

(** ** A release with one locale, and a release that is refused *)

(** X18. A Release-Artifact-Completed payload that passes the tree, product
    and platform checks and has a [locale]: that locale alone is handled,
    whatever [locales] the payload may have as well. When the locale is
    valid the callback gets one record, whose [raw_json] is the payload as
    it came; when it is not, none. With a callback that raises exceptions
    only, nothing is raised. *)
Theorem release_single_locale (self : PulseQueue) (d : dict)
    (tree product lowered platform locale branch buildid revision version : pyval)
    (tr : trace) :
  dict_get "tree" d = Some tree ->
  is_valid_tree self tree = inr true ->
  dict_get "product" d = Some product ->
  py_lower product = inr lowered ->
  is_valid_product self tree lowered = inr true ->
  dict_get "platform" d = Some platform ->
  is_valid_platform self tree platform = inr true ->
  dict_get "locale" d = Some locale ->
  dict_get "branch" d = Some branch ->
  dict_get "buildid" d = Some buildid ->
  dict_get "revision" d = Some revision ->
  dict_get "version" d = Some version ->
  let out := ReleaseTaskCompletedQueue_on_message self (PDict d) tr in
  calls (fst out) =
    calls tr ++ (if locale_accepted self tree locale
                 then [Release_build_properties branch buildid locale platform
                         product revision tree version (PDict d)]
                 else []) /\
  (callback_raises_exceptions self -> snd out = inr tt).
Proof.
  intros Htree Hvt Hproduct Hlower Hvp Hplatform Hvpl Hlocale Hbranch Hbuildid
         Hrevision Hversion out.
  assert (Hrun : out = Release_handle_locale self tree (PDict d) locale tr).
  { subst out. unfold ReleaseTaskCompletedQueue_on_message.
    repeat run_step. unfold dict_has. rewrite Hlocale.
    erewrite run_lift by (unfold getitem_str; simpl; rewrite Hlocale; reflexivity).
    reflexivity. }
  rewrite Hrun. split.
  - now apply Release_handle_locale_calls.
  - intro Hexc. now apply Release_handle_locale_returns.
Qed.

Lemma release_single_locale_witness :
  let payload := PDict (Sample.release_fields
                        ++ [("locale", PStr "en-US");
                            ("locales", PList [PStr "de"; PStr "fr"])]) in
  map raw_json (calls (fst (ReleaseTaskCompletedQueue_on_message
                              (Sample.queue Sample.quiet) payload [])))
  = [Some payload].
Proof.
  intro payload.
  destruct (release_single_locale (Sample.queue Sample.quiet)
              (Sample.release_fields
               ++ [("locale", PStr "en-US"); ("locales", PList [PStr "de"; PStr "fr"])])
              (PStr "release-mozilla-beta") (PStr "firefox") (PStr "firefox")
              (PStr "win32") (PStr "en-US") (PStr "mozilla-beta")
              (PStr "201501010302") (PStr Sample.node) (PStr "37.0b1") []
              eq_refl eq_refl eq_refl eq_refl eq_refl eq_refl eq_refl eq_refl
              eq_refl eq_refl eq_refl eq_refl) as (Hcalls & _).
  exact (f_equal (map raw_json) Hcalls).
Defined.

(** X19. A Release-Artifact-Completed payload that does not pass the tree,
    product and platform checks is given up as a whole: [_on_message] raises
    an exception and leaves the trace as it was, so no locale of the payload
    is looked at and the callback is not invoked. *)
Theorem release_rejected_as_a_whole (self : PulseQueue) (data : pyval) (tr : trace) :
  ~ Release_payload_accepted self data ->
  fst (ReleaseTaskCompletedQueue_on_message self data tr) = tr /\
  exists e, snd (ReleaseTaskCompletedQueue_on_message self data tr) = inl (Exception e).
Proof.
  intro Hnot. unfold ReleaseTaskCompletedQueue_on_message.
  reject_lift. reject_check.
  reject_lift. reject_check.
  reject_lift. reject_check.
  exfalso. apply Hnot. unfold Release_payload_accepted. do 3 eexists.
  repeat split; eassumption.
Qed.

Lemma release_rejected_as_a_whole_witness :
  let payload := PDict [("tree", PStr "release-mozilla-beta");
                        ("product", PStr "Thunderbird");
                        ("locales", PList [PStr "en-US"])] in
  ReleaseTaskCompletedQueue_on_message (Sample.queue Sample.quiet) payload []
  = ([], inl (Exception (ValueError "Cancel build request due to invalid product: "
                           (Some (PStr "thunderbird"))))).
Proof.
  intro payload.
  destruct (release_rejected_as_a_whole (Sample.queue Sample.quiet) payload [])
    as (Hfst & e & Hsnd).
  - intros (tree & product & platform & Htree & _ & Hproduct & Hvalid & _).
    injection Htree as <-. injection Hproduct as <-. discriminate Hvalid.
  - destruct (ReleaseTaskCompletedQueue_on_message (Sample.queue Sample.quiet)
                payload []) as [tr' r] eqn:E.
    simpl in Hfst, Hsnd. subst tr' r.
    vm_compute in E. injection E as <-. reflexivity.
Defined.

(** ** The revision lookup of a build *)

Lemma run_get_long_revision_fails {B : Type} (W : World) (repo revision : pyval)
    (e : raised) (k : pyval -> M B) (tr : trace) :
  snd (get_long_revision W repo revision []) = inl e ->
  bind (get_long_revision W repo revision) k tr =
  (tr ++ [Request (json_rev_url W repo revision) (Some 60%Z)], inl e).
Proof.
  intro H. unfold bind. now rewrite get_long_revision_run, H.
Qed.

Section BuildRun.

Variable W : World.
Variable self : PulseQueue.
Variable d : dict.
Variable t : string.
Variables product lowered platform tags locale buildid buildurl short : pyval.

Hypothesis Htree : dict_get "tree" d = Some (PStr t).
Hypothesis Hvalid_tree : is_valid_tree self (PStr t) = inr true.
Hypothesis Hproduct : dict_get "product" d = Some product.
Hypothesis Hlower : py_lower product = inr lowered.
Hypothesis Hvalid_product : is_valid_product self (PStr t) lowered = inr true.
Hypothesis Hplatform : dict_get "platform" d = Some platform.
Hypothesis Hvalid_platform : is_valid_platform self (PStr t) platform = inr true.
Hypothesis Htags : dict_get "tags" d = Some tags.
Hypothesis Hvalid_tags : has_valid_tags self (PStr t) tags = inr true.
Hypothesis Hlocale : dict_get "locale" d = Some locale.
Hypothesis Hvalid_locale : is_valid_locale self (PStr t) locale = inr true.
Hypothesis Hbuildid : dict_get "buildid" d = Some buildid.
Hypothesis Hbuildurl : dict_get "buildurl" d = Some buildurl.
Hypothesis Hshort : dict_get "revision" d = Some short.

(** The run of an accepted payload whose revision lookup raises. *)
Lemma NormalizedBuildQueue_on_message_lookup_fails (e : raised) (tr : trace) :
  snd (get_long_revision W (PStr t) short []) = inl e ->
  NormalizedBuildQueue_on_message W self (PDict d) tr =
  (tr ++ [Request (json_rev_url W (PStr t) short) (Some 60%Z)], inl e).
Proof.
  intro Hfails. unfold NormalizedBuildQueue_on_message.
  repeat run_step.
  erewrite run_lift with (a := if py_eqb locale (PStr "en-US") then buildurl else PNone)
    by (dict_lookup; destruct (py_eqb locale (PStr "en-US")); reflexivity).
  repeat run_step.
  now erewrite run_get_long_revision_fails by exact Hfails.
Qed.

(** The run of an accepted payload whose revision lookup answers. *)
Lemma NormalizedBuildQueue_on_message_trace
    (revision status test_packages_url version : pyval) (tr : trace) :
  snd (get_long_revision W (PStr t) short []) = inr revision ->
  dict_get "status" d = Some status ->
  dict_get "test_packages_url" d = Some test_packages_url ->
  dict_get "version" d = Some version ->
  let branch := PStr (str_replace "release-" "" t) in
  let repo := PStr ("http://hg.mozilla.org/"
                    ++ (if negb (str_endswith "-central" t) then "releases/" else "")
                    ++ str_replace "release-" "" t)%string in
  fst (NormalizedBuildQueue_on_message W self (PDict d) tr) =
  tr ++ [Request (json_rev_url W (PStr t) short) (Some 60%Z);
         Callback
           (Build_properties branch buildid
              (match dict_get "build_number" d with Some v => v | None => PNone end)
              (if py_eqb locale (PStr "en-US") then buildurl else PNone)
              locale platform lowered repo revision status tags test_packages_url
              (PStr t) version
              (PDict (dict_set "repo" repo (dict_set "branch" branch d))))].
Proof.
  intros Hrevision Hstatus Htest Hversion branch repo.
  unfold NormalizedBuildQueue_on_message.
  repeat run_step.
  erewrite run_lift with (a := if py_eqb locale (PStr "en-US") then buildurl else PNone)
    by (dict_lookup; destruct (py_eqb locale (PStr "en-US")); reflexivity).
  repeat run_step.
  erewrite run_get_long_revision by exact Hrevision.
  repeat run_step.
  unfold call_callback.
  match goal with
  | |- context [callback self ?h ?kw] => destruct (callback self h kw)
  end; cbn [fst]; rewrite <- app_assoc; reflexivity.
Qed.

End BuildRun.

(** X20. A Build-Completed payload that has passed the five checks but
    whose revision lookup raises is dropped: the lookup is the only thing
    sent, the callback is not invoked, and [process_message] logs the
    failure, acknowledges and returns. The log entry is at debug level when
    the lookup raised [ValueError] (a body that is not JSON) and an
    exception entry otherwise (a failed request, an error status, a missing
    [node]). *)
Theorem build_lookup_failure_drops_message (W : World) (self : PulseQueue) (d : dict)
    (t : string) (product lowered platform tags locale buildid buildurl short : pyval)
    (e : exn) (m : message) (tr : trace) :
  dict_get "payload" d = None ->
  dict_get "tree" d = Some (PStr t) ->
  is_valid_tree self (PStr t) = inr true ->
  dict_get "product" d = Some product ->
  py_lower product = inr lowered ->
  is_valid_product self (PStr t) lowered = inr true ->
  dict_get "platform" d = Some platform ->
  is_valid_platform self (PStr t) platform = inr true ->
  dict_get "tags" d = Some tags ->
  has_valid_tags self (PStr t) tags = inr true ->
  dict_get "locale" d = Some locale ->
  is_valid_locale self (PStr t) locale = inr true ->
  dict_get "buildid" d = Some buildid ->
  dict_get "buildurl" d = Some buildurl ->
  dict_get "revision" d = Some short ->
  snd (get_long_revision W (PStr t) short []) = inl (Exception e) ->
  process_message (NormalizedBuildQueue W) self (PDict d) (Some m) tr =
  (tr ++ [Log DEBUG;
          Request (json_rev_url W (PStr t) short) (Some 60%Z);
          Log (if is_ValueError (Exception e) then DEBUG else EXCEPTION);
          Ack],
   inr tt).
Proof.
  intros Hpayload Htree Hvt Hproduct Hlower Hvp Hplatform Hvpl Htags Hvtags Hlocale Hvl
         Hbuildid Hbuildurl Hshort Hfails.
  rewrite process_message_run. cbn zeta. rewrite try_except_log_handlers.
  assert (Hstages : stages (NormalizedBuildQueue W) self (PDict d) (Some m) tr =
                    (tr ++ [Log DEBUG;
                            Request (json_rev_url W (PStr t) short) (Some 60%Z)],
                     inl (Exception e))).
  { unfold stages. rewrite run_emit. simpl preprocess_message. simpl on_message.
    unfold NormalizedBuildQueue_preprocess_message.
    erewrite run_lift by (simpl; rewrite Hpayload; reflexivity).
    rewrite (NormalizedBuildQueue_on_message_lookup_fails W self d t product lowered
               platform tags locale buildid buildurl short) with (e := Exception e);
      auto.
    now rewrite <- app_assoc. }
  rewrite Hstages. cbn [fst snd]. now rewrite <- !app_assoc.
Qed.

Lemma build_lookup_failure_drops_message_witness :
  let payload := PDict (dict_set "tree" (PStr "release-mozilla-beta")
                          match Sample.build_payload "en-US" with
                          | PDict d => d
                          | _ => []
                          end) in
  process_message (NormalizedBuildQueue Sample.world) (Sample.queue Sample.quiet)
    payload (Some {| headers := PDict [] |}) []
  = ([Log DEBUG;
      Request "https://hg.mozilla.org/releases/release-mozilla-beta/json-rev/59f372c35b24"
        (Some 60%Z);
      Log EXCEPTION; Ack], inr tt).
Proof.
  intro payload.
  apply (build_lookup_failure_drops_message Sample.world (Sample.queue Sample.quiet)
           (dict_set "tree" (PStr "release-mozilla-beta")
              match Sample.build_payload "en-US" with PDict d => d | _ => [] end)
           "release-mozilla-beta"
           (PStr "Firefox") (PStr "firefox") (PStr "linux64") (PList []) (PStr "en-US")
           (PStr "20150101030205") (PStr "http://ftp.mozilla.org/firefox.tar.bz2")
           (PStr "59f372c35b24") (HTTPError 404) {| headers := PDict [] |} []);
    reflexivity.
Defined.

(** ** The branch of a release tree *)

Lemma prefix_app (old s : string) : String.prefix old (old ++ s)%string = true.
Proof.
  induction old as [|c old IH]; simpl.
  - now destruct s.
  - destruct (ascii_dec c c) as [_|Hne]; [exact IH | contradiction].
Qed.

Lemma str_replace_from_skip (x old new s : string) :
  str_replace_from (String.length x) old new (x ++ s)%string
  = str_replace_from 0 old new s.
Proof.
  induction x as [|c x IH]; simpl; [reflexivity | exact IH].
Qed.

(** A leading occurrence is replaced, and the rest is gone through. *)
Lemma str_replace_prefix (c : ascii) (old new s : string) :
  str_replace (String c old) new (String c old ++ s)%string
  = (new ++ str_replace (String c old) new s)%string.
Proof.
  unfold str_replace.
  change (String c old ++ s)%string with (String c (old ++ s)%string).
  cbn [str_replace_from].
  change (String c (old ++ s)%string) with (String c old ++ s)%string.
  rewrite prefix_app.
  assert (Hlen : String.length (String c old) - 1 = String.length old)
    by (simpl; apply Nat.sub_0_r).
  now rewrite Hlen, str_replace_from_skip.
Qed.

(** A string without occurrence is left as it is. *)
Lemma str_replace_absent (old new s : string) :
  is_substring old s = false -> str_replace old new s = s.
Proof.
  unfold str_replace. induction s as [|c s IH]; [reflexivity|].
  cbn [is_substring str_replace_from]. intro H.
  apply orb_false_elim in H. destruct H as (Hprefix & Hrest).
  now rewrite Hprefix, IH.
Qed.

(** X21. A Build-Completed payload for the tree [release-<b>] (where [b]
    has no [release-] in it) that passes the checks and whose revision
    lookup answers: the record has the tree as it came, the branch [b], and
    the repository made from [b]; the revision lookup is sent for the tree,
    not for the branch, to [releases/release-<b>]. *)
Theorem build_branch_of_release_tree (W : World) (self : PulseQueue) (d : dict)
    (b : string)
    (product lowered platform tags locale buildid buildurl short revision : pyval)
    (status test_packages_url version : pyval) (tr : trace) :
  is_substring "release-" b = false ->
  dict_get "tree" d = Some (PStr ("release-" ++ b)) ->
  is_valid_tree self (PStr ("release-" ++ b)) = inr true ->
  dict_get "product" d = Some product ->
  py_lower product = inr lowered ->
  is_valid_product self (PStr ("release-" ++ b)) lowered = inr true ->
  dict_get "platform" d = Some platform ->
  is_valid_platform self (PStr ("release-" ++ b)) platform = inr true ->
  dict_get "tags" d = Some tags ->
  has_valid_tags self (PStr ("release-" ++ b)) tags = inr true ->
  dict_get "locale" d = Some locale ->
  is_valid_locale self (PStr ("release-" ++ b)) locale = inr true ->
  dict_get "buildid" d = Some buildid ->
  dict_get "buildurl" d = Some buildurl ->
  dict_get "revision" d = Some short ->
  snd (get_long_revision W (PStr ("release-" ++ b)) short []) = inr revision ->
  dict_get "status" d = Some status ->
  dict_get "test_packages_url" d = Some test_packages_url ->
  dict_get "version" d = Some version ->
  exists kw,
    fst (NormalizedBuildQueue_on_message W self (PDict d) tr) =
    tr ++ [Request ("https://hg.mozilla.org/releases/release-" ++ b
                    ++ "/json-rev/" ++ py_format W short)%string (Some 60%Z);
           Callback kw] /\
    dict_get "tree" kw = Some (PStr ("release-" ++ b)) /\
    dict_get "branch" kw = Some (PStr b) /\
    dict_get "repository" kw =
      Some (PStr ("http://hg.mozilla.org/"
                  ++ (if str_endswith "-central" ("release-" ++ b)
                      then "" else "releases/")
                  ++ b)).
Proof.
  intros Hb Htree Hvt Hproduct Hlower Hvp Hplatform Hvpl Htags Hvtags Hlocale Hvl
         Hbuildid Hbuildurl Hshort Hrevision Hstatus Htest Hversion.
  eexists. split.
  - rewrite (NormalizedBuildQueue_on_message_trace W self d ("release-" ++ b) product
               lowered platform tags locale buildid buildurl short)
      with (revision := revision) (status := status)
           (test_packages_url := test_packages_url) (version := version); auto.
  - assert (Hrep : str_replace "release-" "" ("release-" ++ b) = b).
    { change "release-" with (String "r" "elease-") at 1 2.
      rewrite str_replace_prefix.
      change (String "r" "elease-") with "release-".
      now rewrite str_replace_absent. }
    unfold Build_properties. cbn [dict_get String.eqb Ascii.eqb Bool.eqb].
    rewrite Hrep.
    repeat split.
    now destruct (str_endswith "-central" ("release-" ++ b)).
Qed.

Lemma build_branch_of_release_tree_witness :
  let W := {| http_get := fun _ _ =>
                inr {| status_code := 200;
                       body_json := Some (PDict [("node", PStr Sample.node)]) |};
              buildUrl := fun method _ => method;
              cc_key_search_funsize := fun _ => None;
              cc_key_search_release := fun _ => false;
              scheduled_buildid := fun _ => None;
              format_other := fun _ => "" |} in
  let payload := PDict (dict_set "tree" (PStr "release-mozilla-beta")
                          match Sample.build_payload "en-US" with
                          | PDict d => d
                          | _ => []
                          end) in
  let out := NormalizedBuildQueue_on_message W (Sample.queue Sample.quiet) payload [] in
  requests (fst out)
    = [("https://hg.mozilla.org/releases/release-mozilla-beta/json-rev/59f372c35b24",
        Some 60%Z)] /\
  map (dict_get "branch") (calls (fst out)) = [Some (PStr "mozilla-beta")] /\
  map (dict_get "repository") (calls (fst out))
    = [Some (PStr "http://hg.mozilla.org/releases/mozilla-beta")].
Proof.
  intros W payload out.
  destruct (build_branch_of_release_tree W (Sample.queue Sample.quiet)
              (dict_set "tree" (PStr "release-mozilla-beta")
                 match Sample.build_payload "en-US" with PDict d => d | _ => [] end)
              "mozilla-beta"
              (PStr "Firefox") (PStr "firefox") (PStr "linux64") (PList []) (PStr "en-US")
              (PStr "20150101030205") (PStr "http://ftp.mozilla.org/firefox.tar.bz2")
              (PStr "59f372c35b24") (PStr Sample.node) (PInt 0)
              (PStr "http://ftp.mozilla.org/test_packages.json") (PStr "37.0a1") []
              eq_refl eq_refl eq_refl eq_refl eq_refl eq_refl eq_refl eq_refl eq_refl
              eq_refl eq_refl eq_refl eq_refl eq_refl eq_refl eq_refl eq_refl eq_refl
              eq_refl) as (kw & Hfst & Htree & Hbranch & Hrepo).
  subst out payload. rewrite Hfst. simpl. rewrite Hbranch, Hrepo. repeat split.
Defined.

(** ** How many records *)

Lemma Release_handle_locale_once (self : PulseQueue) (tree data locale : pyval) :
  at_most_one_call (Release_handle_locale self tree data locale).
Proof.
  unfold Release_handle_locale. apply at_most_one_call_handled.
  unfold Release_try_locale.
  repeat (apply at_most_one_call_bind with (X := fun _ => True);
          [silent_step | intros ?]).
  apply at_most_one_call_callback.
Qed.

Lemma for_each_calls_bound {A : Type} (l : list A) (body : A -> M unit) (tr : trace) :
  (forall x, at_most_one_call (body x)) ->
  exists kws,
    calls (fst (for_each l body tr)) = calls tr ++ kws /\ length kws <= length l.
Proof.
  intro Hbody. revert tr. induction l as [|x l IH]; intro tr; simpl.
  - exists []. now rewrite app_nil_r.
  - unfold bind. destruct (Hbody x tr) as (kws & Hcalls & Hlen).
    destruct (body x tr) as [tr' [e|u]]; simpl in Hcalls.
    + exists kws. simpl. split; [exact Hcalls | lia].
    + destruct (IH tr') as (kws' & Hcalls' & Hlen').
      exists (kws ++ kws'). rewrite Hcalls', Hcalls, app_assoc, length_app.
      split; [reflexivity | lia].
Qed.

Lemma Release_locales_loop_calls_bound (self : PulseQueue) (tree : pyval)
    (locales : list pyval) (data : pyval) (tr : trace) :
  exists kws,
    calls (fst (Release_locales_loop self tree data locales tr)) = calls tr ++ kws /\
    length kws <= length locales.
Proof.
  revert data tr. induction locales as [|locale rest IH]; intros data tr; simpl.
  - exists []. now rewrite app_nil_r.
  - unfold bind at 1. unfold lift at 1.
    destruct (py_setitem data "locale" locale) as [e|data'].
    + exists []. simpl. rewrite app_nil_r. split; [reflexivity | lia].
    + unfold bind.
      destruct (Release_handle_locale_once self tree data' locale tr)
        as (kws & Hcalls & Hlen).
      destruct (Release_handle_locale self tree data' locale tr) as [tr' [e|u]];
        simpl in Hcalls.
      * exists kws. simpl. split; [exact Hcalls | lia].
      * destruct (IH data' tr') as (kws' & Hcalls' & Hlen').
        exists (kws ++ kws'). rewrite Hcalls', Hcalls, app_assoc, length_app.
        split; [reflexivity | lia].
Qed.

(** X22. No family hands the callback more records than the message has
    elements: at most one for a Build-Completed payload, at most one for
    each update of a list of updates, and at most one for each locale of
    the list of locales of a release. *)
Theorem records_are_bounded (W : World) (self : PulseQueue) (tr : trace) :
  (forall data,
     exists kws,
       calls (fst (NormalizedBuildQueue_on_message W self data tr)) = calls tr ++ kws /\
       length kws <= 1) /\
  (forall updates,
     exists kws,
       calls (fst (FunsizeTaskCompletedQueue_on_message self (PList updates) tr))
       = calls tr ++ kws /\
       length kws <= length updates) /\
  (forall d locales,
     dict_get "locale" d = None ->
     dict_get "locales" d = Some (PList locales) ->
     exists kws,
       calls (fst (ReleaseTaskCompletedQueue_on_message self (PDict d) tr))
       = calls tr ++ kws /\
       length kws <= length locales).
Proof.
  split; [|split].
  - intro data.
    assert (Honce : at_most_one_call (NormalizedBuildQueue_on_message W self data)).
    { unfold NormalizedBuildQueue_on_message.
      repeat (apply at_most_one_call_bind with (X := fun _ => True);
              [silent_step | intros ?]).
      apply at_most_one_call_callback. }
    apply Honce.
  - intro updates. unfold FunsizeTaskCompletedQueue_on_message.
    erewrite run_lift by reflexivity.
    apply for_each_calls_bound. intro x. apply Funsize_handle_update_once.
  - intros d locales Hlocale Hlocales.
    unfold ReleaseTaskCompletedQueue_on_message.
    assert (Hsilent : exists kws,
              calls tr = calls tr ++ kws /\ length kws <= length locales).
    { exists []. rewrite app_nil_r. split; [reflexivity | simpl; lia]. }
    destruct (getitem_str (PDict d) "tree") as [e|tree] eqn:E1;
      [unfold bind, lift; simpl; exact Hsilent | erewrite run_lift by reflexivity].
    destruct (is_valid_tree self tree) as [e|[|]] eqn:E2;
      [unfold bind, check, lift; simpl; exact Hsilent
      |erewrite run_check by reflexivity
      |unfold bind, check, lift, raise; simpl; exact Hsilent].
    destruct (let? p := getitem_str (PDict d) "product" in py_lower p)
      as [e|product] eqn:E3;
      [unfold bind, lift; simpl; exact Hsilent | erewrite run_lift by reflexivity].
    destruct (is_valid_product self tree product) as [e|[|]] eqn:E4;
      [unfold bind, check, lift; simpl; exact Hsilent
      |erewrite run_check by reflexivity
      |unfold bind, check, lift, raise; simpl; exact Hsilent].
    destruct (getitem_str (PDict d) "platform") as [e|platform] eqn:E5;
      [unfold bind, lift; simpl; exact Hsilent | erewrite run_lift by reflexivity].
    destruct (is_valid_platform self tree platform) as [e|[|]] eqn:E6;
      [unfold bind, check, lift; simpl; exact Hsilent
      |erewrite run_check by reflexivity
      |unfold bind, check, lift, raise; simpl; exact Hsilent].
    erewrite run_lift by reflexivity. unfold dict_has. rewrite Hlocale.
    erewrite run_lift by (simpl; rewrite Hlocales; reflexivity).
    erewrite run_lift by reflexivity.
    unfold bind. cbn [snd].
    destruct (Release_locales_loop_calls_bound self tree locales
                (PDict (dict_del "locales" d)) tr) as (kws & Hcalls & Hlen).
    exists kws. split; [|exact Hlen].
    now destruct (Release_locales_loop self tree (PDict (dict_del "locales" d))
                    locales tr) as [tr' [e|final]].
Qed.

Lemma records_are_bounded_witness :
  exists kws,
    calls (fst (ReleaseTaskCompletedQueue_on_message (Sample.queue Sample.quiet)
                  (Sample.release_payload ["en-US"; "xx-INVALID"]) []))
    = calls [] ++ kws /\
    length kws <= 2.
Proof.
  destruct (records_are_bounded Sample.world (Sample.queue Sample.quiet) [])
    as (_ & _ & Hrelease).
  exact (Hrelease (Sample.release_fields
                   ++ [("locales", PList [PStr "en-US"; PStr "xx-INVALID"])])
           [PStr "en-US"; PStr "xx-INVALID"] eq_refl eq_refl).
Defined.

(** ** The order of the checks *)

Lemma run_check_false {B : Type} (ok : res bool) (msg : string) (arg : pyval)
    (k : unit -> M B) (tr : trace) :
  ok = inr false ->
  bind (check ok msg arg) k tr = (tr, inl (Exception (ValueError msg (Some arg)))).
Proof. intros ->. reflexivity. Qed.

(** X23. [NormalizedBuildQueue._on_message] checks the tree, then the
    product in lower case, then the platform, then the tags, then the
    locale, and stops at the first check that returns false: it raises
    [ValueError] with the message of that check and the value refused,
    whatever the fields of the later checks are, and leaves the trace as it
    was. *)
Theorem build_checks_in_order (W : World) (self : PulseQueue) (d : dict)
    (tree : pyval) (tr : trace) :
  dict_get "tree" d = Some tree ->
  let run := NormalizedBuildQueue_on_message W self (PDict d) tr in
  let refused := fun (what : string) (value : pyval) =>
    (tr, @inl raised unit (Exception (ValueError what (Some value)))) in
  (is_valid_tree self tree = inr false ->
   run = refused "Cancel build request due to invalid tree: " tree) /\
  (is_valid_tree self tree = inr true ->
   forall product lowered,
     dict_get "product" d = Some product -> py_lower product = inr lowered ->
     (is_valid_product self tree lowered = inr false ->
      run = refused "Cancel build request due to invalid product: " lowered) /\
     (is_valid_product self tree lowered = inr true ->
      forall platform,
        dict_get "platform" d = Some platform ->
        (is_valid_platform self tree platform = inr false ->
         run = refused "Cancel build request due to invalid platform: " platform) /\
        (is_valid_platform self tree platform = inr true ->
         forall tags,
           dict_get "tags" d = Some tags ->
           (has_valid_tags self tree tags = inr false ->
            run = refused "Cancel build request due to invalid tags: " tags) /\
           (has_valid_tags self tree tags = inr true ->
            forall locale,
              dict_get "locale" d = Some locale ->
              is_valid_locale self tree locale = inr false ->
              run = refused "Cancel build request due to invalid locale: " locale)))).
Proof.
  intros Htree run refused. subst run refused.
  unfold NormalizedBuildQueue_on_message.
  erewrite run_lift by dict_lookup.
  split; [intro H; now erewrite run_check_false by exact H|].
  intros Hvt product lowered Hproduct Hlower.
  erewrite run_check by exact Hvt. erewrite run_lift by dict_lookup.
  split; [intro H; now erewrite run_check_false by exact H|].
  intros Hvp platform Hplatform.
  erewrite run_check by exact Hvp. erewrite run_lift by dict_lookup.
  split; [intro H; now erewrite run_check_false by exact H|].
  intros Hvpl tags Htags.
  erewrite run_check by exact Hvpl. erewrite run_lift by dict_lookup.
  split; [intro H; now erewrite run_check_false by exact H|].
  intros Hvtags locale Hlocale Hvl.
  erewrite run_check by exact Hvtags. erewrite run_lift by dict_lookup.
  now erewrite run_check_false by exact Hvl.
Qed.

Lemma build_checks_in_order_witness :
  let payload := [("tree", PStr "mozilla-central"); ("product", PStr "Thunderbird")] in
  NormalizedBuildQueue_on_message Sample.world (Sample.queue Sample.quiet)
    (PDict payload) []
  = ([], inl (Exception (ValueError "Cancel build request due to invalid product: "
                           (Some (PStr "thunderbird"))))).
Proof.
  intro payload.
  destruct (build_checks_in_order Sample.world (Sample.queue Sample.quiet) payload
              (PStr "mozilla-central") [] eq_refl) as (_ & Hproduct).
  destruct (Hproduct eq_refl (PStr "Thunderbird") (PStr "thunderbird") eq_refl eq_refl)
    as (Hrefused & _).
  exact (Hrefused eq_refl).
Defined.
